(** * Mann-Kendall trend detector (detectors/trend_mk.py)

    A shallow embedding of [MKDetector] and the properties of its
    statistic engine, multivariate aggregator, window scanner and
    result selector / ranker.

    Numbers.  Python floats are modelled by the rationals they denote
    ([Q], compared with [Qcompare], so two representations of one value
    are one float); a NaN cell of a frame is [None].  The score is an
    integer ([Z]).  The library functions [np.sqrt], [norm.cdf],
    [norm.ppf], the exponential smoother of statsmodels and the sort
    behind [Series.sort_values] are not code of this repository: they
    are variables of the section below.  Exceptions are values of
    [exn]; a function that can raise returns a [result]. *)

From Stdlib Require Import String Ascii DecimalString.
From Stdlib Require Import List ZArith QArith Qabs Bool Arith Lia Lqa.
From Stdlib Require Import Permutation Sorted.
Import ListNotations.

Local Open Scope string_scope.
Local Open Scope Z_scope.

(** ** Exceptions and results *)

Inductive exn : Type :=
| ValueError (msg : string)
| ZeroDivisionError
| IndexError
| KeyError (key : string)
| TypeError
| AttributeError (name : string)
| UnboundLocalError (name : string).

Inductive result (A : Type) : Type :=
| Ok (a : A)
| Raise (e : exn).
Arguments Ok {A} a.
Arguments Raise {A} e.

Definition bind {A B} (r : result A) (k : A -> result B) : result B :=
  match r with
  | Ok a => k a
  | Raise e => Raise e
  end.

Notation "x <- r ;; k" := (bind r (fun x => k))
  (at level 61, r at next level, right associativity).

Definition is_ok {A} (r : result A) : bool :=
  match r with Ok _ => true | Raise _ => false end.

(** ** Comparisons on floats *)

Definition Qltb (a b : Q) : bool :=
  match (a ?= b)%Q with Lt => true | _ => false end.

Definition Qgtb (a b : Q) : bool := Qltb b a.

(** [a / b] where Python raises on a zero divisor: the dividend is a
    Python [int] there (the score of fewer than two points is the
    literal [0], never a numpy scalar). *)
Definition py_div (a b : Q) : result Q :=
  if Qeq_bool b 0 then Raise ZeroDivisionError else Ok (a / b)%Q.

(** ** Lists the way numpy and the collections module use them *)

Section Sorting.
Context {A : Type} (leb eqb : A -> A -> bool).

Fixpoint insert_sorted (a : A) (l : list A) : list A :=
  match l with
  | [] => [a]
  | b :: l' => if leb a b then a :: l else b :: insert_sorted a l'
  end.

Fixpoint sort (l : list A) : list A :=
  match l with
  | [] => []
  | a :: l' => insert_sorted a (sort l')
  end.

(** keep the first element of every run of equal neighbours *)
Fixpoint dedup_adjacent (l : list A) : list A :=
  match l with
  | [] => []
  | a :: l' =>
      match l' with
      | [] => [a]
      | b :: _ => if eqb a b then dedup_adjacent l' else a :: dedup_adjacent l'
      end
  end.
End Sorting.

(** [np.unique(x)]: the sorted distinct values. *)
Definition np_unique (x : list Q) : list Q :=
  dedup_adjacent Qeq_bool (sort Qle_bool x).

(** [Counter(x)]: a dict from value to multiplicity, keys in order of
    first occurrence. *)
Fixpoint counter_incr (v : Q) (c : list (Q * nat)) : list (Q * nat) :=
  match c with
  | [] => [(v, 1%nat)]
  | (k, m) :: c' =>
      if Qeq_bool k v then (k, S m) :: c' else (k, m) :: counter_incr v c'
  end.

Definition Counter (x : list Q) : list (Q * nat) :=
  fold_left (fun c v => counter_incr v c) x [].

Definition np_sum (l : list Q) : Q := fold_left Qplus l 0%Q.

Definition np_sign (q : Q) : Z :=
  match (q ?= 0)%Q with Lt => -1 | Eq => 0 | Gt => 1 end.

(** ** Dicts keyed by metric name, in insertion order *)

Section Dict.
Context {V : Type}.

Fixpoint dict_get (k : string) (d : list (string * V)) : option V :=
  match d with
  | [] => None
  | (k', v) :: d' => if String.eqb k' k then Some v else dict_get k d'
  end.

(** [d[k] = v]: an existing key keeps its place *)
Fixpoint dict_set (k : string) (v : V) (d : list (string * V)) : list (string * V) :=
  match d with
  | [] => [(k, v)]
  | (k', v') :: d' =>
      if String.eqb k' k then (k', v) :: d' else (k', v') :: dict_set k v d'
  end.

Definition dict_keys (d : list (string * V)) : list string := map fst d.
End Dict.

(** ** Frames

    A [DataFrame] indexed by time: the timestamps (day numbers) and the
    named value columns, each as long as the index; [None] is NaN.  A
    [Series] is what [dropna] leaves of one column: (timestamp, value)
    pairs. *)

Record DataFrame : Type := mkDF {
  index : list Z;
  columns : list (string * list (option Q))
}.

Definition Series : Type := list (Z * Q).

Definition empty_frame : DataFrame := mkDF [] [].

Definition nrows (df : DataFrame) : nat := length (index df).
Definition ncols (df : DataFrame) : nat := length (columns df).

Definition is_nan (v : option Q) : bool :=
  match v with None => true | Some _ => false end.

Definition has_nan (col : list (option Q)) : bool := existsb is_nan col.

(** [ts.dropna(axis=1)]: drop every column holding a NaN *)
Definition dropna_axis1 (df : DataFrame) : DataFrame :=
  mkDF (index df) (filter (fun c => negb (has_nan (snd c))) (columns df)).

(** [l[-w:]] for a count [w]: Python reads [-0] as [0], the whole list *)
Definition py_tail {A} (w : nat) (l : list A) : list A :=
  match w with
  | O => l
  | _ => skipn (length l - w) l
  end.

Definition map_columns (f : list (option Q) -> list (option Q))
    (cols : list (string * list (option Q))) : list (string * list (option Q)) :=
  map (fun c => (fst c, f (snd c))) cols.

(** [ts[-w:]] *)
Definition df_tail (w : nat) (df : DataFrame) : DataFrame :=
  mkDF (py_tail w (index df)) (map_columns (py_tail w) (columns df)).

(** position after the labels that are [<= t]: the right bound pandas
    finds for a label slice of a monotonic index *)
Definition slice_bound_right (t : Z) (idx : list Z) : nat :=
  length (filter (fun l => l <=? t) idx).

Definition slice_bound_left (t : Z) (idx : list Z) : nat :=
  length (filter (fun l => l <? t) idx).

Definition df_rows (lo hi : nat) (df : DataFrame) : DataFrame :=
  mkDF (firstn (hi - lo) (skipn lo (index df)))
       (map_columns (fun c => firstn (hi - lo) (skipn lo c)) (columns df)).

(** [ts.loc[:t, :]], the bound included *)
Definition loc_upto (t : Z) (df : DataFrame) : DataFrame :=
  df_rows 0 (slice_bound_right t (index df)) df.

(** [ts.loc[a:b, :]], both bounds included *)
Definition loc_between (a b : Z) (df : DataFrame) : DataFrame :=
  df_rows (slice_bound_left a (index df)) (slice_bound_right b (index df)) df.

(** [index[-1]] *)
Definition last_label (idx : list Z) : result Z :=
  match rev idx with
  | [] => Raise IndexError
  | t :: _ => Ok t
  end.

(** [ts[c].dropna()] *)
Fixpoint dropna_series (idx : list Z) (col : list (option Q)) : Series :=
  match idx, col with
  | t :: idx', Some v :: col' => (t, v) :: dropna_series idx' col'
  | _ :: idx', None :: col' => dropna_series idx' col'
  | _, _ => []
  end.

(** the mean of a rolling window; NaN when a cell of it is NaN *)
Fixpoint window_sum (w : list (option Q)) : option Q :=
  match w with
  | [] => Some 0%Q
  | None :: _ => None
  | Some v :: w' =>
      match window_sum w' with
      | Some s => Some (v + s)%Q
      | None => None
      end
  end.

Definition window_mean (period : nat) (w : list (option Q)) : option Q :=
  match window_sum w with
  | Some s => Some (s / inject_Z (Z.of_nat period))%Q
  | None => None
  end.

(** [col.rolling(window=period).mean()]: NaN until [period] rows are seen *)
Definition rolling_mean (period : nat) (col : list (option Q)) : list (option Q) :=
  map (fun i =>
         if (S i <? period)%nat then None
         else window_mean period (firstn period (skipn (S i - period) col)))
      (seq 0 (length col)).

(** union of two indexes when columns are put side by side
    ([pd.concat(..., axis=1)]): an empty or equal index is kept as it
    is, otherwise the sorted distinct labels of both *)
Definition index_union (a b : list Z) : list Z :=
  match a, b with
  | [], _ => b
  | _, [] => a
  | _, _ =>
      if list_eq_dec Z.eq_dec a b then a
      else dedup_adjacent Z.eqb (sort Z.leb (a ++ b))
  end.

Fixpoint series_get (t : Z) (s : Series) : option Q :=
  match s with
  | [] => None
  | (t', v) :: s' => if t' =? t then Some v else series_get t s'
  end.

Fixpoint column_get (t : Z) (idx : list Z) (col : list (option Q)) : option Q :=
  match idx, col with
  | t' :: idx', v :: col' => if t' =? t then v else column_get t idx' col'
  | _, _ => None
  end.

(** [pd.concat([df, s.rename(name)], axis=1)] *)
Definition concat_axis1 (df : DataFrame) (name : string) (s : Series) : DataFrame :=
  let idx := index_union (index df) (map fst s) in
  mkDF idx
       (map_columns (fun col => map (fun t => column_get t (index df) col) idx)
                    (columns df)
        ++ [(name, map (fun t => series_get t s) idx)]).

(** ** Detector state *)

Inductive trend_field : Type :=
| TrendStr (s : string)
| TrendDict (d : list (string * option string)).

Inductive tau_field : Type :=
| TauNum (q : Q)
| TauDict (d : list (string * option Q)).

(** one Statistic Record: the dict [runDetector] returns *)
Record StatRecord : Type := mkStat {
  ds : Z;
  trend_direction : trend_field;
  p : Q;
  Tau : tau_field
}.

Record RunParams : Type := mkParams {
  window_size : nat;
  training_days : option nat;
  direction : string;
  freq : option string
}.

(** the attributes of [self]; those that [detector] assigns are unset
    ([None]) on a fresh detector *)
Record MKDetector : Type := mkDetector {
  data : option DataFrame;
  threshold : Q;
  alpha : Q;
  multivariate : bool;
  params : option RunParams;
  ts : option DataFrame;
  MK_statistics : option (list StatRecord)
}.

Record TimeSeriesChangePoint : Type := mkCP {
  start_time : Z;
  end_time : Z;
  confidence : Q
}.

Record MKMetadata : Type := mkMeta {
  is_multivariate : bool;
  meta_trend_direction : trend_field;
  meta_Tau : tau_field
}.

(** [TimeSeriesData.is_univariate]: exactly one value column *)
Definition is_univariate (df : DataFrame) : bool := (ncols df =? 1)%nat.

(** [MKDetector.__init__] *)
Definition MKDetector_init (d : option DataFrame) (thr al : Q) (multi : bool)
  : MKDetector :=
  let multi' :=
    match d with
    | Some df => if negb (is_univariate df) && negb multi then true else multi
    | None => multi
    end in
  mkDetector d thr al multi' None None None.

Definition set_params (self : MKDetector) (ps : RunParams) : MKDetector :=
  mkDetector (data self) (threshold self) (alpha self) (multivariate self)
             (Some ps) (ts self) (MK_statistics self).

Definition set_ts (self : MKDetector) (t : DataFrame) : MKDetector :=
  mkDetector (data self) (threshold self) (alpha self) (multivariate self)
             (params self) (Some t) (MK_statistics self).

Definition set_MK_statistics (self : MKDetector) (st : list StatRecord) : MKDetector :=
  mkDetector (data self) (threshold self) (alpha self) (multivariate self)
             (params self) (ts self) (Some st).

(** reading an attribute that [detector] has not assigned yet *)
Definition get_params (name : string) (self : MKDetector) : result RunParams :=
  match params self with
  | Some ps => Ok ps
  | None => Raise (AttributeError name)
  end.

(** a numpy array of one or two dimensions; a 2-d array is kept by
    columns, with its number of rows *)
Inductive ndarray (A : Type) : Type :=
| Arr1 (x : list A)
| Arr2 (n : nat) (cols : list (list A)).
Arguments Arr1 {A} x.
Arguments Arr2 {A} n cols.

(** what fitting and predicting with statsmodels' smoother can do *)
Inductive ses_outcome : Type :=
| Predicted (s : Series)
| FloatingPointErr
| OtherErr (e : exn).

(** ** The statistic engine: score and variance *)

(** the double loop of [_mk_score], the running sum threaded through *)
Fixpoint mk_score_from (s : Z) (x : list Q) : Z :=
  match x with
  | [] => s
  | xk :: rest =>
      mk_score_from (fold_left (fun s xj => s + np_sign (xj - xk)) rest s) rest
  end.

Definition _mk_score (x : list Q) : Z := mk_score_from 0 x.

Definition len (x : list Q) : Z := Z.of_nat (length x).

(** [tp * (tp - 1) * (2 * tp + 5)] on the float array of multiplicities *)
Definition tie_terms (x : list Q) : list Q :=
  map (fun kv => let tp := inject_Z (Z.of_nat (snd kv)) in
                 (tp * (tp - 1) * (2 * tp + 5))%Q)
      (Counter x).

Definition _var_s (x : list Q) : Q :=
  let n := len x in
  let unique_x := np_unique x in
  if (length x =? length unique_x)%nat then
    (inject_Z (n * (n - 1) * (2 * n + 5)) / 18)%Q
  else
    ((inject_Z (n * (n - 1) * (2 * n + 5)) + np_sum (tie_terms x)) / 18)%Q.

Section Detector.

(** library functions: [np.sqrt], [scipy.stats.norm.cdf] and [.ppf],
    statsmodels' [SimpleExpSmoothing(ts_c).fit(smoothing_level=0.2,
    optimized=False).predict(first, last)], and
    [Series.sort_values(ascending=...)] on a Series given as
    (row label, value) pairs *)
Variable np_sqrt : Q -> Q.
Variable norm_cdf : Q -> Q.
Variable norm_ppf : Q -> Q.
Variable SimpleExpSmoothing : Series -> ses_outcome.
Variable sort_values : bool -> list (nat * option Q) -> list (nat * option Q).

(** *** Statistic engine: z-score, p-value, trend *)

(** numpy divides by a zero root without raising; it gives an
    infinity, which no caller reaches: a non-zero score needs two
    points, and the variance of two points is positive *)
Definition _z_score (s var_s : Q) : Q :=
  if Qgtb s 0 then ((s - 1) / np_sqrt var_s)%Q
  else if Qeq_bool s 0 then 0%Q
  else ((s + 1) / np_sqrt var_s)%Q.

Definition _p_value (self : MKDetector) (z Tau : Q) : Q * string :=
  let p := (2 * (1 - norm_cdf (Qabs z)))%Q in
  let h := Qgtb (Qabs z) (norm_ppf (1 - alpha self / 2)%Q) in
  let trend :=
    if Qltb z 0 && h && Qltb Tau (-1 * threshold self)%Q then "decreasing"
    else if Qgtb z 0 && h && Qgtb Tau (threshold self) then "increasing"
    else "no trend" in
  (p, trend).

(** *** Preprocessor *)

Definition seasonal_period (f : string) : result nat :=
  if String.eqb f "weekly" then Ok 7%nat
  else if String.eqb f "monthly" then Ok 30%nat
  else if String.eqb f "yearly" then Ok 365%nat
  else Raise (KeyError f).

Definition _remove_seasonality (ts : DataFrame) (freq : option string)
  : result DataFrame :=
  match freq with
  | None => Ok ts
  | Some f =>
      period <- seasonal_period f ;;
      Ok (mkDF (index ts) (map_columns (rolling_mean period) (columns ts)))
  end.

Definition smooth_column (ts : DataFrame) (smoothed_ts : result DataFrame)
    (c : string * list (option Q)) : result DataFrame :=
  smoothed <- smoothed_ts ;;
  let ts_c := dropna_series (index ts) (snd c) in
  match SimpleExpSmoothing ts_c with
  | Predicted smoothed_ts_tmp => Ok (concat_axis1 smoothed (fst c) smoothed_ts_tmp)
  | FloatingPointErr => Ok (concat_axis1 smoothed (fst c) ts_c)
  | OtherErr e => Raise e
  end.

Definition _smoothing (ts : DataFrame) : result DataFrame :=
  fold_left (smooth_column ts) (columns ts) (Ok empty_frame).

(** the last [window_size] rows as an array, flattened when there is
    one column; [np.asarray] of a frame always has two dimensions *)
Definition _preprocessing (self : MKDetector) (ts : DataFrame)
  : result (ndarray (option Q) * nat) :=
  ps <- get_params "window_size" self ;;
  let x := df_tail (window_size ps) ts in
  let c := ncols x in
  match columns x with
  | [col] => Ok (Arr1 (snd col), c)
  | cols => Ok (Arr2 (nrows x) (map snd cols), c)
  end.

Fixpoint drop_nan (x : list (option Q)) : list Q :=
  match x with
  | [] => []
  | Some v :: x' => v :: drop_nan x'
  | None :: x' => drop_nan x'
  end.

(** is row [r] free of NaN in every column *)
Definition row_complete (cols : list (list (option Q))) (r : nat) : bool :=
  forallb (fun col => negb (is_nan (nth r col None))) cols.

Definition keep_rows (cols : list (list (option Q))) (n : nat)
    (col : list (option Q)) : list Q :=
  drop_nan (map (fun r => nth r col None)
                (filter (row_complete cols) (seq 0 n))).

Definition _drop_missing_values (x : ndarray (option Q)) : ndarray Q * nat :=
  match x with
  | Arr1 x =>
      let x' := drop_nan x in (Arr1 x', length x')
  | Arr2 n cols =>
      let n' := length (filter (row_complete cols) (seq 0 n)) in
      (Arr2 n' (map (keep_rows cols n) cols), n')
  end.

(** [0.5 * n * (n - 1)] *)
Definition tau_denominator (n : nat) : Q :=
  ((1 # 2) * inject_Z (Z.of_nat n) * inject_Z (Z.of_nat n - 1))%Q.

(** *** Univariate test *)

(** What the engine does with a window that is still 2-d (a frame
    with no column, or with several): the score is an array, the
    flattened distinct values are counted, and the first failure is
    [Counter] hashing a row (TypeError), the zero denominator of Tau,
    or the truth value of the score array (ValueError). *)
Definition numpy_2d_failure (n : nat) (cols : list (list Q)) : exn :=
  let uniq := length (np_unique (concat cols)) in
  if (n =? uniq)%nat then
    if (n <? 2)%nat then ZeroDivisionError
    else ValueError "The truth value of an array with more than one element is ambiguous"
  else TypeError.

Definition MKtest (self : MKDetector) (ts : DataFrame)
  : result (Z * trend_field * Q * tau_field) :=
  xc <- _preprocessing self ts ;;
  let (x, n) := _drop_missing_values (fst xc) in
  anchor_date <- last_label (index ts) ;;
  match x with
  | Arr1 x =>
      let s := _mk_score x in
      let var_s := _var_s x in
      let z := _z_score (inject_Z s) var_s in
      Tau <- py_div (inject_Z s) (tau_denominator n) ;;
      let (p, trend) := _p_value self z Tau in
      Ok (anchor_date, TrendStr trend, p, TauNum Tau)
  | Arr2 n cols => Raise (numpy_2d_failure n cols)
  end.

(** *** Multivariate aggregator *)

Record mv_acc : Type := mkAcc {
  acc_s : Z;
  acc_var_s : Q;
  acc_denominator : Q;
  acc_Tau_dict : list (string * option Q);
  acc_trend_dict : list (string * option string)
}.

(** [x[:, i]]; a flattened array has no second axis *)
Definition column_i (x : ndarray (option Q)) (i : nat) : result (list (option Q)) :=
  match x with
  | Arr1 _ => Raise IndexError
  | Arr2 _ cols =>
      match nth_error cols i with
      | Some col => Ok col
      | None => Raise IndexError
      end
  end.

Definition column_name (ts : DataFrame) (i : nat) : string :=
  match nth_error (columns ts) i with
  | Some c => fst c
  | None => ""
  end.

(** one turn of the loop over the columns *)
Definition mv_step (self : MKDetector) (ts : DataFrame) (x : ndarray (option Q))
    (acc : result mv_acc) (i : nat) : result mv_acc :=
  a <- acc ;;
  col <- column_i x i ;;
  let x_i := drop_nan col in
  let n := length x_i in
  let s_i := _mk_score x_i in
  let var_s_i := _var_s x_i in
  let denominator_i := tau_denominator n in
  let name := column_name ts i in
  let dicts :=
    match py_div (inject_Z s_i) denominator_i with
    | Ok Tau_i =>
        let z_i := _z_score (inject_Z s_i) var_s_i in
        let trend_i := snd (_p_value self z_i Tau_i) in
        (dict_set name (Some Tau_i) (acc_Tau_dict a),
         dict_set name (Some trend_i) (acc_trend_dict a))
    | Raise _ =>
        (dict_set name None (acc_Tau_dict a),
         dict_set name None (acc_trend_dict a))
    end in
  Ok (mkAcc (acc_s a + s_i) (acc_var_s a + var_s_i)%Q
            (acc_denominator a + denominator_i)%Q (fst dicts) (snd dicts)).

Definition multivariate_MKtest (self : MKDetector) (ts : DataFrame)
  : result (Z * trend_field * Q * tau_field) :=
  anchor_date <- last_label (index ts) ;;
  xc <- _preprocessing self ts ;;
  let (x, c) := xc in
  a <- fold_left (mv_step self ts x) (seq 0 c) (Ok (mkAcc 0 0%Q 0%Q [] [])) ;;
  Tau_overall <- py_div (inject_Z (acc_s a)) (acc_denominator a) ;;
  let Tau_dict := dict_set "overall" (Some Tau_overall) (acc_Tau_dict a) in
  let z := _z_score (inject_Z (acc_s a)) (acc_var_s a) in
  let (p, trend) := _p_value self z Tau_overall in
  let trend_dict := dict_set "overall" (Some trend) (acc_trend_dict a) in
  Ok (anchor_date, TrendDict trend_dict, p, TauDict Tau_dict).

Definition runDetector (self : MKDetector) (ts : DataFrame) : result StatRecord :=
  r <- (if multivariate self then multivariate_MKtest self ts else MKtest self ts) ;;
  let '(anchor_date, trend, p, Tau) := r in
  Ok (mkStat anchor_date trend p Tau).

(** *** Window scanner *)

Definition str_of_nat (n : nat) : string :=
  NilZero.string_of_uint (Nat.to_uint n).

(** the loop over [ts_smoothed.index[window_size:]]: one record is
    appended per anchor; an exception leaves the loop *)
Fixpoint scan_anchors (self : MKDetector) (ts_smoothed : DataFrame)
    (anchors : list Z) (MK_statistics : list StatRecord)
  : result (list StatRecord) :=
  match anchors with
  | [] => Ok MK_statistics
  | t :: rest =>
      let ts_tmp := loc_upto t ts_smoothed in
      r <- runDetector self ts_tmp ;;
      scan_anchors self ts_smoothed rest (MK_statistics ++ [r])
  end.

(** lines 366-422 of [detector]: validation, then the statistics *)
Definition run_scan (self : MKDetector) (ps : RunParams) (ts : DataFrame)
  : result (list StatRecord) :=
  match training_days ps with
  | None =>
      if (nrows ts <? window_size ps)%nat then
        Raise (ValueError ("For the whole time series analysis, data must have at least"
                           ++ "window_size=" ++ str_of_nat (window_size ps) ++ " points."))
      else
        ts_deseas <- _remove_seasonality ts (freq ps) ;;
        ts_smoothed <- _smoothing ts_deseas ;;
        scan_anchors self ts_smoothed
                     (skipn (window_size ps) (index ts_smoothed)) []
  | Some td =>
      (* the log line formats [ts.index[-1]] before anything is checked *)
      anchor <- last_label (index ts) ;;
      if (td <? window_size ps)%nat then
        Raise (ValueError ("For the anchor date analysis, training days should have at "
                           ++ "least window_size=" ++ str_of_nat (window_size ps)
                           ++ " points."))
      else if (nrows ts <? td)%nat then
        Raise (ValueError ("For the anchor date analysis, data must have "
                           ++ "at least training_days=" ++ str_of_nat td ++ " points."))
      else
        let ts' := loc_between (anchor - Z.of_nat td) anchor ts in
        ts_deseas <- _remove_seasonality ts' (freq ps) ;;
        ts_smoothed <- _smoothing ts_deseas ;;
        r <- runDetector self ts_smoothed ;;
        Ok [r]
  end.

(** *** Result selector *)

Definition trend_is (s : string) (f : trend_field) : bool :=
  match f with
  | TrendStr t => String.eqb t s
  | TrendDict _ => false
  end.

(** a cell of a frame built from dicts: a missing key and a [None]
    value both read as missing *)
Definition cell {V} (k : string) (d : list (string * option V)) : option V :=
  match dict_get k d with
  | Some (Some v) => Some v
  | _ => None
  end.

Definition cell_is (s : string) (c : option string) : bool :=
  match c with
  | Some t => String.eqb t s
  | None => false
  end.

(** the dicts of the [trend_direction] column; a frame cannot be built
    from plain labels *)
Fixpoint trend_dicts (st : list StatRecord)
  : result (list (list (string * option string))) :=
  match st with
  | [] => Ok []
  | r :: st' =>
      match trend_direction r with
      | TrendDict d => ds' <- trend_dicts st' ;; Ok (d :: ds')
      | TrendStr _ => Raise TypeError
      end
  end.

Fixpoint tau_dicts (st : list StatRecord)
  : result (list (list (string * option Q))) :=
  match st with
  | [] => Ok []
  | r :: st' =>
      match Tau r with
      | TauDict d => ds' <- tau_dicts st' ;; Ok (d :: ds')
      | TauNum _ => Raise TypeError
      end
  end.

Definition add_key (cols : list string) (k : string) : list string :=
  if existsb (String.eqb k) cols then cols else cols ++ [k].

(** the columns of [pd.DataFrame.from_dict(list_of_dicts)]: the keys,
    by first appearance *)
Definition from_dict_columns {V} (dicts : list (list (string * V))) : list string :=
  fold_left (fun cols d => fold_left add_key (dict_keys d) cols) dicts [].

Definition overall_cell (r : StatRecord) : option string :=
  match trend_direction r with
  | TrendDict d => cell "overall" d
  | TrendStr _ => None
  end.

Definition get_MK_results (self : MKDetector) (MK_statistics : list StatRecord)
    (direction : string) : result (list StatRecord) :=
  if negb (existsb (String.eqb direction) ["up"; "down"; "both"]) then
    Raise (ValueError "direction should be chosen from {'up', 'down', 'both'}")
  else if multivariate self then
    dicts <- trend_dicts MK_statistics ;;
    if negb (existsb (String.eqb "overall") (from_dict_columns dicts)) then
      Raise (KeyError "overall")
    else if String.eqb direction "down" then
      Ok (filter (fun r => cell_is "decreasing" (overall_cell r)) MK_statistics)
    else if String.eqb direction "up" then
      Ok (filter (fun r => cell_is "increasing" (overall_cell r)) MK_statistics)
    else
      Ok (filter (fun r => negb (cell_is "no trend" (overall_cell r))) MK_statistics)
  else
    if String.eqb direction "down" then
      Ok (filter (fun r => trend_is "decreasing" (trend_direction r)) MK_statistics)
    else if String.eqb direction "up" then
      Ok (filter (fun r => trend_is "increasing" (trend_direction r)) MK_statistics)
    else
      Ok (filter (fun r => negb (trend_is "no trend" (trend_direction r))) MK_statistics).

Definition _convert_detected_tps (self : MKDetector) (MK_results : list StatRecord)
  : list (TimeSeriesChangePoint * MKMetadata) :=
  map (fun row =>
         let t := ds row in
         (mkCP t t (1 - p row)%Q,
          mkMeta (multivariate self) (trend_direction row) (Tau row)))
      MK_results.

(** *** The detection run

    [detector] returns the detector as the run leaves it, with what
    the call returns or raises. *)
Definition detector (self : MKDetector) (window_size : nat)
    (training_days : option nat) (direction : string) (freq : option string)
  : MKDetector * result (list (TimeSeriesChangePoint * MKMetadata)) :=
  let ps := mkParams window_size training_days direction freq in
  let self := set_params self ps in
  match data self with
  | None => (self, Raise (AttributeError "to_dataframe"))
  | Some d =>
      let ts := dropna_axis1 d in
      let self := set_ts self ts in
      match run_scan self ps ts with
      | Raise e => (self, Raise e)
      | Ok MK_statistics =>
          let self := set_MK_statistics self MK_statistics in
          (self,
           MK_results <- get_MK_results self MK_statistics direction ;;
           Ok (_convert_detected_tps self MK_results))
      end
  end.

Definition get_MK_statistics (self : MKDetector) : result (list StatRecord) :=
  match MK_statistics self with
  | Some st => Ok st
  | None => Raise (AttributeError "MK_statistics")
  end.

(** *** Ranker *)

Record MetricRow : Type := mkRow {
  row_ds : Z;
  metric : string;
  row_Tau : option Q;
  row_trend : option string
}.

(** the value columns left of a frame built from the dicts, once
    [ds] is assigned and [overall] dropped: [drop] raises when there
    is no such column *)
Definition metric_columns (cols : list string) : result (list string) :=
  if existsb (String.eqb "overall") cols then
    Ok (filter (fun c => negb (String.eqb c "ds"))
               (filter (fun c => negb (String.eqb c "overall")) cols))
  else Raise (KeyError "overall").

(** [Tau_df] and [trend_df], each as its value columns and, per
    record, the timestamp with the dict the row was built from *)
Definition _metrics_analysis (self : MKDetector)
  : result ((list string * list (Z * list (string * option Q)))
            * (list string * list (Z * list (string * option string)))) :=
  if negb (multivariate self) then
    Raise (ValueError "Your data is not multivariate.")
  else
    st <- get_MK_statistics self ;;
    taus <- tau_dicts st ;;
    tau_cols <- metric_columns (from_dict_columns taus) ;;
    trends <- trend_dicts st ;;
    trend_cols <- metric_columns (from_dict_columns trends) ;;
    Ok ((tau_cols, combine (map ds st) taus),
        (trend_cols, combine (map ds st) trends)).

(** [df.melt(id_vars=["ds"], ...)]: column after column, the rows in
    their order *)
Definition melt {V} (df : list string * list (Z * list (string * option V)))
  : list (Z * string * option V) :=
  flat_map (fun m => map (fun r => (fst r, m, cell m (snd r))) (snd df)) (fst df).

(** [pd.merge] on the shared columns [ds] and [metric]: the left
    order, each row with its matches *)
Definition merge (left : list (Z * string * option Q))
    (right : list (Z * string * option string)) : list MetricRow :=
  flat_map (fun l =>
              let '(t, m, tau) := l in
              flat_map (fun r =>
                          let '(t', m', tr) := r in
                          if (t' =? t) && String.eqb m' m
                          then [mkRow t m tau tr] else [])
                       right)
           left.

(** [frame.reindex(labels)] for labels that are row positions *)
Definition reindex (rows : list MetricRow) (sorted : list (nat * option Q))
  : list MetricRow :=
  flat_map (fun e => match nth_error rows (fst e) with
                     | Some r => [r]
                     | None => []
                     end)
           sorted.

Definition tau_series (key : option Q -> option Q) (rows : list MetricRow)
  : list (nat * option Q) :=
  combine (seq 0 (length rows)) (map (fun r => key (row_Tau r)) rows).

Definition get_top_k_metrics (self : MKDetector) (time_point : Z)
    (top_k : option nat) : result (list MetricRow) :=
  dfs <- _metrics_analysis self ;;
  let Tau_df := melt (fst dfs) in
  let trend_df := melt (snd dfs) in
  ps <- get_params "training_days" self ;;
  time_point <- match training_days ps with
                | Some _ =>
                    match data self with
                    | Some d => last_label (index d)
                    | None => Raise (AttributeError "time")
                    end
                | None => Ok time_point
                end ;;
  let Tau_df_tp := filter (fun r => fst (fst r) =? time_point) Tau_df in
  let trend_df_tp := filter (fun r => fst (fst r) =? time_point) trend_df in
  let MK_statistics_tp := merge Tau_df_tp trend_df_tp in
  top_metrics <-
    (if String.eqb (direction ps) "down" then
       Ok (reindex MK_statistics_tp
                   (sort_values true (tau_series (fun v => v) MK_statistics_tp)))
     else if String.eqb (direction ps) "up" then
       Ok (reindex MK_statistics_tp
                   (sort_values false (tau_series (fun v => v) MK_statistics_tp)))
     else if String.eqb (direction ps) "both" then
       Ok (reindex MK_statistics_tp
                   (sort_values false (tau_series (option_map Qabs) MK_statistics_tp)))
     else Raise (UnboundLocalError "top_metrics")) ;;
  match top_k with
  | None => Ok top_metrics
  | Some k => Ok (firstn k top_metrics)
  end.

End Detector.

(** ** Instances of the library functions

    Concrete stand-ins on which the development is run: a root by
    Newton steps, a clamped linear distribution function, the 0.975
    quantile, the textbook smoothing recursion at level 0.2, and two
    sorts that both meet the contract of [sort_values]. *)

Definition newton_step (q r : Q) : Q := Qred ((r + q / r) / 2).

Definition newton_sqrt (q : Q) : Q :=
  if Qle_bool q 0 then 0%Q
  else newton_step q (newton_step q (newton_step q (newton_step q ((q + 1) / 2)))).

Definition linear_cdf (x : Q) : Q :=
  if Qle_bool x (-2) then 0%Q
  else if Qle_bool 2 x then 1%Q
  else ((1 # 2) + x / 4)%Q.

Definition quantile_975 (_ : Q) : Q := (196 # 100)%Q.

(** fitted values of simple exponential smoothing: each is the level
    before its observation, the first level being the first value *)
Fixpoint ses_fitted (level : Q) (s : Series) : Series :=
  match s with
  | [] => []
  | (t, y) :: s' =>
      (t, level) :: ses_fitted (Qred ((2 # 10) * y + (8 # 10) * level)) s'
  end.

Definition ses_02 (s : Series) : ses_outcome :=
  match s with
  | [] => OtherErr IndexError
  | (_, y0) :: _ => Predicted (ses_fitted y0 s)
  end.

(** order of two cells for an ascending sort, NaN after every number *)
Definition cell_leb (a b : nat * option Q) : bool :=
  match snd a, snd b with
  | Some x, Some y => Qle_bool x y
  | Some _, None => true
  | None, Some _ => false
  | None, None => true
  end.

Definition cell_geb (a b : nat * option Q) : bool :=
  match snd a, snd b with
  | Some x, Some y => Qle_bool y x
  | Some _, None => true
  | None, Some _ => false
  | None, None => true
  end.

(** insertion from the right end keeps equal cells in their order *)
Definition stable_sort_values (ascending : bool) (s : list (nat * option Q))
  : list (nat * option Q) :=
  sort (if ascending then cell_leb else cell_geb) s.

(** a descending sort written as an ascending argsort read backwards,
    the missing cells put last: equal cells come out in reverse order *)
Definition reversed_sort_values (ascending : bool) (s : list (nat * option Q))
  : list (nat * option Q) :=
  if ascending then sort cell_leb s
  else
    let good := filter (fun e => negb (is_nan (snd e))) s in
    let bad := filter (fun e => is_nan (snd e)) s in
    rev (sort cell_leb good) ++ bad.

(** ** Notions the properties are stated with *)

(** does the sequence hold a tied (repeated) value *)
Fixpoint has_ties (x : list Q) : bool :=
  match x with
  | [] => false
  | a :: r => existsb (Qeq_bool a) r || has_ties r
  end.

(** how many points of [x] have the value [v] *)
Fixpoint countQ (v : Q) (x : list Q) : nat :=
  match x with
  | [] => O
  | a :: r => ((if Qeq_bool v a then 1 else 0) + countQ v r)%nat
  end.

(** the sum of [t (t - 1) (2 t + 5)] over the groups of tied values *)
Definition tie_sum (x : list Q) : Q := np_sum (tie_terms x).

(** the tie-corrected variance as the Mann-Kendall test defines it:
    the tie term is subtracted *)
Definition standard_var_s (x : list Q) : Q :=
  ((inject_Z (len x * (len x - 1) * (2 * len x + 5)) - tie_sum x) / 18)%Q.

(** the variance when no two values are tied *)
Definition no_ties_var_s (x : list Q) : Q :=
  (inject_Z (len x * (len x - 1) * (2 * len x + 5)) / 18)%Q.

(** the multiplicity a [Counter] holds for [v] *)
Fixpoint counter_get (v : Q) (c : list (Q * nat)) : nat :=
  match c with
  | [] => O
  | (k, m) :: c' => if Qeq_bool k v then m else counter_get v c'
  end.

(** no two keys of a [Counter] are one value *)
Fixpoint keys_distinct (c : list (Q * nat)) : Prop :=
  match c with
  | [] => True
  | (k, _) :: c' =>
      existsb (fun e => Qeq_bool (fst e) k) c' = false /\ keys_distinct c'
  end.

(** [t (t - 1) (2 t + 5)] for a multiplicity [t] *)
Definition tie_term (m : nat) : Q :=
  let tp := inject_Z (Z.of_nat m) in (tp * (tp - 1) * (2 * tp + 5))%Q.

(** the sequence with the sign of every value reversed *)
Definition negate (x : list Q) : list Q := map Qopp x.

(** "increasing" and "decreasing" exchanged *)
Definition swap_trend (t : string) : string :=
  if String.eqb t "increasing" then "decreasing"
  else if String.eqb t "decreasing" then "increasing"
  else t.

(** the valid points of every column of the window: the last
    [window_size] rows, each column's NaNs dropped on its own *)
Definition window_columns (ps : RunParams) (ts : DataFrame) : list (list Q) :=
  map (fun c => drop_nan (py_tail (window_size ps) (snd c))) (columns ts).

(** the sums over the columns of the score, the variance and the
    denominator [0.5 n (n - 1)] *)
Definition pooled_score (cols : list (list Q)) : Z :=
  fold_left (fun s x => s + _mk_score x) cols 0.

Definition pooled_variance (cols : list (list Q)) : Q :=
  fold_left (fun v x => (v + _var_s x)%Q) cols 0%Q.

Definition pooled_denominator (cols : list (list Q)) : Q :=
  fold_left (fun d x => (d + tau_denominator (length x))%Q) cols 0%Q.

(** ** Sample inputs *)

(** a detector with the default threshold 0.8 and level 0.05, as a
    run with [window_size = w] and no [training_days] sets it up *)
Definition sample_detector (multi : bool) (w : nat) : MKDetector :=
  mkDetector None (8 # 10) (5 # 100) multi
             (Some (mkParams w None "both" None)) None None.

(** two columns over three days, the second with a missing first value *)
Definition mixed_length_frame : DataFrame :=
  mkDF [0; 1; 2]
       [("a", [Some 1%Q; Some 2%Q; Some 3%Q]);
        ("b", [None; Some 2%Q; Some 1%Q])].

(** the detector holding the series [d] *)
Definition with_data (self : MKDetector) (d : DataFrame) : MKDetector :=
  mkDetector (Some d) (threshold self) (alpha self) (multivariate self)
             (params self) (ts self) (MK_statistics self).

Definition valid_direction (direction : string) : bool :=
  existsb (String.eqb direction) ["up"; "down"; "both"].

(** a univariate daily series over the days [0 .. length values - 1] *)
Definition daily_series (values : list Z) : DataFrame :=
  mkDF (map Z.of_nat (seq 0 (length values)))
       [("y", map (fun v => Some (inject_Z v)) values)].

(** the series that rises from 1 to 10 and falls back to 0 *)
Definition peak_values : list Z :=
  [1; 2; 3; 4; 5; 6; 7; 8; 9; 10; 9; 8; 7; 6; 5; 4; 3; 2; 1; 0].

Definition peak_series : DataFrame := daily_series peak_values.

(** a fresh univariate detector with the default threshold and level *)
Definition default_detector (d : DataFrame) : MKDetector :=
  MKDetector_init (Some d) (8 # 10) (5 # 100) false.

(** three metrics, the second with one missing observation *)
Definition gappy_frame : DataFrame :=
  mkDF [0; 1; 2; 3]
       [("a", [Some 1%Q; Some 2%Q; Some 3%Q; Some 4%Q]);
        ("b", [Some 4%Q; None; Some 2%Q; Some 1%Q]);
        ("c", [Some 4%Q; Some 3%Q; Some 1%Q; Some 2%Q])].

Definition gappy_frame_without_b : DataFrame :=
  mkDF [0; 1; 2; 3]
       [("a", [Some 1%Q; Some 2%Q; Some 3%Q; Some 4%Q]);
        ("c", [Some 4%Q; Some 3%Q; Some 1%Q; Some 2%Q])].

(** two detectors with the same settings, whatever series and results
    they hold *)
Definition same_settings (a b : MKDetector) : Prop :=
  threshold a = threshold b /\ alpha a = alpha b
  /\ multivariate a = multivariate b /\ params a = params b.

(** a frame with no missing value: every column is as long as the
    index and holds no NaN *)
Definition complete_column (n : nat) (c : string * list (option Q)) : Prop :=
  length (snd c) = n /\ has_nan (snd c) = false.

Definition complete_frame (f : DataFrame) : Prop :=
  Forall (complete_column (nrows f)) (columns f).

(** what the run needs of the smoother: on a series that is not empty
    it gives fitted values at the timestamps of the series, or fails
    with the floating-point error that [_smoothing] catches *)
Definition ses_contract (SimpleExpSmoothing : Series -> ses_outcome) : Prop :=
  forall s, s <> [] ->
    SimpleExpSmoothing s = FloatingPointErr
    \/ exists s', SimpleExpSmoothing s = Predicted s' /\ map fst s' = map fst s.

(** ** Ranking notions *)

(** [a] may stand before [b] in a descending order with NaN last *)
Definition cell_ge (a b : option Q) : Prop :=
  match a, b with
  | Some x, Some y => (y <= x)%Q
  | _, None => True
  | None, Some _ => False
  end.

Definition descending (l : list (option Q)) : Prop := StronglySorted cell_ge l.

(** what pandas documents of [sort_values] with its default sort kind:
    the entries are reordered, by value, the missing ones last; the
    order of equal values is not part of it *)
Definition sort_contract
    (sort_values : bool -> list (nat * option Q) -> list (nat * option Q)) : Prop :=
  (forall ascending s, Permutation s (sort_values ascending s))
  /\ (forall s, descending (map snd (sort_values false s))).

(** the per-metric entries of the record of a time point: one row per
    key of its Tau dict, in the order of the keys (the order of the
    columns), but for [overall] (and [ds], the name the frame gives to
    the timestamps) *)
Definition metric_names (keys : list string) : list string :=
  filter (fun c => negb (String.eqb c "ds"))
         (filter (fun c => negb (String.eqb c "overall")) keys).

Definition metric_entries (tp : Z) (td : list (string * option Q))
    (trd : list (string * option string)) : list MetricRow :=
  map (fun m => mkRow tp m (cell m td) (cell m trd)) (metric_names (dict_keys td)).

(** the shape of the records of a multivariate run: distinct
    timestamps, and in every record a Tau dict and a trend dict over
    the same keys, [overall] among them *)
Definition multivariate_record (keys : list string) (r : StatRecord) : Prop :=
  exists td trd,
    Tau r = TauDict td /\ trend_direction r = TrendDict trd
    /\ dict_keys td = keys /\ dict_keys trd = keys.

Definition multivariate_statistics (recs : list StatRecord) : Prop :=
  NoDup (map ds recs)
  /\ exists keys, NoDup keys /\ In "overall" keys
                  /\ Forall (multivariate_record keys) recs.

(** the time point [get_top_k_metrics] looks at: the one asked for, or
    the last timestamp of the data in an anchor-date run *)
Definition looked_up_time_point (self : MKDetector) (ps : RunParams)
    (time_point tp : Z) : Prop :=
  match training_days ps with
  | None => tp = time_point
  | Some _ => exists d, data self = Some d /\ last_label (index d) = Ok tp
  end.

Definition tau_dict_of (r : StatRecord) : list (string * option Q) :=
  match Tau r with TauDict d => d | TauNum _ => [] end.

Definition trend_dict_of (r : StatRecord) : list (string * option string) :=
  match trend_direction r with TrendDict d => d | TrendStr _ => [] end.

(** three metrics over six days; the first two hold the same values *)
Definition twin_frame : DataFrame :=
  mkDF [0; 1; 2; 3; 4; 5]
       [("a", [Some 1%Q; Some 3%Q; Some 2%Q; Some 4%Q; Some 5%Q; Some 6%Q]);
        ("b", [Some 1%Q; Some 3%Q; Some 2%Q; Some 4%Q; Some 5%Q; Some 6%Q]);
        ("c", [Some 6%Q; Some 5%Q; Some 4%Q; Some 3%Q; Some 2%Q; Some 1%Q])].

(** the detector after a whole-series run over [twin_frame] with
    [window_size = 5] *)
Definition twin_run : MKDetector :=
  fst (detector newton_sqrt linear_cdf quantile_975 ses_02
         (MKDetector_init (Some twin_frame) (8 # 10) (5 # 100) true)
         5 None "both" None).

(** the detector after the same run with another direction *)
Definition twin_run_with (direction : string) : MKDetector :=
  fst (detector newton_sqrt linear_cdf quantile_975 ses_02
         (MKDetector_init (Some twin_frame) (8 # 10) (5 # 100) true)
         5 None direction None).

(** ** Notions for the further properties *)

(** the inner loop of [_mk_score] for one [k]: the signs of the later
    values against [xk], added up *)
Definition pair_signs (xk : Q) (rest : list Q) : Z :=
  fold_left (fun s xj => s + np_sign (xj - xk)) rest 0.

(** a transformation of the values that keeps their order *)
Definition order_preserving (f : Q -> Q) : Prop :=
  forall u v, (f u ?= f v)%Q = (u ?= v)%Q.

(** what the loop of [multivariate_MKtest] stores for a column with
    the valid points [x]: its Tau and its label, or [None] when the
    division fails *)
Definition tau_entry (x : list Q) : option Q :=
  match py_div (inject_Z (_mk_score x)) (tau_denominator (length x)) with
  | Ok Tau_i => Some Tau_i
  | Raise _ => None
  end.

Definition trend_entry (np_sqrt norm_cdf norm_ppf : Q -> Q) (self : MKDetector)
    (x : list Q) : option string :=
  match py_div (inject_Z (_mk_score x)) (tau_denominator (length x)) with
  | Ok Tau_i =>
      Some (snd (_p_value norm_cdf norm_ppf self
                   (_z_score np_sqrt (inject_Z (_mk_score x)) (_var_s x)) Tau_i))
  | Raise _ => None
  end.

(** two detectors that test a window the same way: the same
    threshold, level, flag and window size *)
Definition same_test_settings (a b : MKDetector) : Prop :=
  threshold a = threshold b /\ alpha a = alpha b
  /\ multivariate a = multivariate b
  /\ option_map window_size (params a) = option_map window_size (params b).

(** the label [get_MK_results] selects a record by: its trend, or its
    overall trend in a multivariate run *)
Definition record_label (self : MKDetector) (r : StatRecord) : option string :=
  if multivariate self then overall_cell r
  else match trend_direction r with
       | TrendStr t => Some t
       | TrendDict _ => None
       end.

Definition known_label (t : string) : Prop :=
  t = "decreasing" \/ t = "increasing" \/ t = "no trend".

(** [a] may stand before [b] in an ascending order with NaN last *)
Definition cell_le (a b : option Q) : Prop :=
  match a, b with
  | Some x, Some y => (x <= y)%Q
  | _, None => True
  | None, Some _ => False
  end.

Definition ascending (l : list (option Q)) : Prop := StronglySorted cell_le l.

(** [sort_values] with [ascending=True]: by value, the missing ones last *)
Definition ascending_contract
    (sort_values : bool -> list (nat * option Q) -> list (nat * option Q)) : Prop :=
  forall s, ascending (map snd (sort_values true s)).

(** * Properties *)

(** ** Comparisons *)

Lemma Qltb_lt (a b : Q) : Qltb a b = true <-> (a < b)%Q.
Proof.
  unfold Qltb. rewrite Qlt_alt.
  destruct (a ?= b)%Q; split; intro H; congruence.
Qed.

Lemma Qltb_ge (a b : Q) : Qltb a b = false <-> (b <= a)%Q.
Proof.
  split; intro H.
  - apply Qnot_lt_le. intro Hlt. apply Qltb_lt in Hlt. congruence.
  - destruct (Qltb a b) eqn:E; [|reflexivity].
    apply Qltb_lt in E. exfalso. apply (Qlt_not_le _ _ E H).
Qed.

Lemma Qltb_proper (a a' b b' : Q) :
  (a == a')%Q -> (b == b')%Q -> Qltb a b = Qltb a' b'.
Proof.
  intros Ha Hb. unfold Qltb. now rewrite Ha, Hb.
Qed.

Lemma Qeq_bool_proper (a a' b b' : Q) :
  (a == a')%Q -> (b == b')%Q -> Qeq_bool a b = Qeq_bool a' b'.
Proof.
  intros Ha Hb.
  destruct (Qeq_bool a b) eqn:E1, (Qeq_bool a' b') eqn:E2; try reflexivity.
  - apply Qeq_bool_iff in E1. apply Qeq_bool_neq in E2. exfalso. apply E2.
    now rewrite <- Ha, <- Hb.
  - apply Qeq_bool_iff in E2. apply Qeq_bool_neq in E1. exfalso. apply E1.
    now rewrite Ha, Hb.
Qed.

Lemma Qeq_bool_opp (a b : Q) : Qeq_bool (- a) (- b) = Qeq_bool a b.
Proof.
  destruct (Qeq_bool a b) eqn:E.
  - apply Qeq_bool_iff in E. apply Qeq_bool_iff. now rewrite E.
  - destruct (Qeq_bool (- a) (- b)) eqn:E'; [|reflexivity].
    apply Qeq_bool_iff in E'. apply Qeq_bool_neq in E. exfalso. apply E.
    rewrite <- (Qopp_involutive a), <- (Qopp_involutive b). now rewrite E'.
Qed.

Lemma np_sign_opp (q : Q) : np_sign (- q) = - np_sign q.
Proof.
  unfold np_sign.
  destruct (Qcompare_spec q 0) as [H|H|H];
    destruct (Qcompare_spec (- q) 0) as [H'|H'|H']; try reflexivity;
    exfalso; lra.
Qed.

(** ** The trend decision *)

Section Decision.
Variables norm_cdf norm_ppf : Q -> Q.
Variable self : MKDetector.

Lemma trend_cases (z Tau : Q) :
  snd (_p_value norm_cdf norm_ppf self z Tau) =
    if Qltb z 0 && Qgtb (Qabs z) (norm_ppf (1 - alpha self / 2)%Q)
       && Qltb Tau (-1 * threshold self)%Q then "decreasing"
    else if Qgtb z 0 && Qgtb (Qabs z) (norm_ppf (1 - alpha self / 2)%Q)
            && Qgtb Tau (threshold self) then "increasing"
    else "no trend".
Proof. reflexivity. Qed.

Lemma trend_decreasing_iff (z Tau : Q) :
  snd (_p_value norm_cdf norm_ppf self z Tau) = "decreasing" <->
  (norm_ppf (1 - alpha self / 2) < Qabs z)%Q
  /\ (z < 0)%Q /\ (Tau < - threshold self)%Q.
Proof.
  rewrite trend_cases. unfold Qgtb.
  destruct (Qltb z 0) eqn:Ez; simpl.
  - destruct (Qltb (norm_ppf _) (Qabs z)) eqn:Eh; simpl.
    + destruct (Qltb Tau _) eqn:Et.
      * apply Qltb_lt in Ez, Eh, Et. split; [intros _|reflexivity].
        split; [exact Eh|]. split; [exact Ez|]. lra.
      * apply Qltb_ge in Et. apply Qltb_lt in Ez.
        assert (Qltb 0 z = false) as -> by (apply Qltb_ge; lra). simpl.
        split; [discriminate|]. intros (_ & _ & H). lra.
    + apply Qltb_ge in Eh.
      rewrite andb_false_r. simpl.
      split; [discriminate|]. intros (H & _). lra.
  - apply Qltb_ge in Ez.
    split.
    + destruct (Qltb 0 z && _ && _); discriminate.
    + intros (_ & H & _). lra.
Qed.

Lemma trend_increasing_iff (z Tau : Q) :
  snd (_p_value norm_cdf norm_ppf self z Tau) = "increasing" <->
  (norm_ppf (1 - alpha self / 2) < Qabs z)%Q
  /\ (0 < z)%Q /\ (threshold self < Tau)%Q.
Proof.
  rewrite trend_cases. unfold Qgtb.
  destruct (Qltb z 0 && _ && _) eqn:Ed.
  - apply andb_prop in Ed as [Ed _]. apply andb_prop in Ed as [Ed _].
    apply Qltb_lt in Ed. split; [discriminate|]. intros (_ & H & _). lra.
  - destruct (Qltb 0 z) eqn:Ez; simpl.
    + destruct (Qltb (norm_ppf _) (Qabs z)) eqn:Eh; simpl.
      * destruct (Qltb (threshold self) Tau) eqn:Et.
        -- apply Qltb_lt in Ez, Eh, Et. tauto.
        -- apply Qltb_ge in Et. split; [discriminate|]. intros (_ & _ & H). lra.
      * apply Qltb_ge in Eh. split; [discriminate|]. intros (H & _). lra.
    + apply Qltb_ge in Ez. split; [discriminate|]. intros (_ & H & _). lra.
Qed.

Lemma trend_trichotomy (z Tau : Q) :
  snd (_p_value norm_cdf norm_ppf self z Tau) = "decreasing"
  \/ snd (_p_value norm_cdf norm_ppf self z Tau) = "increasing"
  \/ snd (_p_value norm_cdf norm_ppf self z Tau) = "no trend".
Proof.
  rewrite trend_cases.
  destruct (_ && _ && _); [now left|].
  destruct (_ && _ && _); [now right; left|now right; right].
Qed.
End Decision.

(** C3: the trend is "decreasing" exactly when the z-score is significant
    ([|z| > ppf(1 - alpha/2)]), negative, and Tau is below [-threshold];
    "increasing" exactly when it is significant, positive, and Tau is
    above [threshold]; "no trend" in every other case, in particular for
    a significant z-score with [|Tau| <= threshold]. *)
Theorem trend_decision (norm_cdf norm_ppf : Q -> Q) (self : MKDetector) (z Tau : Q) :
  let trend := snd (_p_value norm_cdf norm_ppf self z Tau) in
  let significant := (norm_ppf (1 - alpha self / 2) < Qabs z)%Q in
  let decreasing := significant /\ (z < 0)%Q /\ (Tau < - threshold self)%Q in
  let increasing := significant /\ (0 < z)%Q /\ (threshold self < Tau)%Q in
  (trend = "decreasing" <-> decreasing)
  /\ (trend = "increasing" <-> increasing)
  /\ (trend = "no trend" <-> ~ decreasing /\ ~ increasing)
  /\ (significant /\ (Qabs Tau <= threshold self)%Q -> trend = "no trend").
Proof.
  cbv zeta.
  pose proof (trend_decreasing_iff norm_cdf norm_ppf self z Tau) as Hd.
  pose proof (trend_increasing_iff norm_cdf norm_ppf self z Tau) as Hi.
  pose proof (trend_trichotomy norm_cdf norm_ppf self z Tau) as Ht.
  cbv zeta in Hd, Hi, Ht.
  set (trend := snd (_p_value norm_cdf norm_ppf self z Tau)) in *.
  set (decreasing := _ /\ (z < 0)%Q /\ _) in *.
  set (increasing := _ /\ (0 < z)%Q /\ _) in *.
  assert (Hno : trend = "no trend" <-> ~ decreasing /\ ~ increasing).
  { split.
    - intro E. split; intro H.
      + apply Hd in H. rewrite E in H. discriminate.
      + apply Hi in H. rewrite E in H. discriminate.
    - intros [Hnd Hni]. destruct Ht as [E|[E|E]]; [| |exact E].
      + exfalso. apply Hnd, Hd, E.
      + exfalso. apply Hni, Hi, E. }
  split; [exact Hd|]. split; [exact Hi|]. split; [exact Hno|].
  intros [_ Habs]. apply Hno.
  apply Qabs_Qle_condition in Habs.
  subst decreasing increasing.
  split; intros (_ & _ & H); lra.
Qed.

Lemma trend_decision_witness :
  snd (_p_value linear_cdf quantile_975 (sample_detector false 20) 3 (1 # 2))
  = "no trend".
Proof.
  apply (proj2 (proj2 (proj2 (trend_decision linear_cdf quantile_975
                                 (sample_detector false 20) 3 (1 # 2))))).
  split.
  - reflexivity.
  - cbn. unfold Qle. cbn. lia.
Defined.

(** ** Insertion sort *)

Section SortFacts.
Context {A : Type} (leb : A -> A -> bool).
Hypothesis leb_total : forall a b, leb a b = false -> leb b a = true.
Hypothesis leb_trans :
  forall a b c, leb a b = true -> leb b c = true -> leb a c = true.

Lemma insert_sorted_perm (a : A) (l : list A) :
  Permutation (a :: l) (insert_sorted leb a l).
Proof.
  induction l as [|b l IH]; simpl.
  - apply Permutation_refl.
  - destruct (leb a b).
    + apply Permutation_refl.
    + eapply perm_trans; [apply perm_swap|]. now apply perm_skip.
Qed.

Lemma sort_perm (l : list A) : Permutation l (sort leb l).
Proof.
  induction l as [|a l IH]; simpl.
  - apply perm_nil.
  - eapply perm_trans; [apply perm_skip, IH|]. apply insert_sorted_perm.
Qed.

Lemma sort_length (l : list A) : length (sort leb l) = length l.
Proof. symmetry. apply Permutation_length, sort_perm. Qed.

Lemma insert_sorted_sorted (a : A) (l : list A) :
  StronglySorted (fun a b => leb a b = true) l ->
  StronglySorted (fun a b => leb a b = true) (insert_sorted leb a l).
Proof.
  induction 1 as [|b l Hs IH Hb]; simpl.
  - constructor; constructor.
  - destruct (leb a b) eqn:E.
    + constructor; [constructor; assumption|].
      constructor; [exact E|].
      eapply Forall_impl; [|exact Hb]. intros c Hc. eapply leb_trans; eassumption.
    + constructor; [exact IH|].
      eapply Permutation_Forall; [apply insert_sorted_perm|].
      constructor; [apply leb_total, E|exact Hb].
Qed.

Lemma sort_sorted (l : list A) :
  StronglySorted (fun a b => leb a b = true) (sort leb l).
Proof.
  induction l as [|a l IH]; simpl.
  - constructor.
  - apply insert_sorted_sorted, IH.
Qed.
End SortFacts.

Lemma Qle_bool_total (a b : Q) : Qle_bool a b = false -> Qle_bool b a = true.
Proof.
  intro H. apply Qle_bool_iff.
  destruct (Qlt_le_dec a b) as [Hlt|Hle]; [|exact Hle].
  exfalso. apply Qlt_le_weak in Hlt. apply Qle_bool_iff in Hlt. congruence.
Qed.

Lemma Qle_bool_trans (a b c : Q) :
  Qle_bool a b = true -> Qle_bool b c = true -> Qle_bool a c = true.
Proof.
  rewrite !Qle_bool_iff. apply Qle_trans.
Qed.

(** ** Ties, distinct values and multiplicities *)

Lemma countQ_perm (v : Q) (l l' : list Q) :
  Permutation l l' -> countQ v l = countQ v l'.
Proof.
  induction 1; simpl; lia.
Qed.

Lemma countQ_zero (v : Q) (x : list Q) :
  existsb (Qeq_bool v) x = false <-> countQ v x = O.
Proof.
  induction x as [|a r IH]; simpl; [tauto|].
  destruct (Qeq_bool v a); simpl.
  - split; [discriminate|lia].
  - exact IH.
Qed.

Lemma countQ_proper (v v' : Q) (x : list Q) :
  (v == v')%Q -> countQ v x = countQ v' x.
Proof.
  intro E. induction x as [|a r IH]; simpl; [reflexivity|].
  rewrite IH. now rewrite (Qeq_bool_proper v v' a a E (Qeq_refl a)).
Qed.

Lemma has_ties_false_iff (x : list Q) :
  has_ties x = false <-> forall v, (countQ v x <= 1)%nat.
Proof.
  induction x as [|a r IH]; simpl.
  - split; [intros _ v; lia|reflexivity].
  - rewrite orb_false_iff, IH, countQ_zero. split.
    + intros [Ha Hr] v. specialize (Hr v).
      destruct (Qeq_bool v a) eqn:E; [|lia].
      apply Qeq_bool_iff in E. rewrite (countQ_proper v a r E). lia.
    + intro H. split.
      * specialize (H a). rewrite Qeq_bool_refl in H. lia.
      * intro v. specialize (H v). lia.
Qed.

Lemma has_ties_true_iff (x : list Q) :
  has_ties x = true <-> exists v, (2 <= countQ v x)%nat.
Proof.
  split.
  - intro H. induction x as [|a r IH]; simpl in *; [discriminate|].
    apply orb_prop in H as [H|H].
    + exists a. rewrite Qeq_bool_refl.
      destruct (countQ a r) eqn:E; [|lia].
      apply countQ_zero in E. congruence.
    + destruct (IH H) as [v Hv]. exists v. lia.
  - intros [v Hv]. destruct (has_ties x) eqn:E; [reflexivity|].
    rewrite has_ties_false_iff in E. specialize (E v). lia.
Qed.

Lemma has_ties_perm (l l' : list Q) :
  Permutation l l' -> has_ties l = has_ties l'.
Proof.
  intro HP.
  destruct (has_ties l) eqn:E; symmetry.
  - apply has_ties_true_iff in E as [v Hv]. apply has_ties_true_iff.
    exists v. now rewrite <- (countQ_perm v l l' HP).
  - rewrite has_ties_false_iff in E. apply has_ties_false_iff.
    intro v. now rewrite <- (countQ_perm v l l' HP).
Qed.

Lemma dedup_adjacent_length (l : list Q) :
  (length (dedup_adjacent Qeq_bool l) <= length l)%nat.
Proof.
  induction l as [|a l IH]; [apply Nat.le_refl|].
  cbn [dedup_adjacent]. destruct l as [|b r]; [apply Nat.le_refl|].
  destruct (Qeq_bool a b); simpl in *; lia.
Qed.

Lemma dedup_sorted_length (l : list Q) :
  StronglySorted (fun a b => Qle_bool a b = true) l ->
  (length (dedup_adjacent Qeq_bool l) =? length l)%nat = negb (has_ties l).
Proof.
  induction 1 as [|a l Hs IH Ha]; [reflexivity|].
  cbn [dedup_adjacent has_ties]. destruct l as [|b r]; [reflexivity|].
  destruct (Qeq_bool a b) eqn:E.
  - cbn [existsb]. rewrite E. simpl.
    pose proof (dedup_adjacent_length (b :: r)) as Hle. simpl in Hle.
    apply Nat.eqb_neq. simpl. lia.
  - assert (Hex : existsb (Qeq_bool a) (b :: r) = false).
    { apply not_true_is_false. intro Hex.
      apply existsb_exists in Hex as (c & Hc & Hac).
      apply Qeq_bool_iff in Hac. apply Qeq_bool_neq in E.
      inversion Ha as [|? ? Hab Har]; subst.
      apply Qle_bool_iff in Hab.
      inversion Hs as [|? ? _ Hbr]; subst.
      destruct Hc as [<-|Hc]; [now apply E|].
      rewrite Forall_forall in Hbr. specialize (Hbr c Hc).
      apply Qle_bool_iff in Hbr. apply E. lra. }
    rewrite Hex. simpl orb.
    change (length (a :: dedup_adjacent Qeq_bool (b :: r)))
      with (S (length (dedup_adjacent Qeq_bool (b :: r)))).
    change (length (a :: b :: r)) with (S (length (b :: r))).
    exact IH.
Qed.

(** the test [n == len(unique_x)] of [_var_s] holds exactly when no
    value is tied *)
Lemma unique_length_no_ties (x : list Q) :
  (length x =? length (np_unique x))%nat = negb (has_ties x).
Proof.
  unfold np_unique.
  rewrite Nat.eqb_sym.
  rewrite <- (sort_length Qle_bool x).
  rewrite dedup_sorted_length.
  - f_equal. symmetry. apply has_ties_perm, sort_perm.
  - apply sort_sorted; [exact Qle_bool_total|exact Qle_bool_trans].
Qed.

(** ** What [Counter] holds *)

Lemma counter_get_incr (v u : Q) (c : list (Q * nat)) :
  counter_get v (counter_incr u c)
  = ((if Qeq_bool u v then 1 else 0) + counter_get v c)%nat.
Proof.
  induction c as [|[k m] c IH]; simpl.
  - destruct (Qeq_bool u v); reflexivity.
  - destruct (Qeq_bool k u) eqn:Eku; simpl.
    + apply Qeq_bool_iff in Eku.
      rewrite (Qeq_bool_proper k u v v Eku (Qeq_refl v)).
      destruct (Qeq_bool u v); lia.
    + destruct (Qeq_bool k v) eqn:Ekv; [|exact IH].
      destruct (Qeq_bool u v) eqn:Euv; [|reflexivity].
      apply Qeq_bool_iff in Ekv, Euv. apply Qeq_bool_neq in Eku.
      exfalso. apply Eku. now rewrite Ekv, Euv.
Qed.

Lemma counter_get_fold (v : Q) (x : list Q) (acc : list (Q * nat)) :
  counter_get v (fold_left (fun c u => counter_incr u c) x acc)
  = (countQ v x + counter_get v acc)%nat.
Proof.
  revert acc. induction x as [|a r IH]; intro acc; simpl; [reflexivity|].
  rewrite IH, counter_get_incr, (Qeq_bool_comm a v). lia.
Qed.

Lemma counter_get_Counter (v : Q) (x : list Q) :
  counter_get v (Counter x) = countQ v x.
Proof.
  unfold Counter. rewrite counter_get_fold. simpl. lia.
Qed.

Lemma counter_incr_keys (u k : Q) (c : list (Q * nat)) :
  existsb (fun e => Qeq_bool (fst e) k) (counter_incr u c)
  = existsb (fun e => Qeq_bool (fst e) k) c
    || (Qeq_bool u k && negb (existsb (fun e => Qeq_bool (fst e) u) c)).
Proof.
  induction c as [|[k' m] c IH]; simpl.
  - now rewrite orb_false_r, andb_true_r.
  - destruct (Qeq_bool k' u) eqn:E; simpl.
    + now rewrite andb_false_r, orb_false_r.
    + rewrite IH. now rewrite orb_assoc.
Qed.

Lemma counter_incr_distinct (u : Q) (c : list (Q * nat)) :
  keys_distinct c -> keys_distinct (counter_incr u c).
Proof.
  induction c as [|[k m] c IH]; simpl.
  - intros _. split; [reflexivity|exact I].
  - intros [Hk Hc]. destruct (Qeq_bool k u) eqn:E; simpl.
    + split; assumption.
    + split; [|apply IH, Hc].
      rewrite counter_incr_keys, Hk. simpl.
      rewrite Qeq_bool_comm, E. reflexivity.
Qed.

Lemma Counter_distinct (x : list Q) : keys_distinct (Counter x).
Proof.
  unfold Counter.
  assert (H : forall acc, keys_distinct acc ->
              keys_distinct (fold_left (fun c u => counter_incr u c) x acc)).
  { induction x as [|a r IH]; intros acc Hacc; simpl; [exact Hacc|].
    apply IH, counter_incr_distinct, Hacc. }
  apply H. exact I.
Qed.

Lemma counter_get_entry (k : Q) (m : nat) (c : list (Q * nat)) :
  keys_distinct c -> In (k, m) c -> counter_get k c = m.
Proof.
  induction c as [|[k' m'] c IH]; simpl; [tauto|].
  intros [Hk Hc] [E|Hin].
  - inversion E; subst. now rewrite Qeq_bool_refl.
  - destruct (Qeq_bool k' k) eqn:E; [|apply IH; assumption].
    exfalso.
    assert (Hex : existsb (fun e => Qeq_bool (fst e) k') c = true).
    { apply existsb_exists. exists (k, m). split; [exact Hin|].
      simpl. now rewrite Qeq_bool_comm. }
    congruence.
Qed.

Lemma counter_get_in (v : Q) (c : list (Q * nat)) :
  (0 < counter_get v c)%nat -> exists k, In (k, counter_get v c) c.
Proof.
  induction c as [|[k m] c IH]; simpl; [lia|].
  destruct (Qeq_bool k v).
  - intros _. exists k. now left.
  - intro H. destruct (IH H) as [k' Hk']. exists k'. now right.
Qed.

(** ** The tie term *)

Lemma tie_term_Z (m : nat) :
  (tie_term m ==
   inject_Z (Z.of_nat m * (Z.of_nat m - 1) * (2 * Z.of_nat m + 5)))%Q.
Proof.
  unfold tie_term. cbv zeta.
  rewrite !inject_Z_mult, !inject_Z_plus. unfold Z.sub.
  rewrite inject_Z_plus, inject_Z_mult. reflexivity.
Qed.

Lemma tie_term_nonneg (m : nat) : (0 <= tie_term m)%Q.
Proof.
  rewrite tie_term_Z. change 0%Q with (inject_Z 0). rewrite <- Zle_Qle.
  destruct m as [|m]; [simpl; lia|].
  apply Z.mul_nonneg_nonneg; [apply Z.mul_nonneg_nonneg|]; lia.
Qed.

Lemma tie_term_pos (m : nat) : (2 <= m)%nat -> (0 < tie_term m)%Q.
Proof.
  intro H. rewrite tie_term_Z. change 0%Q with (inject_Z 0).
  rewrite <- Zlt_Qlt.
  apply Z.mul_pos_pos; [apply Z.mul_pos_pos|]; lia.
Qed.

Lemma tie_term_zero (m : nat) : (m <= 1)%nat -> (tie_term m == 0)%Q.
Proof.
  intro H. rewrite tie_term_Z.
  destruct m as [|[|m]]; [reflexivity|reflexivity|lia].
Qed.

Lemma np_sum_acc (l : list Q) (a : Q) :
  (fold_left Qplus l a == a + np_sum l)%Q.
Proof.
  unfold np_sum. revert a. induction l as [|x l IH]; intro a; simpl.
  - ring.
  - rewrite IH, (IH (0 + x)%Q). ring.
Qed.

Lemma np_sum_cons (x : Q) (l : list Q) : (np_sum (x :: l) == x + np_sum l)%Q.
Proof.
  unfold np_sum at 1. simpl. rewrite np_sum_acc. ring.
Qed.

Lemma tie_terms_map (x : list Q) :
  tie_terms x = map (fun kv => tie_term (snd kv)) (Counter x).
Proof. reflexivity. Qed.

Lemma sum_terms_nonneg (c : list (Q * nat)) :
  (0 <= np_sum (map (fun kv => tie_term (snd kv)) c))%Q.
Proof.
  induction c as [|[k m] c IH]; simpl map.
  - unfold np_sum. simpl. lra.
  - rewrite np_sum_cons. pose proof (tie_term_nonneg m). simpl. lra.
Qed.

Lemma sum_terms_pos (c : list (Q * nat)) (k : Q) (m : nat) :
  In (k, m) c -> (2 <= m)%nat ->
  (0 < np_sum (map (fun kv => tie_term (snd kv)) c))%Q.
Proof.
  induction c as [|[k' m'] c IH]; simpl map; [intros []|].
  intros [E|Hin] Hm; rewrite np_sum_cons; simpl snd.
  - inversion E; subst. pose proof (tie_term_pos m Hm).
    pose proof (sum_terms_nonneg c). lra.
  - pose proof (tie_term_nonneg m'). specialize (IH Hin Hm). lra.
Qed.

Lemma sum_terms_zero (c : list (Q * nat)) :
  (forall k m, In (k, m) c -> (m <= 1)%nat) ->
  (np_sum (map (fun kv => tie_term (snd kv)) c) == 0)%Q.
Proof.
  induction c as [|[k m] c IH]; intro H; simpl map.
  - reflexivity.
  - rewrite np_sum_cons. simpl snd.
    rewrite (tie_term_zero m) by (apply (H k); now left).
    rewrite IH; [ring|]. intros k' m' Hin. apply (H k'). now right.
Qed.

Lemma tie_sum_pos (x : list Q) : has_ties x = true -> (0 < tie_sum x)%Q.
Proof.
  intro H. apply has_ties_true_iff in H as [v Hv].
  rewrite <- counter_get_Counter in Hv.
  destruct (counter_get_in v (Counter x)) as [k Hk]; [lia|].
  unfold tie_sum. rewrite tie_terms_map.
  eapply sum_terms_pos; eassumption.
Qed.

Lemma tie_sum_zero (x : list Q) : has_ties x = false -> (tie_sum x == 0)%Q.
Proof.
  intro H. rewrite has_ties_false_iff in H.
  unfold tie_sum. rewrite tie_terms_map.
  apply sum_terms_zero. intros k m Hin.
  rewrite <- (counter_get_entry k m (Counter x) (Counter_distinct x) Hin).
  rewrite counter_get_Counter. apply H.
Qed.

(** the variance [_var_s] computes, whichever branch it takes *)
Lemma var_s_formula (x : list Q) :
  (_var_s x ==
   (inject_Z (len x * (len x - 1) * (2 * len x + 5)) + tie_sum x) / 18)%Q.
Proof.
  unfold _var_s. cbv zeta. rewrite unique_length_no_ties.
  destruct (has_ties x) eqn:E; simpl negb; cbv iota.
  - reflexivity.
  - rewrite (tie_sum_zero x E). field.
Qed.

(** the variance of at least two points is positive, so that the root
    [_z_score] divides by is that of a positive number *)
Lemma var_s_pos (x : list Q) : (2 <= length x)%nat -> (0 < _var_s x)%Q.
Proof.
  intro H. rewrite var_s_formula.
  assert (Hn : (0 < inject_Z (len x * (len x - 1) * (2 * len x + 5)))%Q).
  { change 0%Q with (inject_Z 0). rewrite <- Zlt_Qlt. unfold len.
    apply Z.mul_pos_pos; [apply Z.mul_pos_pos|]; lia. }
  assert (Ht : (0 <= tie_sum x)%Q).
  { unfold tie_sum. rewrite tie_terms_map. apply sum_terms_nonneg. }
  apply Qlt_shift_div_l; [reflexivity|]. lra.
Qed.

(** C1: when some value of [x] is tied, [_var_s] adds the tie term
    [Sum t(t-1)(2t+5)] where the tie-corrected Mann-Kendall variance
    subtracts it, so it is above that variance by twice the (positive)
    tie term over 18 and never equals it; when all values are distinct
    the tie term is 0 and both agree with [n(n-1)(2n+5)/18]. *)
Theorem var_s_tie_correction (x : list Q) :
  (has_ties x = true ->
   (_var_s x == standard_var_s x + 2 * tie_sum x / 18)%Q
   /\ (0 < tie_sum x)%Q
   /\ ~ (_var_s x == standard_var_s x)%Q)
  /\ (has_ties x = false ->
      (tie_sum x == 0)%Q
      /\ (_var_s x == no_ties_var_s x)%Q
      /\ (standard_var_s x == no_ties_var_s x)%Q).
Proof.
  pose proof (var_s_formula x) as Hv.
  split; intro H.
  - pose proof (tie_sum_pos x H) as Hp.
    assert (E : (_var_s x == standard_var_s x + 2 * tie_sum x / 18)%Q).
    { rewrite Hv. unfold standard_var_s. field. }
    split; [exact E|]. split; [exact Hp|].
    intro E'. rewrite E' in E.
    assert (E2 : (2 * tie_sum x / 18 == tie_sum x * (1 # 9))%Q) by field.
    rewrite E2 in E. lra.
  - pose proof (tie_sum_zero x H) as Hz.
    split; [exact Hz|]. unfold standard_var_s, no_ties_var_s.
    split; [rewrite Hv|]; rewrite Hz; field.
Qed.

Lemma var_s_tie_correction_witness :
  (_var_s [1; 1; 2] == 14 # 3)%Q
  /\ (standard_var_s [1; 1; 2] == 8 # 3)%Q
  /\ ~ (_var_s [1; 1; 2] == standard_var_s [1; 1; 2])%Q.
Proof.
  split; [reflexivity|]. split; [reflexivity|].
  exact (proj2 (proj2 (proj1 (var_s_tie_correction [1; 1; 2]%Q) eq_refl))).
Defined.

(** ** Reversing the sign of every value *)

Lemma np_sign_proper (a b : Q) : (a == b)%Q -> np_sign a = np_sign b.
Proof.
  intro E. unfold np_sign. now rewrite E.
Qed.

Lemma mk_score_inner_negate (xk : Q) (rest : list Q) (s : Z) :
  fold_left (fun s xj => s + np_sign (xj - - xk)) (negate rest) (- s)
  = - fold_left (fun s xj => s + np_sign (xj - xk)) rest s.
Proof.
  revert s. induction rest as [|xj rest IH]; intro s; simpl; [reflexivity|].
  rewrite <- IH. f_equal.
  rewrite (np_sign_proper (- xj - - xk) (- (xj - xk))) by ring.
  rewrite np_sign_opp. lia.
Qed.

Lemma mk_score_from_negate (x : list Q) (s : Z) :
  mk_score_from (- s) (negate x) = - mk_score_from s x.
Proof.
  revert s. induction x as [|xk rest IH]; intro s; simpl; [reflexivity|].
  fold (negate rest). now rewrite mk_score_inner_negate, IH.
Qed.

Lemma mk_score_negate (x : list Q) : _mk_score (negate x) = - _mk_score x.
Proof.
  unfold _mk_score. now rewrite <- mk_score_from_negate.
Qed.

Lemma has_ties_negate (x : list Q) : has_ties (negate x) = has_ties x.
Proof.
  induction x as [|a r IH]; simpl; [reflexivity|].
  fold (negate r). rewrite IH. f_equal.
  clear IH. induction r as [|b r IH]; simpl; [reflexivity|].
  now rewrite Qeq_bool_opp, IH.
Qed.

Lemma counter_incr_negate (v : Q) (c : list (Q * nat)) :
  counter_incr (- v) (map (fun kv => (- fst kv, snd kv)%Q) c)
  = map (fun kv => (- fst kv, snd kv)%Q) (counter_incr v c).
Proof.
  induction c as [|[k m] c IH]; simpl; [reflexivity|].
  rewrite Qeq_bool_opp. destruct (Qeq_bool k v); simpl; [reflexivity|].
  now rewrite IH.
Qed.

Lemma Counter_negate (x : list Q) :
  Counter (negate x) = map (fun kv => (- fst kv, snd kv)%Q) (Counter x).
Proof.
  unfold Counter.
  change (@nil (Q * nat)) with (map (fun kv : Q * nat => (- fst kv, snd kv)%Q) []) at 1.
  generalize (@nil (Q * nat)) as acc.
  induction x as [|a r IH]; intro acc; simpl; [reflexivity|].
  fold (negate r). now rewrite counter_incr_negate, IH.
Qed.

Lemma tie_terms_negate (x : list Q) : tie_terms (negate x) = tie_terms x.
Proof.
  unfold tie_terms. rewrite Counter_negate, map_map. reflexivity.
Qed.

Lemma var_s_negate (x : list Q) : _var_s (negate x) = _var_s x.
Proof.
  unfold _var_s. cbv zeta.
  rewrite !unique_length_no_ties, has_ties_negate, tie_terms_negate.
  unfold len, negate. now rewrite length_map.
Qed.

Lemma z_score_opp (np_sqrt : Q -> Q) (s v : Q) :
  (_z_score np_sqrt (- s) v == - _z_score np_sqrt s v)%Q.
Proof.
  unfold _z_score, Qgtb.
  destruct (Qltb 0 s) eqn:Ep.
  - apply Qltb_lt in Ep.
    assert (Qltb 0 (- s) = false) as -> by (apply Qltb_ge; lra).
    assert (Qeq_bool (- s) 0 = false) as ->.
    { apply not_true_is_false. intro H. apply Qeq_bool_iff in H. lra. }
    unfold Qdiv. ring.
  - apply Qltb_ge in Ep.
    destruct (Qeq_bool s 0) eqn:Ez.
    + apply Qeq_bool_iff in Ez.
      assert (Qltb 0 (- s) = false) as -> by (apply Qltb_ge; lra).
      assert (Qeq_bool (- s) 0 = true) as -> by (apply Qeq_bool_iff; lra).
      ring.
    + apply Qeq_bool_neq in Ez.
      assert (Qltb 0 (- s) = true) as -> by (apply Qltb_lt; lra).
      unfold Qdiv. ring.
Qed.

Lemma tau_denominator_pos (n : nat) : (2 <= n)%nat -> (0 < tau_denominator n)%Q.
Proof.
  intro H. unfold tau_denominator.
  apply Qmult_lt_0_compat; [apply Qmult_lt_0_compat|].
  - reflexivity.
  - change 0%Q with (inject_Z 0). rewrite <- Zlt_Qlt. lia.
  - change 0%Q with (inject_Z 0). rewrite <- Zlt_Qlt. lia.
Qed.

Lemma tau_denominator_zero (n : nat) : (n < 2)%nat -> (tau_denominator n == 0)%Q.
Proof.
  intro H. destruct n as [|[|n]]; [reflexivity|reflexivity|lia].
Qed.

Lemma py_div_ok (a b : Q) : ~ (b == 0)%Q -> py_div a b = Ok (a / b)%Q.
Proof.
  intro H. unfold py_div.
  destruct (Qeq_bool b 0) eqn:E; [|reflexivity].
  apply Qeq_bool_iff in E. contradiction.
Qed.

Lemma py_div_zero (a b : Q) : (b == 0)%Q -> py_div a b = Raise ZeroDivisionError.
Proof.
  intro H. unfold py_div. apply Qeq_bool_iff in H. now rewrite H.
Qed.

Section Swap.
Variables norm_cdf norm_ppf : Q -> Q.
Variable self : MKDetector.

Lemma trend_swap (z z' Tau Tau' : Q) :
  (z' == - z)%Q -> (Tau' == - Tau)%Q ->
  snd (_p_value norm_cdf norm_ppf self z' Tau')
  = swap_trend (snd (_p_value norm_cdf norm_ppf self z Tau)).
Proof.
  intros Ez Et.
  assert (Ea : (Qabs z' == Qabs z)%Q) by (rewrite Ez; apply Qabs_opp).
  pose proof (trend_decreasing_iff norm_cdf norm_ppf self z Tau) as Hd.
  pose proof (trend_increasing_iff norm_cdf norm_ppf self z Tau) as Hi.
  pose proof (trend_decreasing_iff norm_cdf norm_ppf self z' Tau') as Hd'.
  pose proof (trend_increasing_iff norm_cdf norm_ppf self z' Tau') as Hi'.
  pose proof (trend_trichotomy norm_cdf norm_ppf self z Tau) as Ht.
  pose proof (trend_trichotomy norm_cdf norm_ppf self z' Tau') as Ht'.
  cbv beta zeta in *. rewrite Ea in Hd', Hi'.
  destruct Ht as [E|[E|E]].
  - rewrite E. apply Hd in E as (Hs & Hz & HT).
    apply Hi'. split; [exact Hs|]. split; lra.
  - rewrite E. apply Hi in E as (Hs & Hz & HT).
    apply Hd'. split; [exact Hs|]. split; lra.
  - rewrite E. change (swap_trend "no trend") with "no trend".
    destruct Ht' as [E'|[E'|E']]; [| |exact E'].
    + apply Hd' in E' as (Hs & Hz & HT).
      assert (Hinc : snd (_p_value norm_cdf norm_ppf self z Tau) = "increasing").
      { apply Hi. split; [exact Hs|]. split; lra. }
      rewrite E in Hinc. discriminate.
    + apply Hi' in E' as (Hs & Hz & HT).
      assert (Hdec : snd (_p_value norm_cdf norm_ppf self z Tau) = "decreasing").
      { apply Hd. split; [exact Hs|]. split; lra. }
      rewrite E in Hdec. discriminate.
Qed.
End Swap.

(** C8: for a sequence [x] of at least two points, reversing the sign
    of every value negates the score and Kendall's Tau, leaves the
    variance, [|z|] and the significance test unchanged, and exchanges
    the labels "increasing" and "decreasing" ("no trend" stays). *)
Theorem negation_symmetry (np_sqrt norm_cdf norm_ppf : Q -> Q)
    (self : MKDetector) (x : list Q) :
  (2 <= length x)%nat ->
  let z := _z_score np_sqrt (inject_Z (_mk_score x)) (_var_s x) in
  let z' := _z_score np_sqrt (inject_Z (_mk_score (negate x))) (_var_s (negate x)) in
  let crit := norm_ppf (1 - alpha self / 2)%Q in
  _mk_score (negate x) = - _mk_score x
  /\ _var_s (negate x) = _var_s x
  /\ (Qabs z' == Qabs z)%Q
  /\ Qgtb (Qabs z') crit = Qgtb (Qabs z) crit
  /\ exists Tau Tau',
      py_div (inject_Z (_mk_score x)) (tau_denominator (length x)) = Ok Tau
      /\ py_div (inject_Z (_mk_score (negate x)))
                (tau_denominator (length (negate x))) = Ok Tau'
      /\ (Tau' == - Tau)%Q
      /\ snd (_p_value norm_cdf norm_ppf self z' Tau')
         = swap_trend (snd (_p_value norm_cdf norm_ppf self z Tau)).
Proof.
  intros Hn z z' crit.
  assert (Ez : (z' == - z)%Q).
  { subst z z'. rewrite var_s_negate, mk_score_negate, inject_Z_opp.
    apply z_score_opp. }
  assert (Ea : (Qabs z' == Qabs z)%Q) by (rewrite Ez; apply Qabs_opp).
  split; [apply mk_score_negate|].
  split; [apply var_s_negate|].
  split; [exact Ea|].
  split; [unfold Qgtb; apply Qltb_proper; [reflexivity|exact Ea]|].
  pose proof (tau_denominator_pos (length x) Hn) as Hpos.
  assert (Hne : ~ (tau_denominator (length x) == 0)%Q) by lra.
  exists (inject_Z (_mk_score x) / tau_denominator (length x))%Q,
         (inject_Z (_mk_score (negate x)) / tau_denominator (length x))%Q.
  assert (Et : (inject_Z (_mk_score (negate x)) / tau_denominator (length x)
                == - (inject_Z (_mk_score x) / tau_denominator (length x)))%Q).
  { rewrite mk_score_negate, inject_Z_opp. unfold Qdiv. ring. }
  split; [apply py_div_ok, Hne|].
  split; [unfold negate; rewrite length_map; apply py_div_ok, Hne|].
  split; [exact Et|].
  apply trend_swap; assumption.
Qed.

Lemma negation_symmetry_witness :
  _mk_score (negate [1; 3; 2; 4]%Q) = - _mk_score [1; 3; 2; 4]%Q
  /\ _var_s (negate [1; 3; 2; 4]%Q) = _var_s [1; 3; 2; 4]%Q.
Proof.
  destruct (negation_symmetry newton_sqrt linear_cdf quantile_975
              (sample_detector false 4) [1; 3; 2; 4]%Q)
    as (Hs & Hv & _).
  - cbn. lia.
  - split; [exact Hs|exact Hv].
Defined.

(** ** Windows with too few valid points *)

Lemma last_label_app (pre : list Z) (t : Z) : last_label (pre ++ [t]) = Ok t.
Proof.
  unfold last_label. now rewrite rev_app_distr.
Qed.

Lemma last_label_ok (idx : list Z) : idx <> [] -> exists t, last_label idx = Ok t.
Proof.
  intro H. destruct (exists_last H) as (pre & t & ->).
  exists t. apply last_label_app.
Qed.

(** C4, as stated, fails: on a window of one point [MKtest] divides by
    the zero denominator and raises ZeroDivisionError; the window is not
    skipped (the run of a two-point series with [window_size = 1] stops
    there) and the error is not a dedicated one. *)
Lemma MKtest_division_by_zero_counterexample :
  MKtest newton_sqrt linear_cdf quantile_975 (sample_detector false 1)
         (daily_series [5])
  = Raise ZeroDivisionError
  /\ snd (detector newton_sqrt linear_cdf quantile_975 ses_02
            (default_detector (daily_series [5; 7])) 1 None "both" None)
     = Raise ZeroDivisionError.
Proof.
  split; vm_compute; reflexivity.
Qed.

(** C4 (as the code has it): on a one-column window with fewer than two
    valid points [MKtest] returns no statistics: it evaluates
    [S / (0.5 n (n - 1))] with a zero denominator and fails with
    Python's ZeroDivisionError (IndexError when the frame has no row to
    take the anchor date from). *)
Theorem MKtest_insufficient_data (np_sqrt norm_cdf norm_ppf : Q -> Q)
    (self : MKDetector) (ps : RunParams) (ts : DataFrame)
    (name : string) (col : list (option Q)) :
  params self = Some ps ->
  columns ts = [(name, col)] ->
  (length (drop_nan (py_tail (window_size ps) col)) < 2)%nat ->
  MKtest np_sqrt norm_cdf norm_ppf self ts
  = Raise (match index ts with [] => IndexError | _ => ZeroDivisionError end).
Proof.
  intros Hps Hcols Hn.
  unfold MKtest, _preprocessing, get_params. rewrite Hps. cbn [bind].
  unfold df_tail at 1. cbn [columns]. rewrite Hcols. cbn [map_columns map fst snd bind].
  cbn [_drop_missing_values].
  destruct (index ts) as [|t0 idx] eqn:Ei.
  - reflexivity.
  - destruct (last_label_ok (t0 :: idx)) as [t Ht]; [discriminate|].
    rewrite Ht. cbn [bind].
    now rewrite (py_div_zero _ _ (tau_denominator_zero _ Hn)).
Qed.

Lemma MKtest_insufficient_data_witness :
  MKtest newton_sqrt linear_cdf quantile_975 (sample_detector false 1)
         (daily_series [5; 7])
  = Raise ZeroDivisionError.
Proof.
  apply (MKtest_insufficient_data newton_sqrt linear_cdf quantile_975
           (sample_detector false 1) (mkParams 1 None "both" None)
           (daily_series [5; 7]) "y" [Some (inject_Z 5); Some (inject_Z 7)]
           eq_refl eq_refl).
  cbn. lia.
Defined.

(** ** The multivariate aggregator *)

Lemma dict_get_set_same {V} (k : string) (v : V) (d : list (string * V)) :
  dict_get k (dict_set k v d) = Some v.
Proof.
  induction d as [|[k' v'] d IH]; simpl.
  - now rewrite String.eqb_refl.
  - destruct (String.eqb k' k) eqn:E; simpl; rewrite E; [reflexivity|exact IH].
Qed.

Lemma dict_keys_set {V} (k : string) (v : V) (d : list (string * V)) :
  dict_keys (dict_set k v d) = add_key (dict_keys d) k.
Proof.
  unfold add_key, dict_keys. induction d as [|[k' v'] d IH]; [reflexivity|].
  cbn [dict_set map fst existsb]. rewrite (String.eqb_sym k k').
  destruct (String.eqb k' k); cbn [map fst orb]; [reflexivity|].
  rewrite IH. now destruct (existsb (String.eqb k) (map fst d)).
Qed.

Lemma column_names_from (ts : DataFrame) (pre rest : list (string * list (option Q))) :
  columns ts = (pre ++ rest)%list ->
  map (column_name ts) (seq (length pre) (length rest)) = map fst rest.
Proof.
  revert pre. induction rest as [|c rest IH]; intros pre H; [reflexivity|].
  cbn [length seq map]. f_equal.
  - unfold column_name. rewrite H, nth_error_app2 by apply Nat.le_refl.
    now rewrite Nat.sub_diag.
  - specialize (IH (pre ++ [c])%list). rewrite length_app in IH.
    cbn [length] in IH. rewrite Nat.add_1_r in IH. apply IH.
    now rewrite <- app_assoc.
Qed.

Lemma column_names (ts : DataFrame) :
  map (column_name ts) (seq 0 (ncols ts)) = map fst (columns ts).
Proof.
  apply (column_names_from ts [] (columns ts)). reflexivity.
Qed.

Section Aggregator.
Variables np_sqrt norm_cdf norm_ppf : Q -> Q.
Variable self : MKDetector.
Variable ts : DataFrame.

(** the loop over the columns adds up the score, the variance and
    the denominator of each column's valid points *)
Lemma mv_fold (n : nat) (rest pre : list (list (option Q))) (a : mv_acc) :
  exists a',
    fold_left (mv_step np_sqrt norm_cdf norm_ppf self ts (Arr2 n (pre ++ rest)))
              (seq (length pre) (length rest)) (Ok a)
    = Ok a'
    /\ acc_s a' = fold_left (fun s x => s + _mk_score x) (map drop_nan rest) (acc_s a)
    /\ acc_var_s a'
       = fold_left (fun v x => (v + _var_s x)%Q) (map drop_nan rest) (acc_var_s a)
    /\ acc_denominator a'
       = fold_left (fun d x => (d + tau_denominator (length x))%Q)
                   (map drop_nan rest) (acc_denominator a)
    /\ dict_keys (acc_Tau_dict a')
       = fold_left add_key (map (column_name ts) (seq (length pre) (length rest)))
                   (dict_keys (acc_Tau_dict a))
    /\ dict_keys (acc_trend_dict a')
       = fold_left add_key (map (column_name ts) (seq (length pre) (length rest)))
                   (dict_keys (acc_trend_dict a)).
Proof.
  revert pre a. induction rest as [|c rest IH]; intros pre a.
  - exists a. simpl. repeat split.
  - cbn [length seq fold_left map].
    assert (Hc : column_i (Arr2 n (pre ++ c :: rest)) (length pre) = Ok c).
    { unfold column_i. rewrite nth_error_app2 by apply Nat.le_refl.
      now rewrite Nat.sub_diag. }
    unfold mv_step at 2. cbn [bind]. rewrite Hc. cbn [bind].
    match goal with
    | |- context [fold_left _ _ (Ok ?b)] => set (a1 := b)
    end.
    destruct (IH (pre ++ [c])%list a1) as (a' & Hf & Hs & Hv & Hd & Hk & Hk').
    rewrite <- app_assoc in Hf. cbn [app] in Hf.
    rewrite length_app in Hf, Hk, Hk'. cbn [length] in Hf, Hk, Hk'.
    rewrite Nat.add_1_r in Hf, Hk, Hk'.
    exists a'. split; [exact Hf|].
    subst a1.
    cbn [acc_s acc_var_s acc_denominator acc_Tau_dict acc_trend_dict]
      in Hs, Hv, Hd, Hk, Hk'.
    split; [exact Hs|]. split; [exact Hv|]. split; [exact Hd|].
    rewrite Hk, Hk'.
    destruct (py_div _ _); cbn [fst snd]; rewrite !dict_keys_set; split; reflexivity.
Qed.
End Aggregator.

Lemma df_tail_columns (w : nat) (ts : DataFrame) :
  map snd (columns (df_tail w ts)) = map (fun c => py_tail w (snd c)) (columns ts).
Proof.
  unfold df_tail, map_columns. cbn [columns]. now rewrite map_map.
Qed.

Lemma df_tail_ncols (w : nat) (ts : DataFrame) : ncols (df_tail w ts) = ncols ts.
Proof.
  unfold ncols, df_tail, map_columns. cbn [columns]. apply length_map.
Qed.

(** what [multivariate_MKtest] returns on a frame with a row and at
    least two columns *)
Lemma multivariate_MKtest_result (np_sqrt norm_cdf norm_ppf : Q -> Q)
    (self : MKDetector) (ps : RunParams) (ts : DataFrame) (t : Z) :
  params self = Some ps ->
  (2 <= ncols ts)%nat ->
  last_label (index ts) = Ok t ->
  let cols := window_columns ps ts in
  let S := inject_Z (pooled_score cols) in
  let D := pooled_denominator cols in
  ~ (D == 0)%Q ->
  exists trend_dict Tau_dict,
    multivariate_MKtest np_sqrt norm_cdf norm_ppf self ts
    = Ok (t, TrendDict trend_dict,
          fst (_p_value norm_cdf norm_ppf self
                 (_z_score np_sqrt S (pooled_variance cols)) (S / D)%Q),
          TauDict Tau_dict)
    /\ dict_get "overall" Tau_dict = Some (Some (S / D)%Q)
    /\ dict_get "overall" trend_dict
       = Some (Some (snd (_p_value norm_cdf norm_ppf self
                            (_z_score np_sqrt S (pooled_variance cols)) (S / D)%Q)))
    /\ dict_keys Tau_dict
       = add_key (fold_left add_key (map fst (columns ts)) []) "overall"
    /\ dict_keys trend_dict
       = add_key (fold_left add_key (map fst (columns ts)) []) "overall".
Proof.
  intros Hps Hc Ht cols S D HD.
  unfold multivariate_MKtest. rewrite Ht. cbn [bind].
  unfold _preprocessing, get_params. rewrite Hps. cbn [bind].
  rewrite df_tail_ncols.
  assert (Harr : match columns (df_tail (window_size ps) ts) with
                 | [col] => Ok (Arr1 (snd col), ncols ts)
                 | cs => Ok (Arr2 (nrows (df_tail (window_size ps) ts)) (map snd cs),
                             ncols ts)
                 end
                 = Ok (Arr2 (nrows (df_tail (window_size ps) ts))
                            (map snd (columns (df_tail (window_size ps) ts))),
                       ncols ts)).
  { pose proof (df_tail_ncols (window_size ps) ts) as Hn. unfold ncols in Hn, Hc.
    destruct (columns (df_tail (window_size ps) ts)) as [|c1 [|c2 cs]];
      simpl in Hn; try reflexivity; lia. }
  rewrite Harr. cbn [bind].
  set (n := nrows (df_tail (window_size ps) ts)).
  destruct (mv_fold np_sqrt norm_cdf norm_ppf self ts n
              (map snd (columns (df_tail (window_size ps) ts))) []
              (mkAcc 0 0%Q 0%Q [] []))
    as (a & Hf & Hs & Hv & Hd & Hk & Hk').
  cbn [app length] in Hf, Hk, Hk'. rewrite length_map in Hf, Hk, Hk'.
  fold (ncols (df_tail (window_size ps) ts)) in Hf, Hk, Hk'.
  rewrite df_tail_ncols in Hf, Hk, Hk'. rewrite column_names in Hk, Hk'.
  cbn [acc_Tau_dict acc_trend_dict dict_keys map] in Hk, Hk'.
  rewrite Hf. cbn [bind].
  rewrite df_tail_columns, map_map in Hs, Hv, Hd.
  cbn [acc_s acc_var_s acc_denominator] in Hs, Hv, Hd.
  fold (window_columns ps ts) in Hs, Hv, Hd. fold cols in Hs, Hv, Hd.
  fold (pooled_score cols) in Hs. fold (pooled_variance cols) in Hv.
  fold (pooled_denominator cols) in Hd. fold D in Hd.
  rewrite Hs, Hv, Hd. fold S.
  rewrite (py_div_ok S D HD). cbn [bind].
  destruct (_p_value norm_cdf norm_ppf self
              (_z_score np_sqrt S (pooled_variance cols)) (S / D)%Q) as [pv tr] eqn:Ep.
  eexists; eexists. split; [reflexivity|].
  split; [apply dict_get_set_same|]. split; [apply dict_get_set_same|].
  rewrite !dict_keys_set, Hk, Hk'. split; reflexivity.
Qed.

(** C2: on a frame with at least two columns (and a pooled denominator
    that is not zero) the Tau reported under "overall" is the sum of the
    column scores over the sum of the column denominators
    [0.5 n_i (n_i - 1)], each column's NaNs dropped on its own, and the
    overall p-value and trend come from the z-score of the pooled score
    and pooled variance; for two columns with 3 and 2 valid points the
    overall Tau is not the mean of the two column Taus. *)
Theorem multivariate_overall_tau (np_sqrt norm_cdf norm_ppf : Q -> Q) :
  (forall (self : MKDetector) (ps : RunParams) (ts : DataFrame),
      params self = Some ps ->
      (2 <= ncols ts)%nat ->
      index ts <> [] ->
      let cols := window_columns ps ts in
      let S := inject_Z (pooled_score cols) in
      let D := pooled_denominator cols in
      let z := _z_score np_sqrt S (pooled_variance cols) in
      ~ (D == 0)%Q ->
      exists anchor trend_dict p Tau_dict,
        multivariate_MKtest np_sqrt norm_cdf norm_ppf self ts
        = Ok (anchor, TrendDict trend_dict, p, TauDict Tau_dict)
        /\ dict_get "overall" Tau_dict = Some (Some (S / D)%Q)
        /\ p = fst (_p_value norm_cdf norm_ppf self z (S / D)%Q)
        /\ dict_get "overall" trend_dict
           = Some (Some (snd (_p_value norm_cdf norm_ppf self z (S / D)%Q))))
  /\ (exists anchor trend_dict p Tau_a Tau_b Tau_overall,
        multivariate_MKtest np_sqrt norm_cdf norm_ppf
          (sample_detector true 3) mixed_length_frame
        = Ok (anchor, TrendDict trend_dict, p,
              TauDict [("a", Some Tau_a); ("b", Some Tau_b);
                       ("overall", Some Tau_overall)])
        /\ map (@length Q) (window_columns (mkParams 3 None "both" None)
                                          mixed_length_frame) = [3; 2]%nat
        /\ ~ (Tau_overall == (Tau_a + Tau_b) / 2)%Q).
Proof.
  split.
  - intros self ps ts Hps Hc Hi cols S D z HD.
    destruct (last_label_ok (index ts) Hi) as [t Ht].
    destruct (multivariate_MKtest_result np_sqrt norm_cdf norm_ppf self ps ts t
                Hps Hc Ht HD) as (trd & td & Hr & Htau & Htr & _).
    exists t, trd. eexists. exists td.
    split; [exact Hr|]. split; [exact Htau|]. split; [reflexivity|exact Htr].
  - do 6 eexists.
    split; [|split].
    + unfold multivariate_MKtest. cbn. reflexivity.
    + reflexivity.
    + intro H. vm_compute in H. discriminate.
Qed.

Lemma multivariate_overall_tau_witness :
  exists anchor trend_dict p Tau_dict Tau_overall,
    multivariate_MKtest newton_sqrt linear_cdf quantile_975
      (sample_detector true 3) mixed_length_frame
    = Ok (anchor, TrendDict trend_dict, p, TauDict Tau_dict)
    /\ dict_get "overall" Tau_dict = Some (Some Tau_overall)
    /\ (Tau_overall == 1 # 2)%Q.
Proof.
  destruct (proj1 (multivariate_overall_tau newton_sqrt linear_cdf quantile_975)
              (sample_detector true 3) (mkParams 3 None "both" None)
              mixed_length_frame eq_refl)
    as (anchor & trd & pv & td & Hr & Htau & _).
  - unfold ncols. simpl. lia.
  - discriminate.
  - vm_compute. discriminate.
  - exists anchor, trd, pv, td. eexists.
    split; [exact Hr|]. split; [exact Htau|]. reflexivity.
Defined.

(** ** The detection run: direction and missing values *)

(** C5, as stated, fails: with the direction "sideways" the run over the
    20-point series with [window_size = 5] has computed and stored all
    15 Statistic Records when it raises the ValueError. *)
Lemma invalid_direction_counterexample :
  let r := detector newton_sqrt linear_cdf quantile_975 ses_02
             (default_detector peak_series) 5 None "sideways" None in
  option_map (@length StatRecord) (MK_statistics (fst r)) = Some 15%nat
  /\ snd r = Raise (ValueError "direction should be chosen from {'up', 'down', 'both'}").
Proof.
  vm_compute. split; reflexivity.
Qed.

(** C5 (as the code has it): a run whose direction is not "up", "down"
    or "both" returns nothing, it raises; the direction is checked by
    [get_MK_results] after the scan: when the scan itself succeeds, all
    its Statistic Records are computed and stored in [MK_statistics]
    and the error is the ValueError naming the three directions. *)
Theorem invalid_direction_fails_after_scan
    (np_sqrt norm_cdf norm_ppf : Q -> Q) (SimpleExpSmoothing : Series -> ses_outcome)
    (self : MKDetector) (window_size : nat) (training_days : option nat)
    (direction : string) (freq : option string) :
  valid_direction direction = false ->
  let ps := mkParams window_size training_days direction freq in
  let r := detector np_sqrt norm_cdf norm_ppf SimpleExpSmoothing
             self window_size training_days direction freq in
  (exists e, snd r = Raise e)
  /\ (forall d stats,
        data self = Some d ->
        run_scan np_sqrt norm_cdf norm_ppf SimpleExpSmoothing
                 (set_ts (set_params self ps) (dropna_axis1 d)) ps (dropna_axis1 d)
        = Ok stats ->
        MK_statistics (fst r) = Some stats
        /\ snd r = Raise (ValueError
                            "direction should be chosen from {'up', 'down', 'both'}")).
Proof.
  intros Hdir ps r. subst r. unfold detector. fold ps.
  cbn [data set_params].
  destruct (data self) as [d|] eqn:Ed.
  - destruct (run_scan _ _ _ _ _ ps (dropna_axis1 d)) as [stats|e] eqn:Er.
    + assert (Hg : forall st, get_MK_results st stats direction
                   = Raise (ValueError
                              "direction should be chosen from {'up', 'down', 'both'}")).
      { intro st. unfold get_MK_results. unfold valid_direction in Hdir.
        now rewrite Hdir. }
      cbn [fst snd]. rewrite Hg. cbn [bind]. split.
      * eexists. reflexivity.
      * intros d' stats' Hd' Hs'. inversion Hd'; subst d'.
        unfold set_ts, set_params in Hs'. cbn [data threshold alpha multivariate
          params ts MK_statistics] in Hs'.
        unfold set_ts, set_params in Er. cbn [data threshold alpha multivariate
          params ts MK_statistics] in Er.
        rewrite Er in Hs'. inversion Hs'; subst stats'.
        split; reflexivity.
    + cbn [fst snd]. split.
      * eexists. reflexivity.
      * intros d' stats' Hd' Hs'. inversion Hd'; subst d'.
        unfold set_ts, set_params in Hs'. cbn [data threshold alpha multivariate
          params ts MK_statistics] in Hs'.
        unfold set_ts, set_params in Er. cbn [data threshold alpha multivariate
          params ts MK_statistics] in Er.
        rewrite Er in Hs'. discriminate.
  - cbn [fst snd]. split.
    + eexists. reflexivity.
    + intros d' stats' Hd'. discriminate.
Qed.

Lemma invalid_direction_fails_after_scan_witness :
  let r := detector newton_sqrt linear_cdf quantile_975 ses_02
             (default_detector peak_series) 18 None "sideways" None in
  (exists e, snd r = Raise e)
  /\ option_map (map ds) (MK_statistics (fst r)) = Some [18; 19].
Proof.
  pose proof (invalid_direction_fails_after_scan newton_sqrt linear_cdf quantile_975
                ses_02 (default_detector peak_series) 18 None "sideways" None
                eq_refl) as [He Hs].
  split; [exact He|].
  vm_compute. reflexivity.
Defined.

(** the tests read the settings of [self] only *)
Section Settings.
Variables np_sqrt norm_cdf norm_ppf : Q -> Q.
Variable SimpleExpSmoothing : Series -> ses_outcome.

Lemma runDetector_settings (a b : MKDetector) (f : DataFrame) :
  same_settings a b ->
  runDetector np_sqrt norm_cdf norm_ppf a f
  = runDetector np_sqrt norm_cdf norm_ppf b f.
Proof.
  destruct a, b. unfold same_settings. cbn.
  intros (-> & -> & -> & ->). reflexivity.
Qed.

Lemma scan_anchors_settings (a b : MKDetector) (sm : DataFrame)
    (anchors : list Z) (acc : list StatRecord) :
  same_settings a b ->
  scan_anchors np_sqrt norm_cdf norm_ppf a sm anchors acc
  = scan_anchors np_sqrt norm_cdf norm_ppf b sm anchors acc.
Proof.
  intro H. revert acc. induction anchors as [|t rest IH]; intro acc.
  - reflexivity.
  - cbn [scan_anchors]. rewrite (runDetector_settings a b _ H).
    destruct (runDetector np_sqrt norm_cdf norm_ppf b (loc_upto t sm));
      cbn [bind]; [apply IH|reflexivity].
Qed.

Lemma run_scan_settings (a b : MKDetector) (ps : RunParams) (f : DataFrame) :
  same_settings a b ->
  run_scan np_sqrt norm_cdf norm_ppf SimpleExpSmoothing a ps f
  = run_scan np_sqrt norm_cdf norm_ppf SimpleExpSmoothing b ps f.
Proof.
  intro H. unfold run_scan.
  destruct (training_days ps) as [td|].
  - destruct (last_label (index f)); cbn [bind]; [|reflexivity].
    destruct (td <? window_size ps)%nat; [reflexivity|].
    destruct (nrows f <? td)%nat; [reflexivity|].
    destruct (_remove_seasonality _ (freq ps)); cbn [bind]; [|reflexivity].
    destruct (_smoothing SimpleExpSmoothing _); cbn [bind]; [|reflexivity].
    now rewrite (runDetector_settings a b _ H).
  - destruct (nrows f <? window_size ps)%nat; [reflexivity|].
    destruct (_remove_seasonality f (freq ps)); cbn [bind]; [|reflexivity].
    destruct (_smoothing SimpleExpSmoothing _); cbn [bind]; [|reflexivity].
    apply scan_anchors_settings, H.
Qed.

Lemma get_MK_results_settings (a b : MKDetector) (st : list StatRecord)
    (direction : string) :
  same_settings a b ->
  get_MK_results a st direction = get_MK_results b st direction.
Proof.
  intros (_ & _ & Hm & _). unfold get_MK_results. now rewrite Hm.
Qed.

Lemma convert_settings (a b : MKDetector) (st : list StatRecord) :
  same_settings a b ->
  _convert_detected_tps a st = _convert_detected_tps b st.
Proof.
  intros (_ & _ & Hm & _). unfold _convert_detected_tps. now rewrite Hm.
Qed.
End Settings.

Lemma dropna_axis1_idempotent (d : DataFrame) :
  dropna_axis1 (dropna_axis1 d) = dropna_axis1 d.
Proof.
  unfold dropna_axis1. cbn [index columns]. f_equal.
  induction (columns d) as [|c cs IH]; simpl; [reflexivity|].
  destruct (has_nan (snd c)) eqn:E; simpl; [exact IH|].
  rewrite E. simpl. now rewrite IH.
Qed.

(** C10: the run keeps of the input exactly the columns with no missing
    value, and it is this frame that is deseasonalized, smoothed and
    tested: a column holding a NaN is not in it, and two inputs that
    agree once such columns are dropped give the same Statistic Records
    and the same result, so that a column with one missing observation
    contributes nothing. *)
Theorem nan_columns_dropped
    (np_sqrt norm_cdf norm_ppf : Q -> Q) (SimpleExpSmoothing : Series -> ses_outcome)
    (self : MKDetector) (d1 d2 : DataFrame) (window_size : nat)
    (training_days : option nat) (direction : string) (freq : option string) :
  dropna_axis1 d1 = dropna_axis1 d2 ->
  let run d := detector np_sqrt norm_cdf norm_ppf SimpleExpSmoothing
                 (with_data self d) window_size training_days direction freq in
  ts (fst (run d1)) = Some (dropna_axis1 d1)
  /\ (forall c, In c (columns (dropna_axis1 d1))
                <-> In c (columns d1) /\ has_nan (snd c) = false)
  /\ MK_statistics (fst (run d1)) = MK_statistics (fst (run d2))
  /\ snd (run d1) = snd (run d2)
  /\ MK_statistics (fst (run d1)) = MK_statistics (fst (run (dropna_axis1 d1)))
  /\ snd (run d1) = snd (run (dropna_axis1 d1)).
Proof.
  intros Heq run.
  assert (Hrun : forall d d', dropna_axis1 d = dropna_axis1 d' ->
                   MK_statistics (fst (run d)) = MK_statistics (fst (run d'))
                   /\ snd (run d) = snd (run d')).
  { intros d d' E. subst run. cbv beta. unfold detector. cbv zeta.
    set (ps := mkParams window_size training_days direction freq).
    change (data (set_params (with_data self d) ps)) with (Some d).
    change (data (set_params (with_data self d') ps)) with (Some d').
    cbv iota beta. rewrite E.
    set (a := set_ts (set_params (with_data self d) ps) (dropna_axis1 d')).
    set (b := set_ts (set_params (with_data self d') ps) (dropna_axis1 d')).
    assert (Hab : same_settings a b) by (repeat split).
    rewrite (run_scan_settings np_sqrt norm_cdf norm_ppf SimpleExpSmoothing
               a b ps (dropna_axis1 d') Hab).
    destruct (run_scan np_sqrt norm_cdf norm_ppf SimpleExpSmoothing b ps
                (dropna_axis1 d')) as [st|e]; cbn [fst snd].
    - split; [reflexivity|].
      assert (Hab' : same_settings (set_MK_statistics a st) (set_MK_statistics b st))
        by (repeat split).
      rewrite (get_MK_results_settings _ _ st direction Hab').
      destruct (get_MK_results _ st direction); cbn [bind]; [|reflexivity].
      f_equal; apply convert_settings, Hab'.
    - split; reflexivity. }
  split.
  { subst run. cbv beta. unfold detector. cbv zeta.
    change (data (set_params (with_data self d1) _)) with (Some d1).
    cbv iota beta.
    destruct (run_scan _ _ _ _ _ _ (dropna_axis1 d1)); reflexivity. }
  split.
  { intro c. unfold dropna_axis1. cbn [columns]. rewrite filter_In.
    now rewrite negb_true_iff. }
  destruct (Hrun d1 d2 Heq) as [H1 H2].
  destruct (Hrun d1 (dropna_axis1 d1)) as [H3 H4].
  { symmetry. apply dropna_axis1_idempotent. }
  repeat split; assumption.
Qed.

Lemma nan_columns_dropped_witness :
  let run d := detector newton_sqrt linear_cdf quantile_975 ses_02
                 (with_data (MKDetector_init (Some gappy_frame) (8 # 10) (5 # 100) true) d)
                 2 None "both" None in
  ts (fst (run gappy_frame)) = Some gappy_frame_without_b
  /\ snd (run gappy_frame) = snd (run gappy_frame_without_b)
  /\ option_map (map ds) (MK_statistics (fst (run gappy_frame))) = Some [2; 3].
Proof.
  pose proof (nan_columns_dropped newton_sqrt linear_cdf quantile_975 ses_02
                (MKDetector_init (Some gappy_frame) (8 # 10) (5 # 100) true)
                gappy_frame gappy_frame_without_b 2 None "both" None eq_refl)
    as (Hts & _ & _ & Hres & _).
  split; [exact Hts|]. split; [exact Hres|].
  vm_compute. reflexivity.
Defined.

(** ** Frames with no missing value *)

Lemma has_nan_false (col : list (option Q)) :
  has_nan col = false <-> Forall (fun v => is_nan v = false) col.
Proof.
  unfold has_nan. induction col as [|v col IH]; simpl.
  - split; [constructor|reflexivity].
  - rewrite orb_false_iff, IH. split.
    + intros [H1 H2]. now constructor.
    + intro H. inversion H; subst. now split.
Qed.

Lemma Forall_take {A} (P : A -> Prop) (k : nat) (l : list A) :
  Forall P l -> Forall P (firstn k l).
Proof.
  revert l. induction k as [|k IH]; intros [|a l] H; simpl; try constructor.
  - now inversion H.
  - apply IH. now inversion H.
Qed.

Lemma Forall_drop {A} (P : A -> Prop) (k : nat) (l : list A) :
  Forall P l -> Forall P (skipn k l).
Proof.
  revert l. induction k as [|k IH]; intros [|a l] H; simpl; try assumption.
  apply IH. now inversion H.
Qed.

Lemma has_nan_firstn (k : nat) (col : list (option Q)) :
  has_nan col = false -> has_nan (firstn k col) = false.
Proof.
  rewrite !has_nan_false. apply Forall_take.
Qed.

Lemma has_nan_skipn (k : nat) (col : list (option Q)) :
  has_nan col = false -> has_nan (skipn k col) = false.
Proof.
  rewrite !has_nan_false. apply Forall_drop.
Qed.

Lemma has_nan_py_tail (w : nat) (col : list (option Q)) :
  has_nan col = false -> has_nan (py_tail w col) = false.
Proof.
  destruct w; [trivial|]. apply has_nan_skipn.
Qed.

Lemma py_tail_length {A} (w : nat) (l : list A) :
  (1 <= w <= length l)%nat -> length (py_tail w l) = w.
Proof.
  intro H. destruct w; [lia|]. unfold py_tail. rewrite length_skipn. lia.
Qed.

Lemma drop_nan_length (col : list (option Q)) :
  has_nan col = false -> length (drop_nan col) = length col.
Proof.
  unfold has_nan. induction col as [|[v|] col IH]; simpl.
  - reflexivity.
  - intro H. now rewrite IH.
  - discriminate.
Qed.

Lemma dropna_series_index (idx : list Z) (col : list (option Q)) :
  length col = length idx -> has_nan col = false ->
  map fst (dropna_series idx col) = idx.
Proof.
  unfold has_nan. revert col. induction idx as [|t idx IH]; intros [|[v|] col]; simpl;
    try discriminate; try reflexivity.
  intros Hl Hn. injection Hl as Hl. now rewrite IH.
Qed.

Lemma column_get_self (idx : list Z) (col : list (option Q)) :
  NoDup idx -> length col = length idx ->
  map (fun t => column_get t idx col) idx = col.
Proof.
  revert col. induction idx as [|t idx IH]; intros [|v col] Hnd Hl;
    try discriminate; [reflexivity|].
  injection Hl as Hl. inversion Hnd as [|? ? Hnotin Hnd']; subst.
  cbn [map column_get]. rewrite Z.eqb_refl. f_equal.
  transitivity (map (fun t' => column_get t' idx col) idx); [|now apply IH].
  apply map_ext_in. intros t' Hin.
  destruct (Z.eqb_spec t t') as [->|Hne]; [contradiction|reflexivity].
Qed.

Lemma series_get_self (s : Series) :
  NoDup (map fst s) ->
  map (fun t => series_get t s) (map fst s) = map (fun e => Some (snd e)) s.
Proof.
  induction s as [|[t v] s IH]; intro Hnd; [reflexivity|].
  cbn [map fst snd] in *. inversion Hnd as [|? ? Hnotin Hnd']; subst.
  cbn [series_get]. rewrite Z.eqb_refl. f_equal.
  transitivity (map (fun t' => series_get t' s) (map fst s)); [|now apply IH].
  apply map_ext_in. intros t' Hin.
  destruct (Z.eqb_spec t t') as [->|Hne]; [contradiction|reflexivity].
Qed.

Lemma has_nan_map_Some {A} (f : A -> Q) (l : list A) :
  has_nan (map (fun e => Some (f e)) l) = false.
Proof.
  unfold has_nan. induction l as [|a l IH]; simpl; [reflexivity|exact IH].
Qed.

Lemma index_union_same (a b : list Z) :
  a = [] \/ a = b -> index_union a b = b.
Proof.
  intros [-> | ->]; [reflexivity|].
  unfold index_union. destruct b as [|t b]; [reflexivity|].
  destruct (list_eq_dec Z.eq_dec (t :: b) (t :: b)); [reflexivity|contradiction].
Qed.

(** putting a series with the index of the frame next to its columns *)
Lemma concat_axis1_aligned (sm : DataFrame) (name : string) (s : Series) (idx : list Z) :
  NoDup idx ->
  map fst s = idx ->
  (columns sm = [] /\ index sm = []) \/ index sm = idx ->
  Forall (complete_column (length idx)) (columns sm) ->
  index (concat_axis1 sm name s) = idx
  /\ map fst (columns (concat_axis1 sm name s)) = (map fst (columns sm) ++ [name])%list
  /\ Forall (complete_column (length idx)) (columns (concat_axis1 sm name s)).
Proof.
  intros Hnd Hs Hsm Hcols.
  assert (Hidx : index_union (index sm) (map fst s) = idx).
  { rewrite Hs. apply index_union_same. destruct Hsm as [[_ H]|H]; auto. }
  unfold concat_axis1. rewrite Hidx. cbn [index columns].
  split; [reflexivity|]. split.
  - unfold map_columns. rewrite map_app, map_map. reflexivity.
  - apply Forall_app. split.
    + destruct Hsm as [[Hc _]|Hi].
      * rewrite Hc. constructor.
      * rewrite Hi. unfold map_columns.
        rewrite Forall_map. eapply Forall_impl; [|exact Hcols].
        intros c [Hl Hn]. unfold complete_column. cbn [snd].
        rewrite (column_get_self idx (snd c) Hnd Hl). now split.
    + constructor; [|constructor]. unfold complete_column. cbn [snd].
      subst idx. rewrite series_get_self by exact Hnd.
      rewrite !length_map. split; [reflexivity|].
      apply has_nan_map_Some.
Qed.

Lemma ses_step_aligned (SimpleExpSmoothing : Series -> ses_outcome)
    (ts : DataFrame) (c : string * list (option Q)) (sm : DataFrame) :
  ses_contract SimpleExpSmoothing ->
  index ts <> [] ->
  complete_column (nrows ts) c ->
  exists s,
    smooth_column SimpleExpSmoothing ts (Ok sm) c = Ok (concat_axis1 sm (fst c) s)
    /\ map fst s = index ts.
Proof.
  intros Hses Hne [Hl Hn].
  pose proof (dropna_series_index (index ts) (snd c) Hl Hn) as Hidx.
  assert (Hs : dropna_series (index ts) (snd c) <> []).
  { intro E. rewrite E in Hidx. simpl in Hidx. now apply Hne. }
  unfold smooth_column. cbn [bind].
  destruct (Hses _ Hs) as [E|(s' & E & Hs')]; rewrite E.
  - eexists. split; [reflexivity|exact Hidx].
  - eexists. split; [reflexivity|]. now rewrite Hs'.
Qed.

Lemma smoothing_fold (SimpleExpSmoothing : Series -> ses_outcome)
    (ts : DataFrame) (rest : list (string * list (option Q))) (sm : DataFrame) :
  ses_contract SimpleExpSmoothing ->
  NoDup (index ts) ->
  index ts <> [] ->
  Forall (complete_column (nrows ts)) rest ->
  (columns sm = [] /\ index sm = []) \/ index sm = index ts ->
  Forall (complete_column (nrows ts)) (columns sm) ->
  exists sm',
    fold_left (smooth_column SimpleExpSmoothing ts) rest (Ok sm) = Ok sm'
    /\ map fst (columns sm') = (map fst (columns sm) ++ map fst rest)%list
    /\ Forall (complete_column (nrows ts)) (columns sm')
    /\ ((columns sm = [] /\ index sm = [] /\ rest = []) \/ index sm' = index ts).
Proof.
  intros Hses Hnd Hne. revert sm.
  induction rest as [|c rest IH]; intros sm Hrest Hsm Hcols.
  - exists sm. cbn [fold_left map]. rewrite app_nil_r.
    split; [reflexivity|]. split; [reflexivity|]. split; [exact Hcols|].
    destruct Hsm as [[H1 H2]|H]; [left|right]; auto.
  - inversion Hrest as [|? ? Hc Hrest']; subst.
    destruct (ses_step_aligned SimpleExpSmoothing ts c sm Hses Hne Hc)
      as (s & Hstep & Hs).
    cbn [fold_left]. rewrite Hstep.
    destruct (concat_axis1_aligned sm (fst c) s (index ts) Hnd Hs Hsm Hcols)
      as (Hi & Hnames & Hcomplete).
    destruct (IH (concat_axis1 sm (fst c) s) Hrest' (or_intror Hi) Hcomplete)
      as (sm' & Hf & Hn' & Hc' & Hi').
    exists sm'. split; [exact Hf|]. split.
    + rewrite Hn', Hnames, <- app_assoc. reflexivity.
    + split; [exact Hc'|]. right.
      destruct Hi' as [(Hx & _)|Hi']; [|exact Hi'].
      exfalso. apply (f_equal (map fst)) in Hx. rewrite Hnames in Hx.
      destruct (map fst (columns sm)); discriminate.
Qed.

(** smoothing a frame with no missing value keeps its index and its
    column names, and leaves no missing value *)
Lemma smoothing_complete (SimpleExpSmoothing : Series -> ses_outcome) (ts : DataFrame) :
  ses_contract SimpleExpSmoothing ->
  NoDup (index ts) ->
  index ts <> [] ->
  columns ts <> [] ->
  complete_frame ts ->
  exists sm,
    _smoothing SimpleExpSmoothing ts = Ok sm
    /\ index sm = index ts
    /\ map fst (columns sm) = map fst (columns ts)
    /\ complete_frame sm.
Proof.
  intros Hses Hnd Hne Hcols Hc.
  destruct (smoothing_fold SimpleExpSmoothing ts (columns ts) empty_frame
              Hses Hnd Hne Hc) as (sm & Hf & Hn & Hcomp & Hi).
  - left. split; reflexivity.
  - constructor.
  - exists sm. split; [exact Hf|].
    assert (Hidx : index sm = index ts).
    { destruct Hi as [(_ & _ & H)|H]; [contradiction|exact H]. }
    split; [exact Hidx|]. split; [exact Hn|].
    unfold complete_frame, nrows. rewrite Hidx. exact Hcomp.
Qed.

(** ** Label slices of an increasing index *)

Lemma sorted_split (pre : list Z) (t : Z) (post : list Z) :
  StronglySorted Z.lt (pre ++ t :: post) ->
  Forall (fun a => a < t) pre /\ Forall (fun b => t < b) post.
Proof.
  induction pre as [|a pre IH]; cbn [app]; intro H.
  - apply StronglySorted_inv in H as [_ H]. split; [constructor|exact H].
  - apply StronglySorted_inv in H as [Hs Ha].
    destruct (IH Hs) as [H1 H2]. split; [|exact H2].
    constructor; [|exact H1].
    rewrite Forall_forall in Ha. apply Ha. apply in_elt.
Qed.

Lemma sorted_NoDup (l : list Z) : StronglySorted Z.lt l -> NoDup l.
Proof.
  induction 1 as [|a l Hs IH Ha]; constructor; [|exact IH].
  intro Hin. rewrite Forall_forall in Ha. specialize (Ha a Hin). lia.
Qed.

Lemma filter_all {A} (f : A -> bool) (l : list A) :
  Forall (fun a => f a = true) l -> filter f l = l.
Proof.
  induction 1 as [|a l Ha Hl IH]; simpl; [reflexivity|]. now rewrite Ha, IH.
Qed.

Lemma filter_none {A} (f : A -> bool) (l : list A) :
  Forall (fun a => f a = false) l -> filter f l = [].
Proof.
  induction 1 as [|a l Ha Hl IH]; simpl; [reflexivity|]. now rewrite Ha, IH.
Qed.

Lemma slice_bound_right_sorted (pre : list Z) (t : Z) (post : list Z) :
  StronglySorted Z.lt (pre ++ t :: post) ->
  slice_bound_right t (pre ++ t :: post) = S (length pre).
Proof.
  intro H. apply sorted_split in H as [Hpre Hpost].
  unfold slice_bound_right. rewrite filter_app. cbn [filter].
  rewrite Z.leb_refl.
  rewrite (filter_all _ pre), (filter_none _ post).
  - rewrite length_app. simpl. lia.
  - eapply Forall_impl; [|exact Hpost]. intros b Hb. simpl in Hb. lia.
  - eapply Forall_impl; [|exact Hpre]. intros a Ha. simpl in Ha. lia.
Qed.

Lemma firstn_prefix {A} (pre : list A) (t : A) (post : list A) :
  firstn (S (length pre)) (pre ++ t :: post) = (pre ++ [t])%list.
Proof.
  induction pre as [|a pre IH]; [reflexivity|].
  cbn [length app]. rewrite firstn_cons. now rewrite IH.
Qed.

Lemma loc_upto_prefix (f : DataFrame) (pre : list Z) (t : Z) (post : list Z) :
  index f = (pre ++ t :: post)%list ->
  StronglySorted Z.lt (index f) ->
  loc_upto t f
  = mkDF (pre ++ [t]) (map_columns (firstn (S (length pre))) (columns f)).
Proof.
  intros Hi Hs. unfold loc_upto, df_rows. rewrite Hi in *.
  rewrite (slice_bound_right_sorted pre t post Hs), Nat.sub_0_r.
  cbn [skipn]. now rewrite firstn_prefix.
Qed.

(** ** The tests on a window with enough valid points *)

Lemma MKtest_result (np_sqrt norm_cdf norm_ppf : Q -> Q) (self : MKDetector)
    (ps : RunParams) (f : DataFrame) (name : string) (col : list (option Q)) (t : Z) :
  params self = Some ps ->
  columns f = [(name, col)] ->
  last_label (index f) = Ok t ->
  let x := drop_nan (py_tail (window_size ps) col) in
  let S := inject_Z (_mk_score x) in
  let Tau := (S / tau_denominator (length x))%Q in
  let z := _z_score np_sqrt S (_var_s x) in
  (2 <= length x)%nat ->
  MKtest np_sqrt norm_cdf norm_ppf self f
  = Ok (t, TrendStr (snd (_p_value norm_cdf norm_ppf self z Tau)),
        fst (_p_value norm_cdf norm_ppf self z Tau), TauNum Tau).
Proof.
  intros Hps Hcols Ht x S Tau z Hn.
  unfold MKtest, _preprocessing, get_params. rewrite Hps. cbn [bind].
  unfold df_tail at 1. cbn [columns]. rewrite Hcols.
  cbn [map_columns map fst snd bind _drop_missing_values].
  rewrite Ht. cbn [bind]. fold x. fold S.
  pose proof (tau_denominator_pos (length x) Hn) as Hpos.
  rewrite py_div_ok by lra. cbn [bind]. fold Tau. fold z.
  now destruct (_p_value norm_cdf norm_ppf self z Tau).
Qed.

Lemma pooled_denominator_fold_pos (cols : list (list Q)) (d0 : Q) :
  cols <> [] ->
  Forall (fun x => (2 <= length x)%nat) cols ->
  (d0 < fold_left (fun d x => (d + tau_denominator (length x))%Q) cols d0)%Q.
Proof.
  revert d0. induction cols as [|x cols IH]; intros d0 Hne Hall; [contradiction|].
  inversion Hall as [|? ? Hx Hrest]; subst. cbn [fold_left].
  pose proof (tau_denominator_pos (length x) Hx) as Hpos.
  destruct cols as [|y cols].
  - cbn [fold_left]. lra.
  - assert (Hlt := IH (d0 + tau_denominator (length x))%Q
                      ltac:(discriminate) Hrest).
    lra.
Qed.

Lemma window_columns_complete (ps : RunParams) (f : DataFrame) :
  complete_frame f ->
  (1 <= window_size ps <= nrows f)%nat ->
  Forall (fun x => length x = window_size ps) (window_columns ps f).
Proof.
  intros Hc Hw. unfold window_columns. rewrite Forall_map.
  eapply Forall_impl; [|exact Hc]. intros c [Hl Hn]. cbv beta.
  rewrite drop_nan_length by (apply has_nan_py_tail, Hn).
  apply py_tail_length. lia.
Qed.

Lemma loc_upto_complete (sm : DataFrame) (pre : list Z) (t : Z) (post : list Z) :
  index sm = (pre ++ t :: post)%list ->
  StronglySorted Z.lt (index sm) ->
  complete_frame sm ->
  index (loc_upto t sm) = (pre ++ [t])%list
  /\ complete_frame (loc_upto t sm)
  /\ ncols (loc_upto t sm) = ncols sm.
Proof.
  intros Hi Hs Hc. rewrite (loc_upto_prefix sm pre t post Hi Hs).
  cbn [index]. split; [reflexivity|]. split.
  - unfold complete_frame, nrows. cbn [index columns].
    unfold map_columns. rewrite Forall_map.
    eapply Forall_impl; [|exact Hc]. intros c [Hl Hn].
    unfold complete_column. cbn [snd]. split.
    + rewrite length_firstn, Hl. unfold nrows. rewrite Hi, !length_app.
      cbn [length]. lia.
    + apply has_nan_firstn, Hn.
  - unfold ncols, map_columns. cbn [columns]. apply length_map.
Qed.

Section Scan.
Variables np_sqrt norm_cdf norm_ppf : Q -> Q.
Variable self : MKDetector.
Variable ps : RunParams.
Hypothesis self_params : params self = Some ps.
Hypothesis window_two : (2 <= window_size ps)%nat.

(** a complete frame with at least [window_size] rows is tested
    without an exception, and the record carries its last timestamp *)
Lemma runDetector_complete (f : DataFrame) (pre : list Z) (t : Z) :
  index f = (pre ++ [t])%list ->
  (window_size ps <= nrows f)%nat ->
  complete_frame f ->
  (1 <= ncols f)%nat ->
  multivariate self = negb (is_univariate f) ->
  exists r, runDetector np_sqrt norm_cdf norm_ppf self f = Ok r /\ ds r = t.
Proof.
  intros Hi Hw Hc Hcols Hflag.
  assert (Ht : last_label (index f) = Ok t) by (rewrite Hi; apply last_label_app).
  pose proof (window_columns_complete ps f Hc ltac:(lia)) as Hlen.
  unfold runDetector. rewrite Hflag. unfold is_univariate.
  destruct (Nat.eqb_spec (ncols f) 1) as [E|E]; cbn [negb].
  - unfold ncols in E. destruct (columns f) as [|[name col] [|c2 cs]] eqn:Ecols;
      try discriminate.
    unfold window_columns in Hlen. rewrite Ecols in Hlen.
    inversion Hlen as [|? ? Hx _]; subst. cbn [snd] in Hx.
    rewrite (MKtest_result np_sqrt norm_cdf norm_ppf self ps f name col t
               self_params Ecols Ht) by lia.
    cbn [bind]. eexists. split; reflexivity.
  - assert (Hnz : ~ (pooled_denominator (window_columns ps f) == 0)%Q).
    { assert (Hpos : (0 < pooled_denominator (window_columns ps f))%Q).
      { apply pooled_denominator_fold_pos.
        - unfold window_columns, ncols in *.
          destruct (columns f); simpl in *; [lia|discriminate].
        - eapply Forall_impl; [|exact Hlen]. intros x Hx. cbv beta in Hx. lia. }
      lra. }
    destruct (multivariate_MKtest_result np_sqrt norm_cdf norm_ppf self ps f t
                self_params ltac:(lia) Ht Hnz) as (trd & td & Hr & _).
    rewrite Hr. cbn [bind]. eexists. split; reflexivity.
Qed.

(** the loop appends one record per anchor, in the order of the index *)
Lemma scan_anchors_complete (sm : DataFrame) (anchors pre : list Z)
    (acc : list StatRecord) :
  index sm = (pre ++ anchors)%list ->
  StronglySorted Z.lt (index sm) ->
  complete_frame sm ->
  (1 <= ncols sm)%nat ->
  multivariate self = negb (is_univariate sm) ->
  (window_size ps <= length pre)%nat ->
  exists recs,
    scan_anchors np_sqrt norm_cdf norm_ppf self sm anchors acc = Ok (acc ++ recs)%list
    /\ map ds recs = anchors.
Proof.
  intros Hi Hs Hc Hcols Hflag. revert pre acc Hi.
  induction anchors as [|t rest IH]; intros pre acc Hi Hw.
  - exists []. cbn [scan_anchors]. rewrite app_nil_r. split; reflexivity.
  - destruct (loc_upto_complete sm pre t rest Hi Hs Hc) as (Hi' & Hc' & Hn').
    destruct (runDetector_complete (loc_upto t sm) pre t Hi') as (r & Hr & Hds).
    + unfold nrows. rewrite Hi', length_app. simpl. lia.
    + exact Hc'.
    + lia.
    + unfold is_univariate in *. now rewrite Hn'.
    + cbn [scan_anchors]. rewrite Hr. cbn [bind].
      destruct (IH (pre ++ [t])%list (acc ++ [r])%list) as (recs & Hscan & Hrecs).
      * rewrite <- app_assoc. exact Hi.
      * rewrite length_app. simpl. lia.
      * exists (r :: recs). rewrite Hscan, <- app_assoc. cbn [app map].
        rewrite Hds, Hrecs. split; reflexivity.
Qed.

(** the whole-series scan of a complete series with no seasonal period *)
Lemma run_scan_whole (SimpleExpSmoothing : Series -> ses_outcome) (d : DataFrame) :
  ses_contract SimpleExpSmoothing ->
  training_days ps = None ->
  freq ps = None ->
  (window_size ps <= nrows d)%nat ->
  StronglySorted Z.lt (index d) ->
  complete_frame d ->
  (1 <= ncols d)%nat ->
  multivariate self = negb (is_univariate d) ->
  exists recs,
    run_scan np_sqrt norm_cdf norm_ppf SimpleExpSmoothing self ps d = Ok recs
    /\ map ds recs = skipn (window_size ps) (index d).
Proof.
  intros Hses Htd Hfreq Hw Hs Hc Hcols Hflag.
  unfold run_scan. rewrite Htd, Hfreq.
  assert (Hlt : (nrows d <? window_size ps)%nat = false) by (apply Nat.ltb_ge; lia).
  rewrite Hlt.
  cbn [_remove_seasonality bind].
  destruct (smoothing_complete SimpleExpSmoothing d Hses (sorted_NoDup _ Hs))
    as (sm & Hsm & Hi & Hnames & Hcsm).
  - unfold nrows in Hw. destruct (index d); [simpl in Hw; lia|discriminate].
  - unfold ncols in Hcols. destruct (columns d); [simpl in Hcols; lia|discriminate].
  - exact Hc.
  - rewrite Hsm. cbn [bind]. rewrite Hi.
    assert (Hn : ncols sm = ncols d).
    { unfold ncols. rewrite <- (length_map fst (columns sm)), Hnames.
      apply length_map. }
    destruct (scan_anchors_complete sm (skipn (window_size ps) (index d))
                (firstn (window_size ps) (index d)) [])
      as (recs & Hscan & Hrecs).
    + rewrite Hi. symmetry. apply firstn_skipn.
    + rewrite Hi. exact Hs.
    + exact Hcsm.
    + lia.
    + unfold is_univariate in *. now rewrite Hn.
    + rewrite length_firstn. unfold nrows in Hw. lia.
    + exists recs. split; [exact Hscan|exact Hrecs].
Qed.
End Scan.

Lemma dropna_axis1_complete (d : DataFrame) :
  complete_frame d -> dropna_axis1 d = d.
Proof.
  intro H. destruct d as [idx cols]. unfold dropna_axis1. cbn [index columns].
  f_equal. apply filter_all. unfold complete_frame in H. cbn [columns] in H.
  eapply Forall_impl; [|exact H]. intros c [_ Hn]. cbv beta. now rewrite Hn.
Qed.

Lemma sorted_skipn (k : nat) (l : list Z) :
  StronglySorted Z.lt l -> StronglySorted Z.lt (skipn k l).
Proof.
  revert l. induction k as [|k IH]; intros l H; [exact H|].
  destruct l as [|a l]; [exact H|].
  cbn [skipn]. apply IH. now apply StronglySorted_inv in H.
Qed.

Lemma trend_below_threshold (norm_cdf norm_ppf : Q -> Q) (self : MKDetector)
    (z Tau : Q) :
  (- threshold self <= Tau <= threshold self)%Q ->
  snd (_p_value norm_cdf norm_ppf self z Tau) = "no trend".
Proof.
  intros [Hlo Hhi].
  destruct (trend_trichotomy norm_cdf norm_ppf self z Tau) as [E|[E|E]];
    [| |exact E]; exfalso.
  - apply trend_decreasing_iff in E as (_ & _ & H). lra.
  - apply trend_increasing_iff in E as (_ & _ & H). lra.
Qed.

(** ** The whole-series scan *)

Lemma ses_02_contract : ses_contract ses_02.
Proof.
  intros s Hs. right. destruct s as [|[t y0] s]; [contradiction|].
  eexists. split; [reflexivity|].
  generalize y0 at 1. generalize ((t, y0) :: s). clear.
  intro s. induction s as [|[t y] s IH]; intro level; [reflexivity|].
  cbn [ses_fitted map fst]. now rewrite IH.
Qed.

(** C6, as stated, fails: with [window_size = 1] every window holds one
    point and the run of a two-point series stops on a ZeroDivisionError
    with no Statistic Record, and with a weekly seasonal period the
    moving average costs six rows, so that a ten-point series scanned
    with [window_size = 3] gives one record, not seven. *)
Lemma whole_series_scan_counterexample :
  (let r := detector newton_sqrt linear_cdf quantile_975 ses_02
              (default_detector (daily_series [1; 2])) 1 None "both" None in
   MK_statistics (fst r) = None /\ snd r = Raise ZeroDivisionError)
  /\ (let r := detector newton_sqrt linear_cdf quantile_975 ses_02
                 (default_detector (daily_series [1; 2; 3; 4; 5; 6; 7; 8; 9; 10]))
                 3 None "both" (Some "weekly") in
      option_map (map ds) (MK_statistics (fst r)) = Some [9]).
Proof.
  split; vm_compute; [split|]; reflexivity.
Qed.

(** C6 (as the code has it): for a series of length L with increasing
    timestamps and no missing value, a multivariate flag that matches
    the number of columns, no seasonal period and a window size W with
    [2 <= W < L], the whole-series scan stores exactly [L - W] Statistic
    Records, one per anchor point at the positions [W .. L-1] of the
    index, in strictly chronological order. *)
Theorem whole_series_scan_records
    (np_sqrt norm_cdf norm_ppf : Q -> Q) (SimpleExpSmoothing : Series -> ses_outcome)
    (self : MKDetector) (d : DataFrame) (W : nat) (direction : string) :
  ses_contract SimpleExpSmoothing ->
  data self = Some d ->
  complete_frame d ->
  StronglySorted Z.lt (index d) ->
  (1 <= ncols d)%nat ->
  multivariate self = negb (is_univariate d) ->
  (2 <= W)%nat ->
  (W < nrows d)%nat ->
  let r := detector np_sqrt norm_cdf norm_ppf SimpleExpSmoothing
             self W None direction None in
  exists recs,
    MK_statistics (fst r) = Some recs
    /\ length recs = (nrows d - W)%nat
    /\ map ds recs = skipn W (index d)
    /\ StronglySorted Z.lt (map ds recs).
Proof.
  intros Hses Hd Hc Hs Hcols Hflag HW HL r. subst r.
  unfold detector. cbv zeta.
  set (ps := mkParams W None direction None).
  change (data (set_params self ps)) with (data self). rewrite Hd. cbv iota beta.
  rewrite (dropna_axis1_complete d Hc).
  destruct (run_scan_whole np_sqrt norm_cdf norm_ppf
              (set_ts (set_params self ps) d) ps eq_refl HW SimpleExpSmoothing d
              Hses eq_refl eq_refl) as (recs & Hscan & Hrecs);
    try assumption.
  - cbn [window_size ps]. lia.
  - rewrite Hscan. cbn [fst MK_statistics set_MK_statistics].
    exists recs. split; [reflexivity|].
    cbn [window_size ps] in Hrecs.
    split; [|split; [exact Hrecs|]].
    + rewrite <- (length_map ds recs), Hrecs, length_skipn. reflexivity.
    + rewrite Hrecs. apply sorted_skipn, Hs.
Qed.

Lemma whole_series_scan_records_witness :
  let r := detector newton_sqrt linear_cdf quantile_975 ses_02
             (default_detector (daily_series [3; 1; 4; 1; 5])) 2 None "both" None in
  exists recs,
    MK_statistics (fst r) = Some recs
    /\ length recs = 3%nat
    /\ map ds recs = [2; 3; 4].
Proof.
  destruct (whole_series_scan_records newton_sqrt linear_cdf quantile_975 ses_02
              (default_detector (daily_series [3; 1; 4; 1; 5]))
              (daily_series [3; 1; 4; 1; 5]) 2 "both"
              ses_02_contract eq_refl)
    as (recs & Hst & Hlen & Hds & _).
  - constructor; [split; reflexivity|constructor].
  - apply Sorted_StronglySorted; [intros a b c; apply Z.lt_trans|].
    cbn. repeat (constructor; try reflexivity).
  - cbn. lia.
  - reflexivity.
  - lia.
  - cbn. lia.
  - exists recs. split; [exact Hst|]. split; [exact Hlen|exact Hds].
Defined.

(** ** The rise-and-fall example *)

Lemma peak_series_sorted : StronglySorted Z.lt (index peak_series).
Proof.
  apply Sorted_StronglySorted; [intros a b c; apply Z.lt_trans|].
  cbn. repeat (constructor; try reflexivity).
Qed.

Lemma peak_series_complete : complete_frame peak_series.
Proof.
  constructor; [split; reflexivity|constructor].
Qed.

(** C7, as stated, fails: the series has 20 points and the anchors are
    the timestamps from position 20 on, so the scan evaluates no point
    and stores no Statistic Record (not one). *)
Lemma peak_series_counterexample :
  let r := detector newton_sqrt linear_cdf quantile_975 ses_02
             (default_detector peak_series) 20 None "both" None in
  MK_statistics (fst r) = Some [] /\ snd r = Ok [].
Proof.
  vm_compute. split; reflexivity.
Qed.

(** C7 (as the code has it): on the 20-point series with
    [window_size = 20] the whole-series run passes its length check,
    evaluates no point and returns no change point; the test applied to
    the 20 values themselves has the anchor 19, Tau = -19/190 strictly
    between -1 and 1, and the label "no trend" under the threshold 0.8. *)
Theorem peak_series_scan
    (np_sqrt norm_cdf norm_ppf : Q -> Q) (SimpleExpSmoothing : Series -> ses_outcome) :
  ses_contract SimpleExpSmoothing ->
  (let r := detector np_sqrt norm_cdf norm_ppf SimpleExpSmoothing
              (default_detector peak_series) 20 None "both" None in
   MK_statistics (fst r) = Some [] /\ snd r = Ok [])
  /\ exists p Tau,
      MKtest np_sqrt norm_cdf norm_ppf (sample_detector false 20) peak_series
      = Ok (19, TrendStr "no trend", p, TauNum Tau)
      /\ (Tau == - (19 # 190))%Q /\ (-1 < Tau < 1)%Q.
Proof.
  intro Hses. split.
  - unfold detector. cbv zeta.
    set (ps := mkParams 20 None "both" None).
    change (data (set_params (default_detector peak_series) ps))
      with (Some peak_series).
    cbv iota beta.
    rewrite (dropna_axis1_complete _ peak_series_complete).
    destruct (run_scan_whole np_sqrt norm_cdf norm_ppf
                (set_ts (set_params (default_detector peak_series) ps) peak_series)
                ps eq_refl ltac:(cbn; lia) SimpleExpSmoothing peak_series Hses
                eq_refl eq_refl ltac:(cbn; lia) peak_series_sorted
                peak_series_complete ltac:(cbn; lia) eq_refl)
      as (recs & Hscan & Hrecs).
    change (skipn (window_size ps) (index peak_series)) with (@nil Z) in Hrecs.
    destruct recs; [|discriminate].
    rewrite Hscan. split; reflexivity.
  - pose proof (MKtest_result np_sqrt norm_cdf norm_ppf (sample_detector false 20)
                  (mkParams 20 None "both" None) peak_series "y"
                  (map (fun v => Some (inject_Z v)) peak_values) 19
                  eq_refl eq_refl eq_refl) as H.
    cbv zeta in H.
    set (x := drop_nan (py_tail 20 (map (fun v => Some (inject_Z v)) peak_values))) in *.
    specialize (H ltac:(vm_compute; lia)).
    set (Tau := (inject_Z (_mk_score x) / tau_denominator (length x))%Q) in *.
    assert (ETau : (Tau == - (19 # 190))%Q) by (vm_compute; reflexivity).
    rewrite (trend_below_threshold norm_cdf norm_ppf (sample_detector false 20) _ Tau)
      in H.
    + eexists. exists Tau. split; [exact H|]. split; [exact ETau|].
      rewrite ETau. split; reflexivity.
    + rewrite ETau. cbn [threshold sample_detector]. split; vm_compute; discriminate.
Qed.

Lemma peak_series_scan_witness :
  let r := detector newton_sqrt linear_cdf quantile_975 ses_02
             (default_detector peak_series) 20 None "both" None in
  MK_statistics (fst r) = Some [] /\ snd r = Ok [].
Proof.
  exact (proj1 (peak_series_scan newton_sqrt linear_cdf quantile_975 ses_02
                  ses_02_contract)).
Defined.

(** ** The ranker: the frame of a time point *)

Lemma existsb_eqb_In (k : string) (l : list string) :
  existsb (String.eqb k) l = true <-> In k l.
Proof.
  rewrite existsb_exists. split.
  - intros (x & Hx & E). apply String.eqb_eq in E. now subst.
  - intro H. exists k. split; [exact H|apply String.eqb_refl].
Qed.

Lemma add_keys_fresh (ks acc : list string) :
  NoDup (acc ++ ks) -> fold_left add_key ks acc = (acc ++ ks)%list.
Proof.
  revert acc. induction ks as [|k ks IH]; intros acc H; cbn [fold_left].
  - now rewrite app_nil_r.
  - assert (Hk : existsb (String.eqb k) acc = false).
    { apply not_true_is_false. rewrite existsb_eqb_In. intro Hin.
      apply NoDup_remove_2 in H. apply H. apply in_or_app. now left. }
    unfold add_key at 2. rewrite Hk.
    rewrite IH; rewrite <- app_assoc; [reflexivity|exact H].
Qed.

Lemma add_keys_present (ks acc : list string) :
  incl ks acc -> fold_left add_key ks acc = acc.
Proof.
  induction ks as [|k ks IH]; intro H; cbn [fold_left]; [reflexivity|].
  assert (Hk : existsb (String.eqb k) acc = true).
  { apply existsb_eqb_In, H. now left. }
  unfold add_key at 2. rewrite Hk. apply IH.
  intros x Hx. apply H. now right.
Qed.

Lemma from_dict_columns_same {V} (dicts : list (list (string * V)))
    (keys : list string) :
  dicts <> [] -> NoDup keys ->
  Forall (fun d => dict_keys d = keys) dicts ->
  from_dict_columns dicts = keys.
Proof.
  intros Hne Hnd Hall. unfold from_dict_columns.
  destruct dicts as [|d0 rest]; [contradiction|].
  inversion Hall as [|? ? Hd0 Hrest]; subst.
  cbn [fold_left]. rewrite add_keys_fresh by exact Hnd. cbn [app].
  clear Hall Hne. induction rest as [|d rest IH]; [reflexivity|].
  inversion Hrest as [|? ? Hd Hrest']; subst.
  cbn [fold_left]. rewrite Hd, add_keys_present by apply incl_refl.
  apply IH, Hrest'.
Qed.

Lemma dicts_of_records (keys : list string) (recs : list StatRecord) :
  Forall (multivariate_record keys) recs ->
  tau_dicts recs = Ok (map tau_dict_of recs)
  /\ trend_dicts recs = Ok (map trend_dict_of recs)
  /\ Forall (fun d => dict_keys d = keys) (map tau_dict_of recs)
  /\ Forall (fun d => dict_keys d = keys) (map trend_dict_of recs).
Proof.
  induction 1 as [|r recs (td & trd & Ht & Htr & Hk & Hk') _ (IH1 & IH2 & IH3 & IH4)].
  - repeat split; constructor.
  - assert (E1 : tau_dict_of r = td) by (unfold tau_dict_of; now rewrite Ht).
    assert (E2 : trend_dict_of r = trd) by (unfold trend_dict_of; now rewrite Htr).
    cbn [tau_dicts trend_dicts map]. rewrite Ht, Htr, IH1, IH2, E1, E2. cbn [bind].
    repeat split; try reflexivity; constructor; assumption.
Qed.

Lemma combine_map {A B C} (f : A -> B) (g : A -> C) (l : list A) :
  combine (map f l) (map g l) = map (fun a => (f a, g a)) l.
Proof.
  induction l as [|a l IH]; simpl; [reflexivity|]. now rewrite IH.
Qed.

Lemma filter_flat_map {A B} (f : B -> bool) (g : A -> list B) (l : list A) :
  filter f (flat_map g l) = flat_map (fun a => filter f (g a)) l.
Proof.
  induction l as [|a l IH]; simpl; [reflexivity|].
  now rewrite filter_app, IH.
Qed.

Lemma filter_map_swap {A B} (f : B -> bool) (g : A -> B) (l : list A) :
  filter f (map g l) = map g (filter (fun a => f (g a)) l).
Proof.
  induction l as [|a l IH]; simpl; [reflexivity|].
  destruct (f (g a)); simpl; now rewrite IH.
Qed.

Lemma flat_map_singleton {A B} (h : A -> B) (l : list A) :
  flat_map (fun a => [h a]) l = map h l.
Proof.
  induction l as [|a l IH]; simpl; [reflexivity|]. now rewrite IH.
Qed.

Lemma filter_ds_unique (recs : list StatRecord) (r0 : StatRecord) (tp : Z) :
  NoDup (map ds recs) -> In r0 recs -> ds r0 = tp ->
  filter (fun r => ds r =? tp) recs = [r0].
Proof.
  intros Hnd Hin Hds. induction recs as [|r recs IH]; [contradiction|].
  cbn [map] in Hnd. inversion Hnd as [|? ? Hnotin Hnd']; subst.
  cbn [filter]. destruct Hin as [->|Hin].
  - rewrite Z.eqb_refl. f_equal. apply filter_none.
    apply Forall_forall. intros r' Hr'.
    destruct (Z.eqb_spec (ds r') (ds r0)) as [E|E]; [|reflexivity].
    exfalso. apply Hnotin. rewrite <- E. now apply in_map.
  - destruct (Z.eqb_spec (ds r) (ds r0)) as [E|E].
    + exfalso. apply Hnotin. rewrite E. now apply in_map.
    + now apply IH.
Qed.

(** the melted frame, cut to one time point: one row per column *)
Lemma melt_at {V} (cols : list string) (recs : list StatRecord)
    (dict_of : StatRecord -> list (string * option V)) (r0 : StatRecord) (tp : Z) :
  NoDup (map ds recs) -> In r0 recs -> ds r0 = tp ->
  filter (fun r => fst (fst r) =? tp)
         (melt (cols, combine (map ds recs) (map dict_of recs)))
  = map (fun m => (tp, m, cell m (dict_of r0))) cols.
Proof.
  intros Hnd Hin Hds. unfold melt. cbn [fst snd].
  rewrite <- (flat_map_singleton (fun m => (tp, m, cell m (dict_of r0))) cols).
  rewrite filter_flat_map, combine_map.
  apply flat_map_ext. intro m.
  rewrite filter_map_swap, filter_map_swap. cbn [fst snd].
  rewrite (filter_ds_unique recs r0 tp Hnd Hin Hds). cbn [map fst snd].
  now rewrite Hds.
Qed.

Lemma merge_row_absent (tp : Z) (m : string) (tau : option Q)
    (g : string -> option string) (cols : list string) :
  ~ In m cols ->
  flat_map (fun r : Z * string * option string =>
              let '(t', m', tr) := r in
              if (t' =? tp) && String.eqb m' m then [mkRow tp m tau tr] else [])
           (map (fun m' => (tp, m', g m')) cols)
  = [].
Proof.
  induction cols as [|c cols IH]; intro Hnotin; [reflexivity|].
  cbn [map flat_map]. rewrite Z.eqb_refl. cbn [andb].
  destruct (String.eqb_spec c m) as [->|_].
  - exfalso. apply Hnotin. now left.
  - cbn [app]. apply IH. intro H. apply Hnotin. now right.
Qed.

Lemma merge_row (tp : Z) (m : string) (tau : option Q) (g : string -> option string)
    (cols : list string) :
  NoDup cols -> In m cols ->
  flat_map (fun r : Z * string * option string =>
              let '(t', m', tr) := r in
              if (t' =? tp) && String.eqb m' m then [mkRow tp m tau tr] else [])
           (map (fun m' => (tp, m', g m')) cols)
  = [mkRow tp m tau (g m)].
Proof.
  intros Hnd Hin. induction cols as [|c cols IH]; [contradiction|].
  inversion Hnd as [|? ? Hnotin Hnd']; subst.
  cbn [map flat_map]. rewrite Z.eqb_refl. cbn [andb].
  destruct Hin as [->|Hin].
  - rewrite String.eqb_refl. cbn [app]. f_equal.
    now apply merge_row_absent.
  - destruct (String.eqb_spec c m) as [->|_]; [contradiction|].
    cbn [app]. now apply IH.
Qed.

Lemma merge_aligned (tp : Z) (f : string -> option Q) (g : string -> option string)
    (cols : list string) :
  NoDup cols ->
  merge (map (fun m => (tp, m, f m)) cols) (map (fun m => (tp, m, g m)) cols)
  = map (fun m => mkRow tp m (f m) (g m)) cols.
Proof.
  intro Hnd. unfold merge.
  assert (H : forall l, incl l cols ->
            flat_map (fun l0 : Z * string * option Q =>
                        let '(t, m, tau) := l0 in
                        flat_map (fun r : Z * string * option string =>
                                    let '(t', m', tr) := r in
                                    if (t' =? t) && String.eqb m' m
                                    then [mkRow t m tau tr] else [])
                                 (map (fun m => (tp, m, g m)) cols))
                     (map (fun m => (tp, m, f m)) l)
            = map (fun m => mkRow tp m (f m) (g m)) l).
  { induction l as [|m l IH]; intro Hl; [reflexivity|].
    cbn [map flat_map].
    rewrite (merge_row tp m (f m) g cols Hnd) by (apply Hl; now left).
    cbn [app]. f_equal. apply IH. intros x Hx. apply Hl. now right. }
  apply H, incl_refl.
Qed.

Lemma metric_names_NoDup (keys : list string) :
  NoDup keys -> NoDup (metric_names keys).
Proof.
  intro H. unfold metric_names. now apply NoDup_filter, NoDup_filter.
Qed.

Lemma metric_names_no_overall (keys : list string) :
  Forall (fun m => m <> "overall") (metric_names keys).
Proof.
  apply Forall_forall. intros m Hm. unfold metric_names in Hm.
  apply filter_In in Hm as [Hm _]. apply filter_In in Hm as [_ Hm].
  intro E. subst. discriminate.
Qed.

(** ** The ranker: sorting and reindexing *)

Lemma reindex_from (pre rows : list MetricRow) (keys : list (option Q)) :
  length keys = length rows ->
  reindex (pre ++ rows) (combine (seq (length pre) (length rows)) keys) = rows.
Proof.
  revert pre keys. induction rows as [|r rows IH]; intros pre keys Hl.
  - reflexivity.
  - destruct keys as [|k keys]; [discriminate|]. injection Hl as Hl.
    cbn [length seq combine]. unfold reindex. cbn [flat_map fst].
    rewrite nth_error_app2 by apply Nat.le_refl. rewrite Nat.sub_diag.
    cbn [nth_error app]. f_equal.
    specialize (IH (pre ++ [r])%list keys Hl).
    rewrite <- app_assoc, length_app in IH. cbn [length app] in IH.
    rewrite Nat.add_1_r in IH. exact IH.
Qed.

Lemma reindex_tau_series (key : option Q -> option Q) (rows : list MetricRow) :
  reindex rows (tau_series key rows) = rows.
Proof.
  unfold tau_series. apply (reindex_from [] rows). apply length_map.
Qed.

Lemma reindex_perm (rows : list MetricRow) (s s' : list (nat * option Q)) :
  Permutation s s' -> Permutation (reindex rows s) (reindex rows s').
Proof.
  intro H. unfold reindex. now apply Permutation_flat_map.
Qed.

Lemma tau_series_from (key : option Q -> option Q) (pre rows : list MetricRow) :
  Forall (fun e => exists r, nth_error (pre ++ rows) (fst e) = Some r
                             /\ snd e = key (row_Tau r))
         (combine (seq (length pre) (length rows))
                  (map (fun r => key (row_Tau r)) rows)).
Proof.
  revert pre. induction rows as [|r rows IH]; intro pre; [constructor|].
  cbn [length seq map combine]. constructor.
  - exists r. cbn [fst snd]. split; [|reflexivity].
    rewrite nth_error_app2 by apply Nat.le_refl. now rewrite Nat.sub_diag.
  - specialize (IH (pre ++ [r])%list).
    rewrite <- app_assoc, length_app in IH. cbn [length app] in IH.
    rewrite Nat.add_1_r in IH. exact IH.
Qed.

Lemma reindex_values (key : option Q -> option Q) (rows : list MetricRow)
    (sorted : list (nat * option Q)) :
  Forall (fun e => exists r, nth_error rows (fst e) = Some r
                             /\ snd e = key (row_Tau r)) sorted ->
  map (fun r => key (row_Tau r)) (reindex rows sorted) = map snd sorted.
Proof.
  induction 1 as [|e sorted (r & Hr & He) _ IH]; [reflexivity|].
  unfold reindex in *. cbn [flat_map map]. rewrite Hr. cbn [app map].
  now rewrite IH, He.
Qed.

(** sorting the |Tau| column in descending order and reindexing the
    frame by the result: the rows are reordered, by descending |Tau| *)
Lemma rank_by_abs_tau
    (sort_values : bool -> list (nat * option Q) -> list (nat * option Q))
    (rows : list MetricRow) :
  sort_contract sort_values ->
  let ranked := reindex rows (sort_values false (tau_series (option_map Qabs) rows)) in
  Permutation rows ranked
  /\ descending (map (fun r => option_map Qabs (row_Tau r)) ranked).
Proof.
  intros [Hperm Hdesc] ranked. subst ranked.
  set (s := tau_series (option_map Qabs) rows).
  split.
  - rewrite <- (reindex_tau_series (option_map Qabs) rows) at 1.
    apply reindex_perm, Hperm.
  - rewrite (reindex_values (option_map Qabs)).
    + apply Hdesc.
    + eapply Permutation_Forall; [apply (Hperm false)|].
      apply (tau_series_from (option_map Qabs) [] rows).
Qed.

(** ** The ranker: [get_top_k_metrics] *)

(** C9 (as the code has it): after a multivariate run with the
    direction "both", [get_top_k_metrics] returns, for an evaluated
    time point, the per-metric entries of its record ([overall] left
    out) reordered by descending |Tau|, cut to the first [top_k] when
    [top_k] is given; the order of metrics of equal |Tau| is whatever
    [sort_values] gives, which its contract does not fix. *)
Theorem top_k_metrics_ranked
    (sort_values : bool -> list (nat * option Q) -> list (nat * option Q))
    (self : MKDetector) (ps : RunParams) (recs : list StatRecord)
    (r0 : StatRecord) (td : list (string * option Q))
    (trd : list (string * option string)) (time_point tp : Z) (top_k : option nat) :
  sort_contract sort_values ->
  multivariate self = true ->
  params self = Some ps ->
  direction ps = "both" ->
  MK_statistics self = Some recs ->
  multivariate_statistics recs ->
  looked_up_time_point self ps time_point tp ->
  In r0 recs -> ds r0 = tp ->
  Tau r0 = TauDict td -> trend_direction r0 = TrendDict trd ->
  exists ranked,
    get_top_k_metrics sort_values self time_point top_k
    = Ok (match top_k with None => ranked | Some k => firstn k ranked end)
    /\ Permutation (metric_entries tp td trd) ranked
    /\ descending (map (fun r => option_map Qabs (row_Tau r)) ranked)
    /\ Forall (fun r => metric r <> "overall") ranked.
Proof.
  intros Hsort Hmulti Hps Hdir Hst (Hnd & keys & Hkeys & Hov & Hrecs)
         Htp Hin Hds HTau Htrend.
  destruct (dicts_of_records keys recs Hrecs) as (Etau & Etrend & Ktau & Ktrend).
  assert (Hne : recs <> []) by (intro E; rewrite E in Hin; contradiction).
  assert (Ctau : from_dict_columns (map tau_dict_of recs) = keys).
  { apply from_dict_columns_same; try assumption.
    destruct recs; [contradiction|discriminate]. }
  assert (Ctrend : from_dict_columns (map trend_dict_of recs) = keys).
  { apply from_dict_columns_same; try assumption.
    destruct recs; [contradiction|discriminate]. }
  assert (Hcols : metric_columns keys = Ok (metric_names keys)).
  { unfold metric_columns.
    assert (E : existsb (String.eqb "overall") keys = true)
      by (now apply existsb_eqb_In).
    now rewrite E. }
  assert (Etd : tau_dict_of r0 = td) by (unfold tau_dict_of; now rewrite HTau).
  assert (Etrd : trend_dict_of r0 = trd) by (unfold trend_dict_of; now rewrite Htrend).
  assert (Ektd : dict_keys td = keys).
  { rewrite Forall_forall in Ktau. rewrite <- Etd. apply Ktau. now apply in_map. }
  pose proof (metric_names_NoDup keys Hkeys) as Hnames.
  set (rows := metric_entries tp td trd).
  destruct (rank_by_abs_tau sort_values rows Hsort) as [Hperm Hdesc].
  exists (reindex rows (sort_values false (tau_series (option_map Qabs) rows))).
  split; [|split; [exact Hperm|split; [exact Hdesc|]]].
  - unfold get_top_k_metrics, _metrics_analysis, get_MK_statistics, get_params.
    rewrite Hmulti, Hst, Hps. cbn [negb bind].
    rewrite Etau. cbn [bind]. rewrite Ctau, Hcols. cbn [bind].
    rewrite Etrend. cbn [bind]. rewrite Ctrend, Hcols. cbn [bind fst snd].
    assert (Elook : match training_days ps with
                    | Some _ => match data self with
                                | Some d => last_label (index d)
                                | None => Raise (AttributeError "time")
                                end
                    | None => Ok time_point
                    end = Ok tp).
    { unfold looked_up_time_point in Htp. destruct (training_days ps).
      - destruct Htp as (d & Hd & Hl). now rewrite Hd.
      - now subst. }
    rewrite Elook. cbn [bind].
    rewrite (melt_at (metric_names keys) recs tau_dict_of r0 tp Hnd Hin Hds).
    rewrite (melt_at (metric_names keys) recs trend_dict_of r0 tp Hnd Hin Hds).
    rewrite (merge_aligned tp (fun m => cell m (tau_dict_of r0))
               (fun m => cell m (trend_dict_of r0)) (metric_names keys) Hnames).
    rewrite Etd, Etrd, Hdir. cbn [String.eqb Ascii.eqb Bool.eqb bind].
    unfold rows, metric_entries. rewrite Ektd.
    destruct top_k; reflexivity.
  - eapply Permutation_Forall; [exact Hperm|].
    unfold rows, metric_entries. rewrite Forall_map.
    eapply Forall_impl; [|apply metric_names_no_overall].
    intros m Hm. exact Hm.
Qed.

(** ** A sort that meets the contract and reverses ties *)

Lemma StronglySorted_app {A} (R : A -> A -> Prop) (l1 l2 : list A) :
  StronglySorted R l1 -> StronglySorted R l2 ->
  (forall a b, In a l1 -> In b l2 -> R a b) ->
  StronglySorted R (l1 ++ l2).
Proof.
  intros H1 H2 H. induction H1 as [|a l1 Hs IH Ha]; [exact H2|].
  cbn [app]. constructor.
  - apply IH. intros x y Hx Hy. apply H; [now right|exact Hy].
  - apply Forall_app. split; [exact Ha|].
    apply Forall_forall. intros y Hy. apply H; [now left|exact Hy].
Qed.

Lemma StronglySorted_rev {A} (R : A -> A -> Prop) (l : list A) :
  StronglySorted R l -> StronglySorted (fun a b => R b a) (rev l).
Proof.
  induction 1 as [|a l Hs IH Ha]; [constructor|].
  cbn [rev]. apply StronglySorted_app; [exact IH|repeat constructor|].
  intros x y Hx [<-|[]]. rewrite Forall_forall in Ha. apply Ha.
  now apply in_rev.
Qed.

Lemma StronglySorted_map {A B} (R : B -> B -> Prop) (f : A -> B) (l : list A) :
  StronglySorted (fun a b => R (f a) (f b)) l -> StronglySorted R (map f l).
Proof.
  induction 1 as [|a l Hs IH Ha]; [constructor|].
  cbn [map]. constructor; [exact IH|]. now rewrite Forall_map.
Qed.

Lemma StronglySorted_impl_in {A} (R R' : A -> A -> Prop) (l : list A) :
  (forall a b, In a l -> In b l -> R a b -> R' a b) ->
  StronglySorted R l -> StronglySorted R' l.
Proof.
  intros H Hs. induction Hs as [|a l Hs IH Ha]; [constructor|].
  constructor.
  - apply IH. intros x y Hx Hy. apply H; now right.
  - rewrite Forall_forall in *. intros y Hy. apply H; [now left|now right|].
    now apply Ha.
Qed.

Lemma partition_perm {A} (f : A -> bool) (l : list A) :
  Permutation l (filter (fun a => negb (f a)) l ++ filter f l).
Proof.
  induction l as [|a l IH]; [constructor|].
  cbn [filter]. destruct (f a); cbn [negb app].
  - now apply Permutation_cons_app.
  - now constructor.
Qed.

Lemma cell_leb_total (a b : nat * option Q) :
  cell_leb a b = false -> cell_leb b a = true.
Proof.
  unfold cell_leb. destruct (snd a), (snd b); try reflexivity; try discriminate.
  apply Qle_bool_total.
Qed.

Lemma cell_leb_trans (a b c : nat * option Q) :
  cell_leb a b = true -> cell_leb b c = true -> cell_leb a c = true.
Proof.
  unfold cell_leb. destruct (snd a), (snd b), (snd c);
    try reflexivity; try discriminate.
  apply Qle_bool_trans.
Qed.

Lemma reversed_sort_contract : sort_contract reversed_sort_values.
Proof.
  split.
  - intros [|] s; unfold reversed_sort_values.
    + apply sort_perm.
    + eapply perm_trans; [apply (partition_perm (fun e => is_nan (snd e)))|].
      apply Permutation_app_tail.
      eapply perm_trans; [apply (sort_perm cell_leb)|apply Permutation_rev].
  - intro s. unfold reversed_sort_values, descending.
    set (good := filter (fun e => negb (is_nan (snd e))) s).
    set (bad := filter (fun e => is_nan (snd e)) s).
    assert (Hgood : forall e, In e (sort cell_leb good) -> is_nan (snd e) = false).
    { intros e He.
      apply (Permutation_in _ (Permutation_sym (sort_perm cell_leb good))) in He.
      apply filter_In in He as [_ He]. now apply negb_true_iff. }
    assert (Hbad : forall e, In e bad -> snd e = None).
    { intros e He. apply filter_In in He as [_ He].
      destruct (snd e); [discriminate|reflexivity]. }
    rewrite map_app. apply StronglySorted_app.
    + apply StronglySorted_map.
      apply (StronglySorted_impl_in (fun a b => cell_leb b a = true)).
      * intros a b Ha Hb Hab. apply in_rev in Ha, Hb.
        apply Hgood in Ha, Hb. unfold cell_leb in Hab.
        destruct (snd a), (snd b); try discriminate.
        simpl. now apply Qle_bool_iff.
      * apply StronglySorted_rev.
        apply sort_sorted; [exact cell_leb_total|exact cell_leb_trans].
    + apply StronglySorted_map.
      apply (StronglySorted_impl_in (fun _ _ => True)).
      * intros a b Ha Hb _. rewrite (Hbad b Hb). now destruct (snd a).
      * clear. induction bad as [|e bad IH]; constructor; [exact IH|].
        apply Forall_forall. intros; exact I.
    + intros a b Ha Hb. apply in_map_iff in Hb as (e & <- & He).
      rewrite (Hbad e He). now destruct a.
Qed.

(** C9, as stated, fails on the order of ties: with a sort that meets
    the contract of [sort_values] and is written as an ascending argsort
    read backwards, the metrics [a], [b], [c] of equal |Tau| come out as
    [c], [b], [a], not in column order. *)
Lemma top_k_metrics_tie_order_counterexample :
  sort_contract reversed_sort_values
  /\ option_map (map (fun c => fst c)) (option_map columns (ts twin_run))
     = Some ["a"; "b"; "c"]
  /\ match get_top_k_metrics reversed_sort_values twin_run 5 None with
     | Ok rows => map (fun r => (metric r, option_map Qabs (row_Tau r))) rows
     | Raise _ => []
     end
     = [("c", Some (20 # 20)); ("b", Some (20 # 20)); ("a", Some (20 # 20))].
Proof.
  split; [exact reversed_sort_contract|]. split; vm_compute; reflexivity.
Qed.

Lemma top_k_metrics_ranked_witness :
  exists ranked,
    get_top_k_metrics reversed_sort_values twin_run 5 (Some 2%nat)
    = Ok (firstn 2 ranked)
    /\ length ranked = 3%nat
    /\ Forall (fun r => metric r <> "overall") ranked.
Proof.
  destruct (MK_statistics twin_run) as [recs|] eqn:Hrecs; [|discriminate].
  vm_compute in Hrecs. injection Hrecs as Hrecs.
  destruct recs as [|r0 [|r1 recs]]; try discriminate. injection Hrecs as Hr0.
  destruct (top_k_metrics_ranked reversed_sort_values twin_run
              (mkParams 5 None "both" None) [r0] r0
              [("a", Some (20 # 20)); ("b", Some (20 # 20));
               ("c", Some (-20 # 20)); ("overall", Some (80 # 240))]
              [("a", Some "increasing"); ("b", Some "increasing");
               ("c", Some "decreasing"); ("overall", Some "no trend")]
              5 5 (Some 2%nat) reversed_sort_contract eq_refl eq_refl eq_refl)
    as (ranked & Hr & Hperm & _ & Hov).
  - vm_compute. now rewrite Hr0.
  - split; [rewrite <- Hr0; repeat constructor; intros []|].
    exists ["a"; "b"; "c"; "overall"]. split.
    + repeat constructor; cbn; intuition discriminate.
    + split; [cbn; tauto|]. constructor; [|constructor].
      rewrite <- Hr0. eexists. eexists. repeat split; reflexivity.
  - reflexivity.
  - now left.
  - now rewrite <- Hr0.
  - now rewrite <- Hr0.
  - now rewrite <- Hr0.
  - exists ranked. split; [exact Hr|]. split; [|exact Hov].
    rewrite <- (Permutation_length Hperm). reflexivity.
Defined.

(** ** The records of a multivariate whole-series run *)

Lemma run_keys (names : list string) :
  NoDup names -> ~ In "overall" names ->
  add_key (fold_left add_key names []) "overall" = (names ++ ["overall"])%list.
Proof.
  intros Hnd Hov. rewrite add_keys_fresh by exact Hnd. cbn [app].
  unfold add_key.
  assert (E : existsb (String.eqb "overall") names = false).
  { apply not_true_is_false. now rewrite existsb_eqb_In. }
  now rewrite E.
Qed.

Lemma loc_upto_names (t : Z) (sm : DataFrame) :
  map fst (columns (loc_upto t sm)) = map fst (columns sm).
Proof.
  unfold loc_upto, df_rows, map_columns. cbn [columns]. now rewrite map_map.
Qed.

Section ScanShape.
Variables np_sqrt norm_cdf norm_ppf : Q -> Q.
Variable self : MKDetector.
Variable ps : RunParams.
Variable names : list string.
Hypothesis self_params : params self = Some ps.
Hypothesis self_multivariate : multivariate self = true.
Hypothesis window_two : (2 <= window_size ps)%nat.
Hypothesis names_distinct : NoDup names.
Hypothesis names_no_overall : ~ In "overall" names.

Lemma runDetector_multivariate_shape (f : DataFrame) (pre : list Z) (t : Z) :
  index f = (pre ++ [t])%list ->
  (window_size ps <= nrows f)%nat ->
  complete_frame f ->
  (2 <= ncols f)%nat ->
  map fst (columns f) = names ->
  exists r,
    runDetector np_sqrt norm_cdf norm_ppf self f = Ok r
    /\ ds r = t
    /\ multivariate_record (names ++ ["overall"]) r.
Proof.
  intros Hi Hw Hc Hcols Hnames.
  assert (Ht : last_label (index f) = Ok t) by (rewrite Hi; apply last_label_app).
  pose proof (window_columns_complete ps f Hc ltac:(lia)) as Hlen.
  assert (Hnz : ~ (pooled_denominator (window_columns ps f) == 0)%Q).
  { assert (Hpos : (0 < pooled_denominator (window_columns ps f))%Q).
    { apply pooled_denominator_fold_pos.
      - unfold window_columns, ncols in *.
        destruct (columns f); simpl in *; [lia|discriminate].
      - eapply Forall_impl; [|exact Hlen]. intros x Hx. cbv beta in Hx. lia. }
    lra. }
  destruct (multivariate_MKtest_result np_sqrt norm_cdf norm_ppf self ps f t
              self_params Hcols Ht Hnz) as (trd & td & Hr & _ & _ & Hk & Hk').
  rewrite Hnames, (run_keys names names_distinct names_no_overall) in Hk, Hk'.
  unfold runDetector. rewrite self_multivariate, Hr. cbn [bind].
  eexists. split; [reflexivity|]. split; [reflexivity|].
  exists td, trd. cbn [Tau trend_direction]. repeat split; assumption.
Qed.

Lemma scan_anchors_shape (sm : DataFrame) (anchors pre : list Z)
    (acc : list StatRecord) :
  index sm = (pre ++ anchors)%list ->
  StronglySorted Z.lt (index sm) ->
  complete_frame sm ->
  (2 <= ncols sm)%nat ->
  map fst (columns sm) = names ->
  (window_size ps <= length pre)%nat ->
  exists recs,
    scan_anchors np_sqrt norm_cdf norm_ppf self sm anchors acc = Ok (acc ++ recs)%list
    /\ map ds recs = anchors
    /\ Forall (multivariate_record (names ++ ["overall"])) recs.
Proof.
  intros Hi Hs Hc Hcols Hnames. revert pre acc Hi.
  induction anchors as [|t rest IH]; intros pre acc Hi Hw.
  - exists []. cbn [scan_anchors]. rewrite app_nil_r. repeat split. constructor.
  - destruct (loc_upto_complete sm pre t rest Hi Hs Hc) as (Hi' & Hc' & Hn').
    destruct (runDetector_multivariate_shape (loc_upto t sm) pre t Hi')
      as (r & Hr & Hds & Hshape).
    + unfold nrows. rewrite Hi', length_app. simpl. lia.
    + exact Hc'.
    + lia.
    + now rewrite loc_upto_names.
    + cbn [scan_anchors]. rewrite Hr. cbn [bind].
      destruct (IH (pre ++ [t])%list (acc ++ [r])%list)
        as (recs & Hscan & Hrecs & Hall).
      * rewrite <- app_assoc. exact Hi.
      * rewrite length_app. simpl. lia.
      * exists (r :: recs). rewrite Hscan, <- app_assoc. cbn [app map].
        rewrite Hds, Hrecs. split; [reflexivity|]. split; [reflexivity|].
        now constructor.
Qed.

(** a multivariate whole-series scan of a complete series whose
    columns have distinct names, none of them "overall", leaves records
    of the shape the ranker is stated for *)
Lemma run_scan_multivariate_statistics
    (SimpleExpSmoothing : Series -> ses_outcome) (d : DataFrame) :
  ses_contract SimpleExpSmoothing ->
  training_days ps = None ->
  freq ps = None ->
  (window_size ps <= nrows d)%nat ->
  StronglySorted Z.lt (index d) ->
  complete_frame d ->
  (2 <= ncols d)%nat ->
  map fst (columns d) = names ->
  exists recs,
    run_scan np_sqrt norm_cdf norm_ppf SimpleExpSmoothing self ps d = Ok recs
    /\ map ds recs = skipn (window_size ps) (index d)
    /\ multivariate_statistics recs.
Proof.
  intros Hses Htd Hfreq Hw Hs Hc Hcols Hnames.
  unfold run_scan. rewrite Htd, Hfreq.
  assert (Hlt : (nrows d <? window_size ps)%nat = false) by (apply Nat.ltb_ge; lia).
  rewrite Hlt. cbn [_remove_seasonality bind].
  destruct (smoothing_complete SimpleExpSmoothing d Hses (sorted_NoDup _ Hs))
    as (sm & Hsm & Hi & Hn & Hcsm).
  - unfold nrows in Hw. destruct (index d); [simpl in Hw; lia|discriminate].
  - unfold ncols in Hcols. destruct (columns d); [simpl in Hcols; lia|discriminate].
  - exact Hc.
  - rewrite Hsm. cbn [bind]. rewrite Hi.
    assert (Hnc : ncols sm = ncols d).
    { unfold ncols. rewrite <- (length_map fst (columns sm)), Hn.
      apply length_map. }
    destruct (scan_anchors_shape sm (skipn (window_size ps) (index d))
                (firstn (window_size ps) (index d)) [])
      as (recs & Hscan & Hrecs & Hall).
    + rewrite Hi. symmetry. apply firstn_skipn.
    + rewrite Hi. exact Hs.
    + exact Hcsm.
    + lia.
    + now rewrite Hn.
    + rewrite length_firstn. unfold nrows in Hw. lia.
    + exists recs. split; [exact Hscan|]. split; [exact Hrecs|].
      split.
      * rewrite Hrecs. apply sorted_NoDup, sorted_skipn, Hs.
      * exists (names ++ ["overall"])%list. split; [|split; [|exact Hall]].
        -- apply NoDup_app; [exact names_distinct|repeat constructor; intros []|].
           intros x Hx [<-|[]]. contradiction.
        -- apply in_or_app. right. now left.
Qed.
End ScanShape.

(** the hypotheses of the ranking theorem hold after a multivariate
    whole-series run: every anchor has its record in [MK_statistics],
    and the records have the shape of multivariate statistics *)
Lemma multivariate_run_statistics
    (np_sqrt norm_cdf norm_ppf : Q -> Q) (SimpleExpSmoothing : Series -> ses_outcome)
    (self : MKDetector) (d : DataFrame) (W : nat) (direction : string) :
  ses_contract SimpleExpSmoothing ->
  data self = Some d ->
  multivariate self = true ->
  complete_frame d ->
  StronglySorted Z.lt (index d) ->
  (2 <= ncols d)%nat ->
  NoDup (map fst (columns d)) ->
  ~ In "overall" (map fst (columns d)) ->
  (2 <= W <= nrows d)%nat ->
  let self' := fst (detector np_sqrt norm_cdf norm_ppf SimpleExpSmoothing
                      self W None direction None) in
  multivariate self' = true
  /\ params self' = Some (mkParams W None direction None)
  /\ exists recs,
      MK_statistics self' = Some recs
      /\ map ds recs = skipn W (index d)
      /\ multivariate_statistics recs.
Proof.
  intros Hses Hd Hm Hc Hs Hcols Hnd Hov HW self'. subst self'.
  unfold detector. cbv zeta.
  set (ps := mkParams W None direction None).
  change (data (set_params self ps)) with (data self). rewrite Hd. cbv iota beta.
  rewrite (dropna_axis1_complete d Hc).
  destruct (run_scan_multivariate_statistics np_sqrt norm_cdf norm_ppf
              (set_ts (set_params self ps) d) ps (map fst (columns d))
              eq_refl Hm ltac:(cbn; lia) Hnd Hov SimpleExpSmoothing d
              Hses eq_refl eq_refl ltac:(cbn; lia) Hs Hc Hcols eq_refl)
    as (recs & Hscan & Hrecs & Hshape).
  rewrite Hscan. cbn [fst MK_statistics set_MK_statistics multivariate params
                       set_ts set_params].
  split; [exact Hm|]. split; [reflexivity|].
  exists recs. split; [reflexivity|]. split; [exact Hrecs|exact Hshape].
Qed.

(** with a sort that keeps equal cells in their order the same three
    metrics come out in column order: the order of ties is the sort's *)
Lemma stable_sort_keeps_column_order :
  match get_top_k_metrics stable_sort_values twin_run 5 None with
  | Ok rows => map metric rows
  | Raise _ => []
  end
  = ["a"; "b"; "c"].
Proof.
  vm_compute. reflexivity.
Qed.

(** * Further properties *)

(** ** The score: bounds and monotone sequences *)

Lemma np_sign_bound (q : Q) : -1 <= np_sign q <= 1.
Proof.
  unfold np_sign. destruct (q ?= 0)%Q; lia.
Qed.

Lemma pair_fold_acc (xk : Q) (rest : list Q) (s : Z) :
  fold_left (fun s xj => s + np_sign (xj - xk)) rest s = s + pair_signs xk rest.
Proof.
  unfold pair_signs. revert s. induction rest as [|xj rest IH]; intro s; simpl.
  - lia.
  - rewrite IH, (IH (np_sign (xj - xk))). lia.
Qed.

Lemma pair_signs_cons (xk xj : Q) (rest : list Q) :
  pair_signs xk (xj :: rest) = np_sign (xj - xk) + pair_signs xk rest.
Proof.
  unfold pair_signs at 1. simpl. apply pair_fold_acc.
Qed.

Lemma pair_signs_bound (xk : Q) (rest : list Q) :
  Z.abs (pair_signs xk rest) <= Z.of_nat (length rest).
Proof.
  induction rest as [|xj rest IH].
  - reflexivity.
  - rewrite pair_signs_cons. pose proof (np_sign_bound (xj - xk)).
    cbn [length]. lia.
Qed.

Lemma mk_score_from_acc (x : list Q) (s : Z) :
  mk_score_from s x = s + _mk_score x.
Proof.
  unfold _mk_score. revert s. induction x as [|xk rest IH]; intro s; simpl.
  - lia.
  - rewrite IH, (IH (fold_left _ rest 0)), pair_fold_acc.
    fold (pair_signs xk rest). lia.
Qed.

Lemma mk_score_cons (xk : Q) (rest : list Q) :
  _mk_score (xk :: rest) = pair_signs xk rest + _mk_score rest.
Proof.
  unfold _mk_score at 1. simpl. fold (pair_signs xk rest).
  apply mk_score_from_acc.
Qed.

Lemma mk_score_abs (x : list Q) :
  Z.abs (2 * _mk_score x) <= len x * (len x - 1).
Proof.
  unfold len. induction x as [|xk rest IH].
  - reflexivity.
  - rewrite mk_score_cons. pose proof (pair_signs_bound xk rest) as Hp.
    cbn [length]. rewrite Nat2Z.inj_succ. nia.
Qed.

Lemma pair_signs_uniform (sigma : Z) (xk : Q) (rest : list Q) :
  Forall (fun xj => np_sign (xj - xk) = sigma) rest ->
  pair_signs xk rest = sigma * Z.of_nat (length rest).
Proof.
  induction 1 as [|xj rest Hx _ IH].
  - change (pair_signs xk []) with 0. cbn [length]. lia.
  - rewrite pair_signs_cons, Hx, IH. cbn [length]. lia.
Qed.

Lemma mk_score_uniform (sigma : Z) (x : list Q) :
  StronglySorted (fun a b => np_sign (b - a) = sigma) x ->
  2 * _mk_score x = sigma * (len x * (len x - 1)).
Proof.
  unfold len. induction 1 as [|xk rest _ IH Hx].
  - change (_mk_score []) with 0. cbn [length]. lia.
  - rewrite mk_score_cons, (pair_signs_uniform sigma xk rest Hx).
    cbn [length]. rewrite Nat2Z.inj_succ. nia.
Qed.

Lemma np_sign_pos (q : Q) : (0 < q)%Q -> np_sign q = 1.
Proof.
  intro H. unfold np_sign. destruct (Qcompare_spec q 0); [lra|lra|reflexivity].
Qed.

Lemma np_sign_neg (q : Q) : (q < 0)%Q -> np_sign q = -1.
Proof.
  intro H. unfold np_sign. destruct (Qcompare_spec q 0); [lra|reflexivity|lra].
Qed.

Lemma np_sign_zero (q : Q) : (q == 0)%Q -> np_sign q = 0.
Proof.
  intro H. unfold np_sign. destruct (Qcompare_spec q 0); [reflexivity|lra|lra].
Qed.

Lemma StronglySorted_weaken {A} (R R' : A -> A -> Prop) (l : list A) :
  (forall a b, R a b -> R' a b) -> StronglySorted R l -> StronglySorted R' l.
Proof.
  intros H Hs. apply (StronglySorted_impl_in R R'); [|exact Hs].
  intros a b _ _. apply H.
Qed.

Lemma tau_of_score (S : Z) (n : nat) (sigma : Z) :
  (2 <= n)%nat ->
  2 * S = sigma * (Z.of_nat n * (Z.of_nat n - 1)) ->
  exists Tau, py_div (inject_Z S) (tau_denominator n) = Ok Tau
              /\ (Tau == inject_Z sigma)%Q.
Proof.
  intros Hn HS. pose proof (tau_denominator_pos n Hn) as Hpos.
  eexists. split; [apply py_div_ok; lra|].
  assert (E : (inject_Z S * 2 == inject_Z sigma * (inject_Z (Z.of_nat n)
                                    * inject_Z (Z.of_nat n - 1)))%Q).
  { rewrite <- !inject_Z_mult. change 2%Q with (inject_Z 2).
    rewrite <- inject_Z_mult. apply inject_Z_injective. lia. }
  assert (E' : (inject_Z S == inject_Z sigma * tau_denominator n)%Q).
  { unfold tau_denominator.
    setoid_replace (inject_Z S) with (inject_Z S * 2 * (1 # 2))%Q by ring.
    rewrite E. ring. }
  rewrite E'. field. lra.
Qed.

(** X1: a strictly increasing sequence of [n] points has the score
    [n(n-1)/2], a strictly decreasing one [-n(n-1)/2], one whose values
    are all equal 0; with at least two points their Kendall's Tau is 1,
    -1 and 0. *)
Theorem monotone_sequences (x : list Q) :
  let Tau_is (v : Q) : Prop :=
    (2 <= length x)%nat ->
    exists Tau,
      py_div (inject_Z (_mk_score x)) (tau_denominator (length x)) = Ok Tau
      /\ (Tau == v)%Q in
  (StronglySorted Qlt x ->
   2 * _mk_score x = len x * (len x - 1) /\ Tau_is 1%Q)
  /\ (StronglySorted (fun a b => (b < a)%Q) x ->
      2 * _mk_score x = - (len x * (len x - 1)) /\ Tau_is (-1 # 1)%Q)
  /\ (StronglySorted Qeq x -> _mk_score x = 0 /\ Tau_is 0%Q).
Proof.
  intro Tau_is.
  assert (Hinc : StronglySorted Qlt x -> 2 * _mk_score x = 1 * (len x * (len x - 1))).
  { intro H. apply mk_score_uniform.
    eapply StronglySorted_weaken; [|exact H].
    intros a b Hab. apply np_sign_pos. lra. }
  assert (Hdec : StronglySorted (fun a b => (b < a)%Q) x ->
                 2 * _mk_score x = -1 * (len x * (len x - 1))).
  { intro H. apply mk_score_uniform.
    eapply StronglySorted_weaken; [|exact H].
    intros a b Hab. apply np_sign_neg. cbv beta in Hab. lra. }
  assert (Hcst : StronglySorted Qeq x -> 2 * _mk_score x = 0 * (len x * (len x - 1))).
  { intro H. apply mk_score_uniform.
    eapply StronglySorted_weaken; [|exact H].
    intros a b Hab. apply np_sign_zero. lra. }
  subst Tau_is. cbv beta.
  split; [|split]; intro H.
  - split; [rewrite (Hinc H); lia|]. intro Hn.
    apply (tau_of_score _ (length x) 1 Hn). now apply Hinc.
  - split; [rewrite (Hdec H); lia|]. intro Hn.
    apply (tau_of_score _ (length x) (-1) Hn). now apply Hdec.
  - split; [specialize (Hcst H); lia|]. intro Hn.
    apply (tau_of_score _ (length x) 0 Hn). now apply Hcst.
Qed.

Lemma monotone_sequences_witness :
  2 * _mk_score [1; 2; 5; 9]%Q = 12
  /\ exists Tau,
      py_div (inject_Z (_mk_score [1; 2; 5; 9]%Q)) (tau_denominator 4) = Ok Tau
      /\ (Tau == 1)%Q.
Proof.
  destruct (proj1 (monotone_sequences [1; 2; 5; 9]%Q)) as [HS HT].
  - repeat (constructor; try reflexivity).
  - split; [exact HS|]. apply HT. cbn. lia.
Defined.

(** ** Scores that cannot be significant *)

Lemma trend_zero_z (norm_cdf norm_ppf : Q -> Q) (self : MKDetector) (z Tau : Q) :
  (z == 0)%Q -> snd (_p_value norm_cdf norm_ppf self z Tau) = "no trend".
Proof.
  intro Hz.
  destruct (trend_trichotomy norm_cdf norm_ppf self z Tau) as [E|[E|E]];
    [| |exact E]; exfalso.
  - apply trend_decreasing_iff in E as (_ & H & _). lra.
  - apply trend_increasing_iff in E as (_ & H & _). lra.
Qed.

Lemma z_score_small (np_sqrt : Q -> Q) (S : Z) (v : Q) :
  Z.abs S <= 1 -> (_z_score np_sqrt (inject_Z S) v == 0)%Q.
Proof.
  intro H. assert (HS : S = -1 \/ S = 0 \/ S = 1) by lia.
  destruct HS as [-> | [-> | ->]]; unfold _z_score; cbn [Qgtb Qltb Qcompare inject_Z];
    cbn; unfold Qdiv; ring.
Qed.

(** X2: a score of -1, 0 or 1 gives the z-score 0 (the continuity
    correction takes 1 off its size) and the label "no trend", whatever
    Tau, alpha and threshold are; every sequence of two points is such,
    though its Tau is 1 or -1 when the two values differ, and so is
    every sequence whose values are all equal. *)
Theorem small_scores_are_no_trend (np_sqrt norm_cdf norm_ppf : Q -> Q)
    (self : MKDetector) (x : list Q) (Tau : Q) :
  let z := _z_score np_sqrt (inject_Z (_mk_score x)) (_var_s x) in
  (Z.abs (_mk_score x) <= 1 ->
   (z == 0)%Q /\ snd (_p_value norm_cdf norm_ppf self z Tau) = "no trend")
  /\ (length x = 2%nat -> Z.abs (_mk_score x) <= 1)
  /\ (StronglySorted Qeq x -> Z.abs (_mk_score x) <= 1).
Proof.
  intro z. split; [|split].
  - intro H. pose proof (z_score_small np_sqrt _ (_var_s x) H) as Hz.
    split; [exact Hz|]. now apply trend_zero_z.
  - intro Hn. pose proof (mk_score_abs x) as Hb. unfold len in Hb.
    rewrite Hn in Hb. change (Z.of_nat 2) with 2 in Hb. lia.
  - intro H.
    assert (E : 2 * _mk_score x = 0 * (len x * (len x - 1))).
    { apply mk_score_uniform. eapply StronglySorted_weaken; [|exact H].
      intros a b Hab. apply np_sign_zero. lra. }
    lia.
Qed.

Lemma small_scores_are_no_trend_witness :
  snd (_p_value linear_cdf quantile_975 (sample_detector false 2)
         (_z_score newton_sqrt (inject_Z (_mk_score [3; 8]%Q)) (_var_s [3; 8]%Q)) 1)
  = "no trend".
Proof.
  destruct (small_scores_are_no_trend newton_sqrt linear_cdf quantile_975
              (sample_detector false 2) [3; 8]%Q 1) as (H1 & H2 & _).
  apply H1, H2. reflexivity.
Defined.

(** ** Kendall's Tau lies between -1 and 1 *)

(** X3: the score of [n] points lies between [-n(n-1)/2] and
    [n(n-1)/2]; so, with at least two points, the division that gives
    Kendall's Tau does not fail and Tau lies between -1 and 1. *)
Theorem kendall_tau_range (x : list Q) :
  Z.abs (2 * _mk_score x) <= len x * (len x - 1)
  /\ ((2 <= length x)%nat ->
      exists Tau,
        py_div (inject_Z (_mk_score x)) (tau_denominator (length x)) = Ok Tau
        /\ (-1 <= Tau <= 1)%Q).
Proof.
  pose proof (mk_score_abs x) as Hb. split; [exact Hb|]. intro Hn.
  pose proof (tau_denominator_pos (length x) Hn) as Hpos.
  eexists. split; [apply py_div_ok; lra|].
  unfold len in Hb.
  assert (Hup : (inject_Z (2 * _mk_score x)
                 <= inject_Z (Z.of_nat (length x) * (Z.of_nat (length x) - 1)))%Q)
    by (rewrite <- Zle_Qle; lia).
  assert (Hlo : (inject_Z (- (Z.of_nat (length x) * (Z.of_nat (length x) - 1)))
                 <= inject_Z (2 * _mk_score x))%Q)
    by (rewrite <- Zle_Qle; lia).
  rewrite inject_Z_opp in Hlo. rewrite !inject_Z_mult in Hup, Hlo.
  change (inject_Z 2) with 2%Q in Hup, Hlo.
  split.
  - apply Qle_shift_div_l; [exact Hpos|]. unfold tau_denominator. lra.
  - apply Qle_shift_div_r; [exact Hpos|]. unfold tau_denominator. lra.
Qed.

Lemma kendall_tau_range_witness :
  exists Tau,
    py_div (inject_Z (_mk_score [3; 1; 4; 1; 5]%Q)) (tau_denominator 5) = Ok Tau
    /\ (-1 <= Tau <= 1)%Q.
Proof.
  apply (proj2 (kendall_tau_range [3; 1; 4; 1; 5]%Q)). cbn. lia.
Defined.

(** ** Transformations that keep the order of the values *)

Lemma np_sign_compare (a b : Q) :
  np_sign (a - b) = match (a ?= b)%Q with Lt => -1 | Eq => 0 | Gt => 1 end.
Proof.
  destruct (Qcompare_spec a b) as [E|E|E].
  - apply np_sign_zero. lra.
  - apply np_sign_neg. lra.
  - apply np_sign_pos. lra.
Qed.

Lemma Qeq_bool_compare (a b : Q) :
  Qeq_bool a b = match (a ?= b)%Q with Eq => true | _ => false end.
Proof.
  destruct (Qcompare_spec a b) as [E|E|E].
  - now apply Qeq_bool_iff.
  - apply not_true_is_false. intro H. apply Qeq_bool_iff in H. lra.
  - apply not_true_is_false. intro H. apply Qeq_bool_iff in H. lra.
Qed.

Lemma affine_order_preserving (a b : Q) :
  (0 < a)%Q -> order_preserving (fun v => a * v + b)%Q.
Proof.
  intros Ha u v. cbv beta.
  destruct (Qcompare_spec u v) as [E|E|E].
  - apply (proj1 (Qeq_alt _ _)). now rewrite E.
  - apply (proj1 (Qlt_alt _ _)).
    assert (a * u < a * v)%Q by (apply Qmult_lt_l; assumption). lra.
  - apply (proj1 (Qgt_alt _ _)).
    assert (a * v < a * u)%Q by (apply Qmult_lt_l; assumption). lra.
Qed.

Section OrderPreserving.
Variable f : Q -> Q.
Hypothesis f_order : order_preserving f.

Lemma pair_signs_map (xk : Q) (rest : list Q) :
  pair_signs (f xk) (map f rest) = pair_signs xk rest.
Proof.
  induction rest as [|xj rest IH]; [reflexivity|].
  cbn [map]. rewrite !pair_signs_cons, IH, !np_sign_compare, f_order.
  reflexivity.
Qed.

Lemma mk_score_map (x : list Q) : _mk_score (map f x) = _mk_score x.
Proof.
  induction x as [|xk rest IH]; [reflexivity|].
  cbn [map]. now rewrite !mk_score_cons, pair_signs_map, IH.
Qed.

Lemma Qeq_bool_map (a b : Q) : Qeq_bool (f a) (f b) = Qeq_bool a b.
Proof.
  now rewrite !Qeq_bool_compare, f_order.
Qed.

Lemma has_ties_map (x : list Q) : has_ties (map f x) = has_ties x.
Proof.
  induction x as [|a r IH]; [reflexivity|].
  cbn [map has_ties]. rewrite IH. f_equal.
  clear IH. induction r as [|b r IH]; [reflexivity|].
  cbn [map existsb]. now rewrite Qeq_bool_map, IH.
Qed.

Lemma counter_incr_map (v : Q) (c : list (Q * nat)) :
  counter_incr (f v) (map (fun kv => (f (fst kv), snd kv)) c)
  = map (fun kv => (f (fst kv), snd kv)) (counter_incr v c).
Proof.
  induction c as [|[k m] c IH]; [reflexivity|].
  cbn [map counter_incr fst snd]. rewrite Qeq_bool_map.
  destruct (Qeq_bool k v); cbn [map fst snd]; [reflexivity|].
  now rewrite IH.
Qed.

Lemma Counter_map (x : list Q) :
  Counter (map f x) = map (fun kv => (f (fst kv), snd kv)) (Counter x).
Proof.
  unfold Counter.
  change (@nil (Q * nat)) with (map (fun kv : Q * nat => (f (fst kv), snd kv)) []) at 1.
  generalize (@nil (Q * nat)) as acc.
  induction x as [|a r IH]; intro acc; [reflexivity|].
  cbn [map fold_left]. now rewrite counter_incr_map, IH.
Qed.

Lemma var_s_map (x : list Q) : _var_s (map f x) = _var_s x.
Proof.
  unfold _var_s. cbv zeta.
  rewrite !unique_length_no_ties, has_ties_map.
  unfold tie_terms. rewrite Counter_map, map_map. cbn [snd].
  unfold len. now rewrite length_map.
Qed.

Lemma drop_nan_map (col : list (option Q)) :
  drop_nan (map (option_map f) col) = map f (drop_nan col).
Proof.
  induction col as [|[v|] col IH]; cbn [map option_map drop_nan];
    [reflexivity| |exact IH].
  now rewrite IH.
Qed.
End OrderPreserving.

Lemma py_tail_map {A B} (g : A -> B) (w : nat) (l : list A) :
  py_tail w (map g l) = map g (py_tail w l).
Proof.
  destruct w as [|w]; [reflexivity|].
  unfold py_tail. now rewrite length_map, skipn_map.
Qed.

(** X4: a transformation of the values that keeps their order (a
    change of unit [a v + b] with [a > 0], for one) changes neither the
    score nor the variance, and the test of a series gives the same
    result on the transformed series. *)
Theorem order_preserving_invariance (np_sqrt norm_cdf norm_ppf : Q -> Q)
    (self : MKDetector) (f : Q -> Q) (idx : list Z) (name : string)
    (col : list (option Q)) :
  order_preserving f ->
  (forall x, _mk_score (map f x) = _mk_score x /\ _var_s (map f x) = _var_s x)
  /\ MKtest np_sqrt norm_cdf norm_ppf self (mkDF idx [(name, map (option_map f) col)])
     = MKtest np_sqrt norm_cdf norm_ppf self (mkDF idx [(name, col)]).
Proof.
  intro Hf. split.
  - intro x. split; [now apply mk_score_map|now apply var_s_map].
  - unfold MKtest, _preprocessing.
    destruct (get_params "window_size" self) as [ps|e]; [|reflexivity].
    cbn [bind df_tail columns map_columns map fst snd _drop_missing_values].
    rewrite py_tail_map, (drop_nan_map f).
    rewrite (mk_score_map f Hf), (var_s_map f Hf), length_map.
    reflexivity.
Qed.

Lemma order_preserving_invariance_witness :
  MKtest newton_sqrt linear_cdf quantile_975 (sample_detector false 4)
         (mkDF [0; 1; 2; 3]
               [("y", map (option_map (fun v => 2 * v + 3)%Q)
                          [Some 1%Q; Some 3%Q; None; Some 2%Q])])
  = MKtest newton_sqrt linear_cdf quantile_975 (sample_detector false 4)
           (mkDF [0; 1; 2; 3] [("y", [Some 1%Q; Some 3%Q; None; Some 2%Q])]).
Proof.
  apply (order_preserving_invariance newton_sqrt linear_cdf quantile_975
           (sample_detector false 4) (fun v => 2 * v + 3)%Q).
  apply (affine_order_preserving 2 3). reflexivity.
Defined.

(** ** Reading the series backwards *)

Lemma pair_signs_app (xk : Q) (l1 l2 : list Q) :
  pair_signs xk (l1 ++ l2) = pair_signs xk l1 + pair_signs xk l2.
Proof.
  induction l1 as [|a l1 IH].
  - change (pair_signs xk []) with 0. cbn [app]. lia.
  - cbn [app]. rewrite !pair_signs_cons, IH. lia.
Qed.

Lemma pair_signs_rev (xk : Q) (l : list Q) :
  pair_signs xk (rev l) = pair_signs xk l.
Proof.
  induction l as [|a l IH]; [reflexivity|].
  cbn [rev]. rewrite pair_signs_app, IH, !pair_signs_cons.
  change (pair_signs xk []) with 0. lia.
Qed.

Lemma mk_score_snoc (x : list Q) (a : Q) :
  _mk_score (x ++ [a]) = _mk_score x - pair_signs a x.
Proof.
  induction x as [|xk rest IH].
  - reflexivity.
  - cbn [app]. rewrite !mk_score_cons, IH, pair_signs_app, !pair_signs_cons.
    change (pair_signs xk []) with 0.
    rewrite (np_sign_proper (xk - a) (- (a - xk))) by ring.
    rewrite np_sign_opp. lia.
Qed.

(** X5: the score of the series read backwards is the opposite of the
    score of the series, and so is its Tau. *)
Theorem reversed_series_score (x : list Q) :
  _mk_score (rev x) = - _mk_score x
  /\ ((2 <= length x)%nat ->
      exists Tau Tau',
        py_div (inject_Z (_mk_score x)) (tau_denominator (length x)) = Ok Tau
        /\ py_div (inject_Z (_mk_score (rev x))) (tau_denominator (length (rev x)))
           = Ok Tau'
        /\ (Tau' == - Tau)%Q).
Proof.
  assert (E : _mk_score (rev x) = - _mk_score x).
  { induction x as [|a x IH]; [reflexivity|].
    cbn [rev]. rewrite mk_score_snoc, IH, pair_signs_rev, mk_score_cons. lia. }
  split; [exact E|]. intro Hn.
  pose proof (tau_denominator_pos (length x) Hn) as Hpos.
  rewrite length_rev, E.
  do 2 eexists. split; [apply py_div_ok; lra|].
  split; [apply py_div_ok; lra|].
  rewrite inject_Z_opp. field. lra.
Qed.

Lemma reversed_series_score_witness :
  exists Tau Tau',
    py_div (inject_Z (_mk_score [1; 4; 2; 8]%Q)) (tau_denominator 4) = Ok Tau
    /\ py_div (inject_Z (_mk_score (rev [1; 4; 2; 8]%Q)))
              (tau_denominator (length (rev [1; 4; 2; 8]%Q))) = Ok Tau'
    /\ (Tau' == - Tau)%Q.
Proof.
  apply (proj2 (reversed_series_score [1; 4; 2; 8]%Q)). cbn. lia.
Defined.

(** ** Only the trailing window is tested *)

Lemma py_tail_idempotent {A} (w : nat) (l : list A) :
  py_tail w (py_tail w l) = py_tail w l.
Proof.
  destruct w as [|w]; [reflexivity|].
  unfold py_tail. rewrite length_skipn.
  replace (length l - (length l - S w) - S w)%nat with 0%nat by lia.
  reflexivity.
Qed.

Lemma last_label_py_tail (w : nat) (idx : list Z) :
  last_label (py_tail w idx) = last_label idx.
Proof.
  destruct w as [|w]; [reflexivity|].
  unfold py_tail, last_label.
  set (k := (length idx - S w)%nat).
  replace (rev (skipn k idx)) with (firstn (length idx - k) (rev idx)).
  - destruct idx as [|a idx]; [reflexivity|].
    assert (Hr : rev (a :: idx) <> []).
    { intro E. apply (f_equal (@length Z)) in E. rewrite length_rev in E.
      discriminate. }
    destruct (rev (a :: idx)) as [|t r]; [contradiction|].
    replace (length (a :: idx) - k)%nat with (S (length idx - k))%nat
      by (subst k; cbn [length]; lia).
    reflexivity.
  - rewrite firstn_rev. do 2 f_equal. subst k. lia.
Qed.

Lemma df_tail_idempotent (w : nat) (f : DataFrame) :
  df_tail w (df_tail w f) = df_tail w f.
Proof.
  unfold df_tail, map_columns. cbn [index columns].
  rewrite py_tail_idempotent, map_map. f_equal.
  apply map_ext. intro c. cbn [fst snd]. now rewrite py_tail_idempotent.
Qed.

Lemma column_name_df_tail (w : nat) (f : DataFrame) (i : nat) :
  column_name (df_tail w f) i = column_name f i.
Proof.
  unfold column_name, df_tail, map_columns. cbn [columns].
  rewrite nth_error_map. now destruct (nth_error (columns f) i).
Qed.

Lemma fold_left_ext {A B} (g h : A -> B -> A) (l : list B) (a : A) :
  (forall x y, g x y = h x y) -> fold_left g l a = fold_left h l a.
Proof.
  intro H. revert a. induction l as [|b l IH]; intro a; [reflexivity|].
  cbn [fold_left]. now rewrite H, IH.
Qed.

Section Window.
Variables np_sqrt norm_cdf norm_ppf : Q -> Q.
Variable self : MKDetector.
Variable ps : RunParams.
Hypothesis self_params : params self = Some ps.

Lemma preprocessing_df_tail (f : DataFrame) :
  _preprocessing self (df_tail (window_size ps) f) = _preprocessing self f.
Proof.
  unfold _preprocessing, get_params. rewrite self_params. cbn [bind].
  now rewrite df_tail_idempotent.
Qed.

Lemma MKtest_df_tail (f : DataFrame) :
  MKtest np_sqrt norm_cdf norm_ppf self (df_tail (window_size ps) f)
  = MKtest np_sqrt norm_cdf norm_ppf self f.
Proof.
  unfold MKtest. rewrite preprocessing_df_tail.
  unfold df_tail at 1. cbn [index]. now rewrite last_label_py_tail.
Qed.

Lemma mv_step_df_tail (f : DataFrame) (x : ndarray (option Q))
    (acc : result mv_acc) (i : nat) :
  mv_step np_sqrt norm_cdf norm_ppf self (df_tail (window_size ps) f) x acc i
  = mv_step np_sqrt norm_cdf norm_ppf self f x acc i.
Proof.
  unfold mv_step. now rewrite column_name_df_tail.
Qed.

Lemma multivariate_MKtest_df_tail (f : DataFrame) :
  multivariate_MKtest np_sqrt norm_cdf norm_ppf self (df_tail (window_size ps) f)
  = multivariate_MKtest np_sqrt norm_cdf norm_ppf self f.
Proof.
  unfold multivariate_MKtest. rewrite preprocessing_df_tail.
  unfold df_tail at 1. cbn [index]. rewrite last_label_py_tail.
  destruct (last_label (index f)) as [t|e]; [|reflexivity]. cbn [bind].
  destruct (_preprocessing self f) as [[x c]|e]; [|reflexivity]. cbn [bind].
  now rewrite (fold_left_ext _ _ (seq 0 c) _ (mv_step_df_tail f x)).
Qed.

Lemma runDetector_df_tail (f : DataFrame) :
  runDetector np_sqrt norm_cdf norm_ppf self (df_tail (window_size ps) f)
  = runDetector np_sqrt norm_cdf norm_ppf self f.
Proof.
  unfold runDetector. now rewrite MKtest_df_tail, multivariate_MKtest_df_tail.
Qed.
End Window.

(** X6: a test looks at the last [window_size] rows only: the frame
    cut to these rows gives the same record, and two frames with the
    same last [window_size] rows give the same record (a window size of
    0 stands for the whole frame). *)
Theorem runDetector_trailing_window (np_sqrt norm_cdf norm_ppf : Q -> Q)
    (self : MKDetector) (ps : RunParams) (f g : DataFrame) :
  params self = Some ps ->
  runDetector np_sqrt norm_cdf norm_ppf self (df_tail (window_size ps) f)
  = runDetector np_sqrt norm_cdf norm_ppf self f
  /\ (df_tail (window_size ps) f = df_tail (window_size ps) g ->
      runDetector np_sqrt norm_cdf norm_ppf self f
      = runDetector np_sqrt norm_cdf norm_ppf self g).
Proof.
  intro Hps. split.
  - now apply runDetector_df_tail.
  - intro E.
    rewrite <- (runDetector_df_tail np_sqrt norm_cdf norm_ppf self ps Hps f).
    rewrite <- (runDetector_df_tail np_sqrt norm_cdf norm_ppf self ps Hps g).
    now rewrite E.
Qed.

Lemma runDetector_trailing_window_witness :
  runDetector newton_sqrt linear_cdf quantile_975 (sample_detector false 3)
              (daily_series [9; 1; 2; 3])
  = runDetector newton_sqrt linear_cdf quantile_975 (sample_detector false 3)
                (mkDF [1; 2; 3] [("y", [Some 1%Q; Some 2%Q; Some 3%Q])]).
Proof.
  apply (proj2 (runDetector_trailing_window newton_sqrt linear_cdf quantile_975
                  (sample_detector false 3) (mkParams 3 None "both" None)
                  (daily_series [9; 1; 2; 3])
                  (mkDF [1; 2; 3] [("y", [Some 1%Q; Some 2%Q; Some 3%Q])])
                  eq_refl)).
  reflexivity.
Defined.

(** ** The entries of the multivariate dicts *)

Lemma dict_get_set_other {V} (k k' : string) (v : V) (d : list (string * V)) :
  k <> k' -> dict_get k (dict_set k' v d) = dict_get k d.
Proof.
  intro Hne. induction d as [|[k0 v0] d IH]; cbn [dict_set dict_get].
  - destruct (String.eqb_spec k' k) as [E|E]; [congruence|reflexivity].
  - destruct (String.eqb_spec k0 k') as [E|E]; cbn [dict_get].
    + subst k0. destruct (String.eqb_spec k' k) as [E'|E']; [congruence|reflexivity].
    + destruct (String.eqb k0 k); [reflexivity|exact IH].
Qed.

Lemma tau_denominator_nonneg (n : nat) : (0 <= tau_denominator n)%Q.
Proof.
  destruct (le_lt_dec 2 n) as [H|H].
  - apply Qlt_le_weak, tau_denominator_pos, H.
  - rewrite (tau_denominator_zero n H). lra.
Qed.

Lemma pooled_denominator_fold_ge (cols : list (list Q)) (d0 : Q) :
  (d0 <= fold_left (fun d x => (d + tau_denominator (length x))%Q) cols d0)%Q.
Proof.
  revert d0. induction cols as [|x cols IH]; intro d0; cbn [fold_left]; [lra|].
  pose proof (tau_denominator_nonneg (length x)).
  specialize (IH (d0 + tau_denominator (length x))%Q). lra.
Qed.

Lemma pooled_denominator_short (cols : list (list Q)) (d0 : Q) :
  Forall (fun x => (length x < 2)%nat) cols ->
  (fold_left (fun d x => (d + tau_denominator (length x))%Q) cols d0 == d0)%Q.
Proof.
  intro H. revert d0. induction H as [|x cols Hx _ IH]; intro d0; cbn [fold_left].
  - reflexivity.
  - rewrite IH, (tau_denominator_zero _ Hx). ring.
Qed.

Lemma pooled_denominator_some_pair (cols : list (list Q)) (d0 : Q) :
  Exists (fun x => (2 <= length x)%nat) cols ->
  (d0 < fold_left (fun d x => (d + tau_denominator (length x))%Q) cols d0)%Q.
Proof.
  intro H. revert d0. induction H as [x cols Hx|x cols _ IH]; intro d0;
    cbn [fold_left].
  - pose proof (tau_denominator_pos _ Hx).
    pose proof (pooled_denominator_fold_ge cols (d0 + tau_denominator (length x))%Q).
    lra.
  - pose proof (tau_denominator_nonneg (length x)).
    specialize (IH (d0 + tau_denominator (length x))%Q). lra.
Qed.

Section Entries.
Variables np_sqrt norm_cdf norm_ppf : Q -> Q.
Variable self : MKDetector.
Variable ts : DataFrame.

(** the loop stores, under the name of each column, the Tau and the
    label of that column, when no two columns share a name *)
Lemma mv_fold_entries (n : nat) (rest pre : list (list (option Q))) (a a' : mv_acc) :
  fold_left (mv_step np_sqrt norm_cdf norm_ppf self ts (Arr2 n (pre ++ rest)))
            (seq (length pre) (length rest)) (Ok a) = Ok a' ->
  NoDup (map (column_name ts) (seq (length pre) (length rest))) ->
  (forall i col, nth_error rest i = Some col ->
     dict_get (column_name ts (length pre + i)) (acc_Tau_dict a')
     = Some (tau_entry (drop_nan col))
     /\ dict_get (column_name ts (length pre + i)) (acc_trend_dict a')
        = Some (trend_entry np_sqrt norm_cdf norm_ppf self (drop_nan col)))
  /\ (forall k, ~ In k (map (column_name ts) (seq (length pre) (length rest))) ->
        dict_get k (acc_Tau_dict a') = dict_get k (acc_Tau_dict a)
        /\ dict_get k (acc_trend_dict a') = dict_get k (acc_trend_dict a)).
Proof.
  revert pre a. induction rest as [|c rest IH]; intros pre a Hf Hnd.
  - cbn [length seq fold_left] in Hf. inversion Hf; subst a'. split.
    + intros i col H. destruct i; discriminate.
    + intros k _. split; reflexivity.
  - cbn [length seq fold_left map] in Hf, Hnd |- *.
    assert (Hc : column_i (Arr2 n (pre ++ c :: rest)) (length pre) = Ok c).
    { unfold column_i. rewrite nth_error_app2 by apply Nat.le_refl.
      now rewrite Nat.sub_diag. }
    unfold mv_step at 2 in Hf. cbn [bind] in Hf. rewrite Hc in Hf. cbn [bind] in Hf.
    match type of Hf with
    | fold_left _ _ (Ok ?b) = _ => set (a1 := b) in Hf
    end.
    inversion Hnd as [|? ? Hnotin Hnd']; subst.
    specialize (IH (pre ++ [c])%list a1).
    rewrite <- app_assoc, length_app in IH. cbn [app length] in IH.
    rewrite Nat.add_1_r in IH.
    destruct (IH Hf Hnd') as [Hin Hout].
    assert (H1 : dict_get (column_name ts (length pre)) (acc_Tau_dict a1)
                 = Some (tau_entry (drop_nan c))
                 /\ dict_get (column_name ts (length pre)) (acc_trend_dict a1)
                    = Some (trend_entry np_sqrt norm_cdf norm_ppf self (drop_nan c))).
    { subst a1. cbn [acc_Tau_dict acc_trend_dict]. unfold tau_entry, trend_entry.
      destruct (py_div _ _); cbn [fst snd]; rewrite !dict_get_set_same;
        split; reflexivity. }
    split.
    + intros [|i] col Hi.
      * cbn [nth_error] in Hi. inversion Hi; subst col.
        rewrite Nat.add_0_r.
        destruct (Hout _ Hnotin) as [E1 E2]. rewrite E1, E2. exact H1.
      * cbn [nth_error] in Hi. rewrite Nat.add_succ_r. apply (Hin i col Hi).
    + intros k Hk.
      assert (Hk0 : k <> column_name ts (length pre)) by (intro E; apply Hk; now left).
      assert (Hk' : ~ In k (map (column_name ts) (seq (S (length pre)) (length rest))))
        by (intro E; apply Hk; now right).
      destruct (Hout k Hk') as [E1 E2]. rewrite E1, E2.
      subst a1. cbn [acc_Tau_dict acc_trend_dict].
      destruct (py_div _ _); cbn [fst snd];
        rewrite !(dict_get_set_other k _ _ _ Hk0); split; reflexivity.
Qed.
End Entries.

(** [multivariate_MKtest] on a frame with a row and at least two
    columns: the loop over the windows of the columns, then the overall
    entries *)
Lemma multivariate_MKtest_unfold (np_sqrt norm_cdf norm_ppf : Q -> Q)
    (self : MKDetector) (ps : RunParams) (ts : DataFrame) (t : Z) :
  params self = Some ps ->
  (2 <= ncols ts)%nat ->
  last_label (index ts) = Ok t ->
  multivariate_MKtest np_sqrt norm_cdf norm_ppf self ts
  = (a <- fold_left
            (mv_step np_sqrt norm_cdf norm_ppf self ts
               (Arr2 (nrows (df_tail (window_size ps) ts))
                     ([] ++ map (fun c => py_tail (window_size ps) (snd c)) (columns ts))))
            (seq (length (@nil (list (option Q))))
                 (length (map (fun c => py_tail (window_size ps) (snd c)) (columns ts))))
            (Ok (mkAcc 0 0%Q 0%Q [] [])) ;;
     Tau_overall <- py_div (inject_Z (acc_s a)) (acc_denominator a) ;;
     let z := _z_score np_sqrt (inject_Z (acc_s a)) (acc_var_s a) in
     Ok (t,
         TrendDict (dict_set "overall"
                      (Some (snd (_p_value norm_cdf norm_ppf self z Tau_overall)))
                      (acc_trend_dict a)),
         fst (_p_value norm_cdf norm_ppf self z Tau_overall),
         TauDict (dict_set "overall" (Some Tau_overall) (acc_Tau_dict a)))).
Proof.
  intros Hps Hc Ht.
  unfold multivariate_MKtest. rewrite Ht. cbn [bind].
  unfold _preprocessing, get_params. rewrite Hps. cbn [bind].
  rewrite df_tail_ncols.
  assert (Harr : match columns (df_tail (window_size ps) ts) with
                 | [col] => Ok (Arr1 (snd col), ncols ts)
                 | cs => Ok (Arr2 (nrows (df_tail (window_size ps) ts)) (map snd cs),
                             ncols ts)
                 end
                 = Ok (Arr2 (nrows (df_tail (window_size ps) ts))
                            (map snd (columns (df_tail (window_size ps) ts))),
                       ncols ts)).
  { pose proof (df_tail_ncols (window_size ps) ts) as Hn. unfold ncols in Hn, Hc.
    destruct (columns (df_tail (window_size ps) ts)) as [|c1 [|c2 cs]];
      simpl in Hn; try reflexivity; lia. }
  rewrite Harr. cbn [bind]. rewrite df_tail_columns.
  cbn [app length]. rewrite length_map. fold (ncols ts).
  destruct (fold_left _ _ _) as [a|e]; [|reflexivity]. cbn [bind].
  destruct (py_div _ _) as [T|e]; [|reflexivity]. cbn [bind].
  now destruct (_p_value norm_cdf norm_ppf self _ T).
Qed.

(** X7: in the result of [multivariate_MKtest], the entries of a
    column are those of the univariate test of that column alone: the
    Tau and the label [MKtest] returns for it, or [None] twice where
    [MKtest] fails for want of two valid points (the column names being
    distinct and none of them "overall"). *)
Theorem multivariate_entries_are_univariate_tests
    (np_sqrt norm_cdf norm_ppf : Q -> Q)
    (self : MKDetector) (ps : RunParams) (ts : DataFrame) :
  params self = Some ps ->
  (2 <= ncols ts)%nat ->
  index ts <> [] ->
  NoDup (map fst (columns ts)) ->
  ~ In "overall" (map fst (columns ts)) ->
  ~ (pooled_denominator (window_columns ps ts) == 0)%Q ->
  exists anchor trend_dict p Tau_dict,
    multivariate_MKtest np_sqrt norm_cdf norm_ppf self ts
    = Ok (anchor, TrendDict trend_dict, p, TauDict Tau_dict)
    /\ forall name col,
        In (name, col) (columns ts) ->
        match MKtest np_sqrt norm_cdf norm_ppf self (mkDF (index ts) [(name, col)]) with
        | Ok (a, TrendStr trend, _, TauNum Tau) =>
            a = anchor
            /\ dict_get name Tau_dict = Some (Some Tau)
            /\ dict_get name trend_dict = Some (Some trend)
        | Ok _ => False
        | Raise e =>
            e = ZeroDivisionError
            /\ dict_get name Tau_dict = Some None
            /\ dict_get name trend_dict = Some None
        end.
Proof.
  intros Hps Hc Hne Hnd Hov HD.
  destruct (last_label_ok (index ts) Hne) as [t Ht].
  rewrite (multivariate_MKtest_unfold np_sqrt norm_cdf norm_ppf self ps ts t Hps Hc Ht).
  set (rest := map (fun c => py_tail (window_size ps) (snd c)) (columns ts)).
  destruct (mv_fold np_sqrt norm_cdf norm_ppf self ts
              (nrows (df_tail (window_size ps) ts)) rest [] (mkAcc 0 0%Q 0%Q [] []))
    as (a & Hf & _ & _ & Hd & _).
  rewrite Hf. cbn [bind].
  assert (Hlen : length rest = ncols ts) by (subst rest; apply length_map).
  assert (Hnames : map (column_name ts) (seq (length (@nil (list (option Q))))
                                             (length rest))
                   = map fst (columns ts)).
  { rewrite Hlen. apply column_names. }
  destruct (mv_fold_entries np_sqrt norm_cdf norm_ppf self ts _ rest [] _ a Hf)
    as [Hin _].
  { rewrite Hnames. exact Hnd. }
  assert (HD' : ~ (acc_denominator a == 0)%Q).
  { rewrite Hd. subst rest. rewrite map_map. exact HD. }
  rewrite (py_div_ok _ _ HD'). cbn [bind]. cbv zeta.
  do 4 eexists. split; [reflexivity|].
  intros name col Hcol.
  destruct (In_nth_error _ _ Hcol) as [i Hi].
  assert (Hi' : nth_error rest i = Some (py_tail (window_size ps) col)).
  { subst rest. now rewrite (map_nth_error _ _ _ Hi). }
  destruct (Hin i _ Hi') as [E1 E2].
  assert (Hname : column_name ts (length (@nil (list (option Q))) + i) = name).
  { cbn [length Nat.add]. unfold column_name. now rewrite Hi. }
  rewrite Hname in E1, E2.
  assert (Hno : name <> "overall").
  { intro E. apply Hov. rewrite <- E.
    apply (in_map fst) in Hcol. exact Hcol. }
  rewrite !(dict_get_set_other name "overall" _ _ Hno), E1, E2.
  unfold MKtest, _preprocessing, get_params. rewrite Hps.
  cbn [bind df_tail columns index map_columns map fst snd _drop_missing_values].
  rewrite Ht. cbn [bind].
  unfold tau_entry, trend_entry.
  unfold py_div.
  destruct (Qeq_bool (tau_denominator _) 0); cbn [bind].
  - repeat split.
  - destruct (_p_value norm_cdf norm_ppf self _ _) as [pv tr]. cbn [snd].
    repeat split.
Qed.

Lemma multivariate_entries_are_univariate_tests_witness :
  exists anchor trend_dict p Tau_dict,
    multivariate_MKtest newton_sqrt linear_cdf quantile_975
      (sample_detector true 3) mixed_length_frame
    = Ok (anchor, TrendDict trend_dict, p, TauDict Tau_dict)
    /\ forall name col,
        In (name, col) (columns mixed_length_frame) ->
        match MKtest newton_sqrt linear_cdf quantile_975 (sample_detector true 3)
                     (mkDF (index mixed_length_frame) [(name, col)]) with
        | Ok (a, TrendStr trend, _, TauNum Tau) =>
            a = anchor
            /\ dict_get name Tau_dict = Some (Some Tau)
            /\ dict_get name trend_dict = Some (Some trend)
        | Ok _ => False
        | Raise e =>
            e = ZeroDivisionError
            /\ dict_get name Tau_dict = Some None
            /\ dict_get name trend_dict = Some None
        end.
Proof.
  apply (multivariate_entries_are_univariate_tests newton_sqrt linear_cdf quantile_975
           (sample_detector true 3) (mkParams 3 None "both" None) mixed_length_frame).
  - reflexivity.
  - cbn. lia.
  - discriminate.
  - repeat constructor; cbn; intuition discriminate.
  - cbn. intuition discriminate.
  - intro H. vm_compute in H. discriminate.
Defined.

(** X8: on a frame with at least two columns, [multivariate_MKtest]
    fails with a ZeroDivisionError exactly when no column has two valid
    points in the window: the failed division of a column is caught,
    the one of the pooled Tau is not. *)
Theorem multivariate_without_valid_pairs (np_sqrt norm_cdf norm_ppf : Q -> Q)
    (self : MKDetector) (ps : RunParams) (ts : DataFrame) :
  params self = Some ps ->
  (2 <= ncols ts)%nat ->
  index ts <> [] ->
  (multivariate_MKtest np_sqrt norm_cdf norm_ppf self ts = Raise ZeroDivisionError
   <-> Forall (fun x => (length x < 2)%nat) (window_columns ps ts)).
Proof.
  intros Hps Hc Hne.
  destruct (last_label_ok (index ts) Hne) as [t Ht].
  rewrite (multivariate_MKtest_unfold np_sqrt norm_cdf norm_ppf self ps ts t Hps Hc Ht).
  set (rest := map (fun c => py_tail (window_size ps) (snd c)) (columns ts)).
  destruct (mv_fold np_sqrt norm_cdf norm_ppf self ts
              (nrows (df_tail (window_size ps) ts)) rest [] (mkAcc 0 0%Q 0%Q [] []))
    as (a & Hf & _ & _ & Hd & _).
  rewrite Hf. cbn [bind].
  assert (HD : acc_denominator a
               = fold_left (fun d x => (d + tau_denominator (length x))%Q)
                           (window_columns ps ts) 0%Q).
  { rewrite Hd. subst rest. now rewrite map_map. }
  split.
  - intro Hr.
    destruct (Forall_Exists_dec (fun x : list Q => (length x < 2)%nat)
                (fun x => lt_dec (length x) 2) (window_columns ps ts)) as [H|H];
      [exact H|exfalso].
    assert (Hpos : (0 < acc_denominator a)%Q).
    { rewrite HD. apply pooled_denominator_some_pair.
      eapply Exists_impl; [|exact H]. intros x Hx. cbv beta in Hx. lia. }
    rewrite py_div_ok in Hr by lra. discriminate.
  - intro H.
    rewrite py_div_zero; [reflexivity|].
    rewrite HD. now apply pooled_denominator_short.
Qed.

Lemma multivariate_without_valid_pairs_witness :
  multivariate_MKtest newton_sqrt linear_cdf quantile_975 (sample_detector true 3)
    (mkDF [0; 1; 2] [("a", [None; Some 2%Q; None]); ("b", [None; None; None])])
  = Raise ZeroDivisionError.
Proof.
  apply (multivariate_without_valid_pairs newton_sqrt linear_cdf quantile_975
           (sample_detector true 3) (mkParams 3 None "both" None)).
  - reflexivity.
  - cbn. lia.
  - discriminate.
  - repeat constructor.
Defined.

(** ** Univariate data under the multivariate flag *)




(** ** The direction only selects *)

Section TestSettings.
Variables np_sqrt norm_cdf norm_ppf : Q -> Q.
Variable SimpleExpSmoothing : Series -> ses_outcome.
Variables a b : MKDetector.
Hypothesis same : same_test_settings a b.

Lemma p_value_test_settings (z T : Q) :
  _p_value norm_cdf norm_ppf a z T = _p_value norm_cdf norm_ppf b z T.
Proof.
  destruct same as (Ht & Ha & _). unfold _p_value. now rewrite Ht, Ha.
Qed.

Lemma preprocessing_test_settings (f : DataFrame) :
  _preprocessing a f = _preprocessing b f.
Proof.
  destruct same as (_ & _ & _ & Hw). unfold _preprocessing, get_params.
  destruct (params a) as [pa|], (params b) as [pb|]; try discriminate;
    [|reflexivity].
  cbn [option_map] in Hw. injection Hw as Hw. cbn [bind]. now rewrite Hw.
Qed.

Lemma MKtest_test_settings (f : DataFrame) :
  MKtest np_sqrt norm_cdf norm_ppf a f = MKtest np_sqrt norm_cdf norm_ppf b f.
Proof.
  unfold MKtest. rewrite preprocessing_test_settings.
  destruct (_preprocessing b f) as [xc|e]; [|reflexivity]. cbn [bind].
  destruct (_drop_missing_values (fst xc)) as [x n].
  destruct (last_label (index f)); [|reflexivity]. cbn [bind].
  destruct x; [|reflexivity].
  destruct (py_div _ _); [|reflexivity]. cbn [bind].
  now rewrite p_value_test_settings.
Qed.

Lemma mv_step_test_settings (f : DataFrame) (x : ndarray (option Q))
    (acc : result mv_acc) (i : nat) :
  mv_step np_sqrt norm_cdf norm_ppf a f x acc i
  = mv_step np_sqrt norm_cdf norm_ppf b f x acc i.
Proof.
  unfold mv_step. destruct acc as [a0|e]; [|reflexivity]. cbn [bind].
  destruct (column_i x i); [|reflexivity]. cbn [bind].
  destruct (py_div _ _); [|reflexivity].
  now rewrite p_value_test_settings.
Qed.

Lemma multivariate_MKtest_test_settings (f : DataFrame) :
  multivariate_MKtest np_sqrt norm_cdf norm_ppf a f
  = multivariate_MKtest np_sqrt norm_cdf norm_ppf b f.
Proof.
  unfold multivariate_MKtest.
  destruct (last_label (index f)); [|reflexivity]. cbn [bind].
  rewrite preprocessing_test_settings.
  destruct (_preprocessing b f) as [[x c]|e]; [|reflexivity]. cbn [bind].
  rewrite (fold_left_ext _ _ (seq 0 c) _ (mv_step_test_settings f x)).
  destruct (fold_left _ _ _) as [acc|e]; [|reflexivity]. cbn [bind].
  destruct (py_div _ _); [|reflexivity]. cbn [bind].
  now rewrite p_value_test_settings.
Qed.

Lemma runDetector_test_settings (f : DataFrame) :
  runDetector np_sqrt norm_cdf norm_ppf a f
  = runDetector np_sqrt norm_cdf norm_ppf b f.
Proof.
  unfold runDetector.
  rewrite MKtest_test_settings, multivariate_MKtest_test_settings.
  destruct same as (_ & _ & Hm & _). now rewrite Hm.
Qed.

Lemma scan_anchors_test_settings (sm : DataFrame) (anchors : list Z)
    (acc : list StatRecord) :
  scan_anchors np_sqrt norm_cdf norm_ppf a sm anchors acc
  = scan_anchors np_sqrt norm_cdf norm_ppf b sm anchors acc.
Proof.
  revert acc. induction anchors as [|t rest IH]; intro acc; [reflexivity|].
  cbn [scan_anchors]. rewrite runDetector_test_settings.
  destruct (runDetector np_sqrt norm_cdf norm_ppf b (loc_upto t sm));
    cbn [bind]; [apply IH|reflexivity].
Qed.

(** the scan reads the window size, the training days and the
    frequency, not the direction *)
Lemma run_scan_test_settings (pa pb : RunParams) (f : DataFrame) :
  window_size pa = window_size pb ->
  training_days pa = training_days pb ->
  freq pa = freq pb ->
  run_scan np_sqrt norm_cdf norm_ppf SimpleExpSmoothing a pa f
  = run_scan np_sqrt norm_cdf norm_ppf SimpleExpSmoothing b pb f.
Proof.
  intros Hw Ht Hf. unfold run_scan. rewrite Hw, Ht, Hf.
  destruct (training_days pb) as [td|].
  - destruct (last_label (index f)); cbn [bind]; [|reflexivity].
    destruct (td <? window_size pb)%nat; [reflexivity|].
    destruct (nrows f <? td)%nat; [reflexivity|].
    destruct (_remove_seasonality _ (freq pb)); cbn [bind]; [|reflexivity].
    destruct (_smoothing SimpleExpSmoothing _); cbn [bind]; [|reflexivity].
    now rewrite runDetector_test_settings.
  - destruct (nrows f <? window_size pb)%nat; [reflexivity|].
    destruct (_remove_seasonality f (freq pb)); cbn [bind]; [|reflexivity].
    destruct (_smoothing SimpleExpSmoothing _); cbn [bind]; [|reflexivity].
    apply scan_anchors_test_settings.
Qed.
End TestSettings.

Section Labels.
Variables np_sqrt norm_cdf norm_ppf : Q -> Q.
Variable SimpleExpSmoothing : Series -> ses_outcome.
Variable self : MKDetector.

(** every record carries one of the three labels *)
Lemma runDetector_label (f : DataFrame) (r : StatRecord) :
  runDetector np_sqrt norm_cdf norm_ppf self f = Ok r ->
  exists t, record_label self r = Some t /\ known_label t.
Proof.
  unfold runDetector, record_label. destruct (multivariate self).
  - unfold multivariate_MKtest.
    destruct (last_label (index f)); [|discriminate]. cbn [bind].
    destruct (_preprocessing self f) as [[x c]|e]; [|discriminate]. cbn [bind].
    destruct (fold_left _ _ _) as [a0|e]; [|discriminate]. cbn [bind].
    destruct (py_div _ _) as [T|e]; [|discriminate]. cbn [bind].
    pose proof (trend_trichotomy norm_cdf norm_ppf self
                  (_z_score np_sqrt (inject_Z (acc_s a0)) (acc_var_s a0)) T) as Htri.
    destruct (_p_value norm_cdf norm_ppf self _ T) as [pv tr]. cbn [snd] in Htri.
    cbn [bind]. intro H. injection H as <-.
    exists tr. split; [|exact Htri].
    unfold overall_cell, cell. cbn [trend_direction].
    now rewrite dict_get_set_same.
  - unfold MKtest.
    destruct (_preprocessing self f) as [xc|e]; [|discriminate]. cbn [bind].
    destruct (_drop_missing_values (fst xc)) as [x n].
    destruct (last_label (index f)); [|discriminate]. cbn [bind].
    destruct x as [x|n' cols]; [|discriminate].
    destruct (py_div _ _) as [T|e]; [|discriminate]. cbn [bind].
    pose proof (trend_trichotomy norm_cdf norm_ppf self
                  (_z_score np_sqrt (inject_Z (_mk_score x)) (_var_s x)) T) as Htri.
    destruct (_p_value norm_cdf norm_ppf self _ T) as [pv tr]. cbn [snd] in Htri.
    cbn [bind]. intro H. injection H as <-.
    exists tr. split; [reflexivity|exact Htri].
Qed.

Lemma scan_anchors_labels (sm : DataFrame) (anchors : list Z)
    (acc recs : list StatRecord) :
  Forall (fun r => exists t, record_label self r = Some t /\ known_label t) acc ->
  scan_anchors np_sqrt norm_cdf norm_ppf self sm anchors acc = Ok recs ->
  Forall (fun r => exists t, record_label self r = Some t /\ known_label t) recs.
Proof.
  revert acc. induction anchors as [|t rest IH]; intros acc Hacc H.
  - cbn [scan_anchors] in H. injection H as <-. exact Hacc.
  - cbn [scan_anchors] in H.
    destruct (runDetector np_sqrt norm_cdf norm_ppf self (loc_upto t sm)) as [r|e] eqn:Er;
      [|discriminate].
    cbn [bind] in H. apply (IH (acc ++ [r])%list); [|exact H].
    apply Forall_app. split; [exact Hacc|].
    constructor; [|constructor]. exact (runDetector_label _ r Er).
Qed.

Lemma run_scan_labels (ps : RunParams) (f : DataFrame) (recs : list StatRecord) :
  run_scan np_sqrt norm_cdf norm_ppf SimpleExpSmoothing self ps f = Ok recs ->
  Forall (fun r => exists t, record_label self r = Some t /\ known_label t) recs.
Proof.
  unfold run_scan. destruct (training_days ps) as [td|].
  - destruct (last_label (index f)); cbn [bind]; [|discriminate].
    destruct (td <? window_size ps)%nat; [discriminate|].
    destruct (nrows f <? td)%nat; [discriminate|].
    destruct (_remove_seasonality _ (freq ps)); cbn [bind]; [|discriminate].
    destruct (_smoothing SimpleExpSmoothing _) as [sm|e]; cbn [bind]; [|discriminate].
    destruct (runDetector np_sqrt norm_cdf norm_ppf self sm) as [r|e] eqn:Er;
      [|discriminate].
    cbn [bind]. intro H. injection H as <-.
    constructor; [|constructor]. exact (runDetector_label sm r Er).
  - destruct (nrows f <? window_size ps)%nat; [discriminate|].
    destruct (_remove_seasonality f (freq ps)); cbn [bind]; [|discriminate].
    destruct (_smoothing SimpleExpSmoothing _) as [sm|e]; cbn [bind]; [|discriminate].
    apply scan_anchors_labels. constructor.
Qed.
End Labels.

Lemma known_label_split (t : string) :
  known_label t ->
  negb (String.eqb t "no trend")
  = String.eqb t "increasing" || String.eqb t "decreasing"
  /\ String.eqb t "increasing" && String.eqb t "decreasing" = false.
Proof.
  intros [-> | [-> | ->]]; split; reflexivity.
Qed.

Lemma filter_split_length {A} (f g h : A -> bool) (l : list A) :
  Forall (fun x => f x = g x || h x /\ g x && h x = false) l ->
  length (filter f l) = (length (filter g l) + length (filter h l))%nat.
Proof.
  induction 1 as [|x l [Hf Hd] _ IH]; [reflexivity|].
  cbn [filter]. rewrite Hf.
  destruct (g x), (h x); try discriminate; cbn [orb length]; lia.
Qed.

Lemma filter_split_In {A B} (f g h : A -> bool) (k : A -> B) (l : list A) (y : B) :
  Forall (fun x => f x = g x || h x /\ g x && h x = false) l ->
  In y (map k (filter f l))
  <-> In y (map k (filter g l)) \/ In y (map k (filter h l)).
Proof.
  intro H. rewrite Forall_forall in H. rewrite !in_map_iff. split.
  - intros (x & <- & Hx). apply filter_In in Hx as [Hin Hx].
    destruct (H x Hin) as [Hf _]. rewrite Hf in Hx.
    apply orb_true_iff in Hx as [Hx|Hx]; [left|right];
      exists x; (split; [reflexivity|]); apply filter_In; now split.
  - intros [(x & <- & Hx)|(x & <- & Hx)]; apply filter_In in Hx as [Hin Hx];
      exists x; (split; [reflexivity|]); apply filter_In; (split; [exact Hin|]);
      destruct (H x Hin) as [Hf _]; rewrite Hf, Hx; [reflexivity|apply orb_true_r].
Qed.

(** the selection of [get_MK_results], by the label of the record *)
Lemma get_MK_results_by_label (self : MKDetector) (st : list StatRecord)
    (direction : string) :
  valid_direction direction = true ->
  get_MK_results self st direction
  = (_ <- (if multivariate self then
             dicts <- trend_dicts st ;;
             if negb (existsb (String.eqb "overall") (from_dict_columns dicts))
             then Raise (KeyError "overall") else Ok tt
           else Ok tt) ;;
     Ok (filter (fun r =>
                   if String.eqb direction "down"
                   then cell_is "decreasing" (record_label self r)
                   else if String.eqb direction "up"
                        then cell_is "increasing" (record_label self r)
                        else negb (cell_is "no trend" (record_label self r)))
                st)).
Proof.
  intro Hv. unfold valid_direction in Hv. unfold get_MK_results, record_label.
  rewrite Hv. cbn [negb].
  destruct (multivariate self).
  - destruct (trend_dicts st) as [dicts|e]; [|reflexivity]. cbn [bind].
    destruct (negb (existsb _ _)); [reflexivity|]. cbn [bind].
    destruct (String.eqb direction "down"); [reflexivity|].
    destruct (String.eqb direction "up"); reflexivity.
  - cbn [bind].
    assert (E : forall s r,
               trend_is s (trend_direction r)
               = cell_is s match trend_direction r with
                           | TrendStr t => Some t
                           | TrendDict _ => None
                           end).
    { intros s r. now destruct (trend_direction r). }
    destruct (String.eqb direction "down");
      [|destruct (String.eqb direction "up")];
      f_equal; apply filter_ext; intro r; now rewrite E.
Qed.

(** X10: the direction only selects among the records: runs that
    differ in the direction alone store the same statistics and fail
    the same way, and the change points of "both" are those of "up"
    and those of "down" together, none of them twice. *)
Theorem direction_only_selects
    (np_sqrt norm_cdf norm_ppf : Q -> Q) (SimpleExpSmoothing : Series -> ses_outcome)
    (self : MKDetector) (W : nat) (td : option nat) (freq : option string) :
  let run direction := detector np_sqrt norm_cdf norm_ppf SimpleExpSmoothing
                         self W td direction freq in
  MK_statistics (fst (run "up")) = MK_statistics (fst (run "both"))
  /\ MK_statistics (fst (run "down")) = MK_statistics (fst (run "both"))
  /\ match snd (run "both") with
     | Raise e => snd (run "up") = Raise e /\ snd (run "down") = Raise e
     | Ok both =>
         exists up down,
           snd (run "up") = Ok up /\ snd (run "down") = Ok down
           /\ (forall cp, In cp both <-> In cp up \/ In cp down)
           /\ length both = (length up + length down)%nat
     end.
Proof.
  intro run. subst run. cbv beta. unfold detector.
  cbn [data set_params].
  destruct (data self) as [d|]; [|cbn [fst snd MK_statistics]; repeat split].
  set (f := dropna_axis1 d).
  set (s0 := fun direction =>
               set_ts (set_params self (mkParams W td direction freq)) f).
  assert (Hscan : forall direction,
             run_scan np_sqrt norm_cdf norm_ppf SimpleExpSmoothing
                      (s0 direction) (mkParams W td direction freq) f
             = run_scan np_sqrt norm_cdf norm_ppf SimpleExpSmoothing
                        (s0 "both") (mkParams W td "both" freq) f).
  { intro direction. apply run_scan_test_settings; try reflexivity.
    repeat split. }
  change (set_ts (set_params self (mkParams W td "up" freq)) f) with (s0 "up").
  change (set_ts (set_params self (mkParams W td "down" freq)) f) with (s0 "down").
  change (set_ts (set_params self (mkParams W td "both" freq)) f) with (s0 "both").
  rewrite (Hscan "up"), (Hscan "down").
  destruct (run_scan np_sqrt norm_cdf norm_ppf SimpleExpSmoothing
                     (s0 "both") (mkParams W td "both" freq) f) as [st|e] eqn:Est.
  2:{ cbn [fst snd MK_statistics]. repeat split. }
  cbn [fst snd MK_statistics set_MK_statistics].
  split; [reflexivity|]. split; [reflexivity|].
  pose proof (run_scan_labels np_sqrt norm_cdf norm_ppf SimpleExpSmoothing
                (s0 "both") _ f st Est) as Hlab.
  rewrite !get_MK_results_by_label by reflexivity.
  cbn [multivariate set_MK_statistics s0 set_ts set_params].
  unfold record_label in *. cbn [multivariate s0 set_ts set_params] in *.
  set (check := if multivariate self then _ else _).
  destruct check as [[]|e]; cbn [bind]; [|split; reflexivity].
  cbn [String.eqb Ascii.eqb Bool.eqb].
  do 2 eexists. split; [reflexivity|]. split; [reflexivity|].
  unfold _convert_detected_tps. cbn [multivariate].
  set (label := fun r : StatRecord =>
                  if multivariate self then overall_cell r
                  else match trend_direction r with
                       | TrendStr t => Some t
                       | TrendDict _ => None
                       end) in *.
  assert (Hsplit : Forall (fun r =>
                     negb (cell_is "no trend" (label r))
                     = cell_is "increasing" (label r) || cell_is "decreasing" (label r)
                     /\ cell_is "increasing" (label r) && cell_is "decreasing" (label r)
                        = false) st).
  { eapply Forall_impl; [|exact Hlab]. intros r (t & Ht & Hk). cbv beta.
    fold (label r) in Ht. rewrite Ht. cbn [cell_is].
    now apply known_label_split. }
  split.
  - intro cp. now apply filter_split_In.
  - rewrite !length_map. now apply filter_split_length.
Qed.

(** ** Smoothing a series without noise *)

Lemma dropna_series_values (idx : list Z) (col : list (option Q)) :
  length col = length idx -> has_nan col = false ->
  map (fun e => Some (snd e)) (dropna_series idx col) = col.
Proof.
  revert col. induction idx as [|t idx IH]; intros [|[v|] col] Hl Hn;
    try discriminate; [reflexivity|].
  cbn [dropna_series map snd]. f_equal. apply IH.
  - now injection Hl.
  - exact Hn.
Qed.

(** putting a complete column, as the series of its values, next to
    complete columns over the same index gives the frame of all of them *)
Lemma concat_axis1_exact (idx : list Z) (cols : list (string * list (option Q)))
    (c : string * list (option Q)) (sm : DataFrame) :
  NoDup idx ->
  sm = empty_frame /\ cols = [] \/ sm = mkDF idx cols ->
  Forall (complete_column (length idx)) cols ->
  complete_column (length idx) c ->
  concat_axis1 sm (fst c) (dropna_series idx (snd c)) = mkDF idx (cols ++ [c]).
Proof.
  intros Hnd Hsm Hcols [Hl Hn].
  pose proof (dropna_series_index idx (snd c) Hl Hn) as Hidx.
  assert (Hnew : map (fun t => series_get t (dropna_series idx (snd c))) idx = snd c).
  { pose proof (dropna_series_values idx (snd c) Hl Hn) as Hv.
    set (s := dropna_series idx (snd c)) in *.
    rewrite <- Hidx. rewrite series_get_self by (rewrite Hidx; exact Hnd).
    exact Hv. }
  unfold concat_axis1. rewrite Hidx.
  destruct Hsm as [[-> ->]| ->]; cbn [index columns empty_frame].
  - cbn [index_union map_columns map app]. rewrite Hnew. now destruct c.
  - rewrite (index_union_same idx idx) by now right. f_equal.
    rewrite Hnew. f_equal; [|now destruct c].
    unfold map_columns. rewrite <- (map_id cols) at 2.
    apply map_ext_in. intros c' Hc'.
    rewrite Forall_forall in Hcols. destruct (Hcols c' Hc') as [Hl' _].
    rewrite (column_get_self idx (snd c') Hnd Hl'). now destruct c'.
Qed.

Lemma noise_free_fold (SimpleExpSmoothing : Series -> ses_outcome) (ts : DataFrame)
    (rest pre : list (string * list (option Q))) (sm : DataFrame) :
  (forall s, SimpleExpSmoothing s = FloatingPointErr) ->
  NoDup (index ts) ->
  sm = empty_frame /\ pre = [] \/ sm = mkDF (index ts) pre ->
  Forall (complete_column (nrows ts)) pre ->
  Forall (complete_column (nrows ts)) rest ->
  rest <> [] ->
  fold_left (smooth_column SimpleExpSmoothing ts) rest (Ok sm)
  = Ok (mkDF (index ts) (pre ++ rest)).
Proof.
  intros Hfp Hnd. revert pre sm.
  induction rest as [|c rest IH]; intros pre sm Hsm Hpre Hrest Hne; [contradiction|].
  inversion Hrest as [|? ? Hc Hrest']; subst.
  cbn [fold_left]. unfold smooth_column at 2. cbn [bind]. rewrite Hfp.
  rewrite (concat_axis1_exact (index ts) pre c sm Hnd Hsm Hpre Hc).
  destruct rest as [|c2 rest].
  - reflexivity.
  - rewrite (IH (pre ++ [c])%list).
    + now rewrite <- app_assoc.
    + now right.
    + apply Forall_app. split; [exact Hpre|]. now constructor.
    + exact Hrest'.
    + discriminate.
Qed.

(** X11: when the smoother fails with the floating-point error on
    every column (the data has no noise), [_smoothing] returns a frame
    with no missing value as it is. *)
Theorem smoothing_without_noise (SimpleExpSmoothing : Series -> ses_outcome)
    (ts : DataFrame) :
  (forall s, SimpleExpSmoothing s = FloatingPointErr) ->
  NoDup (index ts) ->
  columns ts <> [] ->
  complete_frame ts ->
  _smoothing SimpleExpSmoothing ts = Ok ts.
Proof.
  intros Hfp Hnd Hne Hc. unfold _smoothing.
  rewrite (noise_free_fold SimpleExpSmoothing ts (columns ts) [] empty_frame
             Hfp Hnd); try assumption.
  - cbn [app]. now destruct ts.
  - now left.
  - constructor.
Qed.

Lemma smoothing_without_noise_witness :
  _smoothing (fun _ => FloatingPointErr) gappy_frame_without_b
  = Ok gappy_frame_without_b.
Proof.
  apply (smoothing_without_noise (fun _ => FloatingPointErr) gappy_frame_without_b).
  - reflexivity.
  - repeat constructor; cbn; intuition discriminate.
  - discriminate.
  - repeat constructor.
Defined.

(** ** The checks of a run *)

(** X12: what [detector] rejects, and in which state it leaves the
    detector.  A whole-series run on fewer rows than [window_size]
    fails with a ValueError (rows counted once the columns with a
    missing value are dropped); an anchor-date run fails with an
    IndexError on an empty series (the log line reads the last
    timestamp first), with a ValueError when [training_days] is below
    [window_size] or above the number of rows; a frequency other than
    weekly, monthly and yearly fails with a KeyError once these checks
    are passed.  Every such call has already overwritten the run
    parameters and the stored frame, and leaves the statistics of an
    earlier run in place. *)
Theorem detector_rejects_invalid_input
    (np_sqrt norm_cdf norm_ppf : Q -> Q) (SimpleExpSmoothing : Series -> ses_outcome)
    (self : MKDetector) (d : DataFrame) (W : nat) (td : option nat)
    (direction : string) (frequency : option string) :
  data self = Some d ->
  let f := dropna_axis1 d in
  let ps := mkParams W td direction frequency in
  let r := detector np_sqrt norm_cdf norm_ppf SimpleExpSmoothing
             self W td direction frequency in
  let fails_with e :=
    r = (set_ts (set_params self ps) f, Raise e)
    /\ MK_statistics (fst r) = MK_statistics self in
  (td = None -> (nrows f < W)%nat ->
   fails_with (ValueError ("For the whole time series analysis, data must have at least"
                           ++ "window_size=" ++ str_of_nat W ++ " points.")))
  /\ (forall T, td = Some T -> index f = [] -> fails_with IndexError)
  /\ (forall T, td = Some T -> index f <> [] -> (T < W)%nat ->
      fails_with (ValueError ("For the anchor date analysis, training days should have at "
                              ++ "least window_size=" ++ str_of_nat W ++ " points.")))
  /\ (forall T, td = Some T -> index f <> [] -> (W <= T)%nat -> (nrows f < T)%nat ->
      fails_with (ValueError ("For the anchor date analysis, data must have "
                              ++ "at least training_days=" ++ str_of_nat T ++ " points.")))
  /\ (forall name, frequency = Some name ->
      ~ In name ["weekly"; "monthly"; "yearly"] ->
      match td with
      | None => (W <= nrows f)%nat
      | Some T => index f <> [] /\ (W <= T <= nrows f)%nat
      end ->
      fails_with (KeyError name)).
Proof.
  intros Hd f ps r fails_with.
  assert (Hfail : forall e,
             run_scan np_sqrt norm_cdf norm_ppf SimpleExpSmoothing
                      (set_ts (set_params self ps) f) ps f = Raise e ->
             fails_with e).
  { intros e He. subst fails_with r. cbv beta. unfold detector.
    fold ps. cbn [data set_params]. rewrite Hd. fold f. rewrite He.
    split; reflexivity. }
  split; [|split; [|split; [|split]]].
  - intros -> Hlt. apply Hfail. unfold run_scan. cbn [training_days window_size ps].
    apply Nat.ltb_lt in Hlt. now rewrite Hlt.
  - intros T -> Hi. apply Hfail. unfold run_scan. cbn [training_days ps].
    unfold last_label. now rewrite Hi.
  - intros T -> Hi Hlt. apply Hfail. unfold run_scan.
    cbn [training_days window_size ps].
    destruct (last_label_ok _ Hi) as [a Ha]. rewrite Ha. cbn [bind].
    apply Nat.ltb_lt in Hlt. now rewrite Hlt.
  - intros T -> Hi Hle Hlt. apply Hfail. unfold run_scan.
    cbn [training_days window_size ps].
    destruct (last_label_ok _ Hi) as [a Ha]. rewrite Ha. cbn [bind].
    apply Nat.ltb_ge in Hle. apply Nat.ltb_lt in Hlt. now rewrite Hle, Hlt.
  - intros name -> Hname Hsize. apply Hfail.
    assert (Hp : seasonal_period name = Raise (KeyError name)).
    { unfold seasonal_period.
      destruct (String.eqb_spec name "weekly") as [E|_];
        [exfalso; apply Hname; rewrite E; cbn; tauto|].
      destruct (String.eqb_spec name "monthly") as [E|_];
        [exfalso; apply Hname; rewrite E; cbn; tauto|].
      destruct (String.eqb_spec name "yearly") as [E|_];
        [exfalso; apply Hname; rewrite E; cbn; tauto|].
      reflexivity. }
    unfold run_scan. cbn [training_days window_size freq ps].
    destruct td as [T|].
    + destruct Hsize as [Hi [Hle Hle']].
      destruct (last_label_ok _ Hi) as [a Ha]. rewrite Ha. cbn [bind].
      apply Nat.ltb_ge in Hle, Hle'. rewrite Hle, Hle'.
      unfold _remove_seasonality. now rewrite Hp.
    + apply Nat.ltb_ge in Hsize. rewrite Hsize.
      unfold _remove_seasonality. now rewrite Hp.
Qed.

Lemma detector_rejects_invalid_input_witness :
  snd (detector newton_sqrt linear_cdf quantile_975 ses_02
         (default_detector (daily_series [1; 2; 3])) 5 None "both" None)
  = Raise (ValueError
             "For the whole time series analysis, data must have at leastwindow_size=5 points.").
Proof.
  destruct (proj1 (detector_rejects_invalid_input newton_sqrt linear_cdf quantile_975
                     ses_02 (default_detector (daily_series [1; 2; 3]))
                     (daily_series [1; 2; 3]) 5 None "both" None eq_refl)
                  eq_refl) as [E _].
  - cbn. lia.
  - rewrite E. reflexivity.
Defined.

(** ** A series whose columns all have a missing value *)

(** X13: when every value column holds a missing value, the
    whole-series run drops them all, scans nothing and stores empty
    statistics: it returns no change point, without an error, on a
    univariate detector, and fails with KeyError 'overall' on a
    multivariate one. *)
Theorem series_with_gaps_yields_nothing
    (np_sqrt norm_cdf norm_ppf : Q -> Q) (SimpleExpSmoothing : Series -> ses_outcome)
    (self : MKDetector) (d : DataFrame) (W : nat) (direction : string) :
  data self = Some d ->
  Forall (fun c => has_nan (snd c) = true) (columns d) ->
  (W <= nrows d)%nat ->
  valid_direction direction = true ->
  let r := detector np_sqrt norm_cdf norm_ppf SimpleExpSmoothing
             self W None direction None in
  MK_statistics (fst r) = Some []
  /\ snd r = if multivariate self then Raise (KeyError "overall") else Ok [].
Proof.
  intros Hd Hnan Hw Hv r. subst r. unfold detector.
  cbn [data set_params]. rewrite Hd.
  assert (Hf : dropna_axis1 d = mkDF (index d) []).
  { unfold dropna_axis1. f_equal. apply filter_none.
    eapply Forall_impl; [|exact Hnan]. intros c Hc. cbv beta. now rewrite Hc. }
  rewrite Hf.
  assert (Hscan : forall s,
             run_scan np_sqrt norm_cdf norm_ppf SimpleExpSmoothing s
                      (mkParams W None direction None) (mkDF (index d) [])
             = Ok []).
  { intro s. unfold run_scan. cbn [training_days window_size freq].
    assert (Hlt : (nrows (mkDF (index d) []) <? W)%nat = false)
      by (apply Nat.ltb_ge; exact Hw).
    rewrite Hlt. cbn [_remove_seasonality bind _smoothing columns fold_left].
    cbn [empty_frame index]. now rewrite skipn_nil. }
  rewrite Hscan. cbn [fst snd MK_statistics set_MK_statistics].
  split; [reflexivity|].
  rewrite get_MK_results_by_label by exact Hv.
  cbn [multivariate set_MK_statistics set_ts set_params].
  destruct (multivariate self); reflexivity.
Qed.

Lemma series_with_gaps_yields_nothing_witness :
  snd (detector newton_sqrt linear_cdf quantile_975 ses_02
         (default_detector
            (mkDF [0; 1; 2; 3; 4]
                  [("y", [Some 1%Q; Some 2%Q; None; Some 4%Q; Some 5%Q])]))
         3 None "both" None)
  = Ok [].
Proof.
  apply (series_with_gaps_yields_nothing newton_sqrt linear_cdf quantile_975 ses_02
           (default_detector
              (mkDF [0; 1; 2; 3; 4]
                    [("y", [Some 1%Q; Some 2%Q; None; Some 4%Q; Some 5%Q])]))
           (mkDF [0; 1; 2; 3; 4]
                 [("y", [Some 1%Q; Some 2%Q; None; Some 4%Q; Some 5%Q])])
           3 "both").
  - reflexivity.
  - repeat constructor.
  - cbn. lia.
  - reflexivity.
Defined.

(** ** The anchor-date run *)

Lemma slice_bound_left_le (x : Z) (k : nat) (idx : list Z) :
  Forall (fun l => x <= l) (skipn k idx) ->
  (slice_bound_left x idx <= k)%nat.
Proof.
  intro H. unfold slice_bound_left.
  rewrite <- (firstn_skipn k idx) at 1. rewrite filter_app, length_app.
  rewrite (filter_none _ (skipn k idx)).
  - pose proof (filter_length_le (fun l => l <? x) (firstn k idx)) as H1.
    pose proof (firstn_le_length k idx) as H2. cbn [length]. lia.
  - eapply Forall_impl; [|exact H]. intros l Hl. cbv beta in *. lia.
Qed.

Lemma slice_bound_right_last (pre : list Z) (a : Z) :
  StronglySorted Z.lt (pre ++ [a]) ->
  slice_bound_right a (pre ++ [a]) = length (pre ++ [a]).
Proof.
  intro H. rewrite (slice_bound_right_sorted pre a [] H), length_app.
  cbn [length]. lia.
Qed.

(** the rows from position [lo] on, of a frame with no missing value *)
Lemma df_rows_suffix (lo : nat) (d : DataFrame) :
  complete_frame d ->
  index (df_rows lo (nrows d) d) = skipn lo (index d)
  /\ complete_frame (df_rows lo (nrows d) d)
  /\ map fst (columns (df_rows lo (nrows d) d)) = map fst (columns d).
Proof.
  intro Hc. unfold df_rows, nrows. cbn [index columns].
  assert (Hi : firstn (length (index d) - lo) (skipn lo (index d)) = skipn lo (index d)).
  { apply firstn_all2. rewrite length_skipn. lia. }
  rewrite Hi. split; [reflexivity|]. split.
  - unfold complete_frame, nrows. cbn [index columns]. rewrite ?Hi.
    unfold map_columns. rewrite Forall_map.
    eapply Forall_impl; [|exact Hc]. intros c [Hl Hn].
    unfold complete_column. cbn [snd]. split.
    + rewrite length_firstn, !length_skipn, Hl. unfold nrows. lia.
    + apply has_nan_firstn, has_nan_skipn, Hn.
  - unfold map_columns. now rewrite map_map.
Qed.

(** X14: an anchor-date run on a series with no missing value, whose
    last [window_size] timestamps lie within [training_days] days of
    the last one, stores exactly one record, at the last timestamp of
    the series; so it returns at most one change point, at that
    timestamp. *)
Theorem anchor_run_single_record
    (np_sqrt norm_cdf norm_ppf : Q -> Q) (SimpleExpSmoothing : Series -> ses_outcome)
    (self : MKDetector) (d : DataFrame) (W T : nat) (direction : string) (a : Z) :
  ses_contract SimpleExpSmoothing ->
  data self = Some d ->
  complete_frame d ->
  StronglySorted Z.lt (index d) ->
  (1 <= ncols d)%nat ->
  multivariate self = negb (is_univariate d) ->
  (2 <= W <= T)%nat ->
  (T <= nrows d)%nat ->
  last_label (index d) = Ok a ->
  Forall (fun l => a - Z.of_nat T <= l) (py_tail W (index d)) ->
  let r := detector np_sqrt norm_cdf norm_ppf SimpleExpSmoothing
             self W (Some T) direction None in
  (exists rec, MK_statistics (fst r) = Some [rec] /\ ds rec = a)
  /\ forall cps, snd r = Ok cps ->
       (length cps <= 1)%nat
       /\ Forall (fun cp => start_time (fst cp) = a /\ end_time (fst cp) = a) cps.
Proof.
  intros Hses Hd Hc Hs Hcols Hflag [HW HWT] HT Ha Hwin r.
  set (ps := mkParams W (Some T) direction None).
  set (self' := set_ts (set_params self ps) d).
  assert (Hidx : exists pre, index d = (pre ++ [a])%list).
  { unfold last_label in Ha. destruct (rev (index d)) as [|t l] eqn:E; [discriminate|].
    injection Ha as ->. exists (rev l).
    rewrite <- (rev_involutive (index d)), E. reflexivity. }
  destruct Hidx as [pre Hpre].
  assert (HL : nrows d = S (length pre)).
  { unfold nrows. rewrite Hpre, length_app. cbn [length]. lia. }
  set (lo := slice_bound_left (a - Z.of_nat T) (index d)).
  assert (Hlo : (lo <= nrows d - W)%nat).
  { apply slice_bound_left_le. unfold py_tail in Hwin.
    destruct W as [|W']; [lia|]. exact Hwin. }
  assert (Hhi : slice_bound_right a (index d) = nrows d).
  { unfold nrows. rewrite Hpre. apply slice_bound_right_last. now rewrite <- Hpre. }
  set (f := loc_between (a - Z.of_nat T) a d).
  assert (Hf : f = df_rows lo (nrows d) d).
  { subst f. unfold loc_between. fold lo. now rewrite Hhi. }
  destruct (df_rows_suffix lo d Hc) as (Hfi & Hfc & Hfn). rewrite <- Hf in Hfi, Hfc, Hfn.
  assert (Hfi' : index f = (skipn lo pre ++ [a])%list).
  { rewrite Hfi, Hpre, skipn_app.
    replace (lo - length pre)%nat with 0%nat by lia. reflexivity. }
  assert (Hfs : StronglySorted Z.lt (index f)) by (rewrite Hfi; now apply sorted_skipn).
  assert (Hncols : forall g, map fst (columns g) = map fst (columns d) -> ncols g = ncols d).
  { intros g Hg. unfold ncols.
    now rewrite <- (length_map fst (columns g)), Hg, length_map. }
  destruct (smoothing_complete SimpleExpSmoothing f Hses (sorted_NoDup _ Hfs))
    as (sm & Hsm & Hi & Hnames & Hcsm).
  { rewrite Hfi'. intro E. apply (f_equal (@length Z)) in E.
    rewrite length_app in E. cbn [length] in E. lia. }
  { pose proof (Hncols f Hfn) as E. unfold ncols in E, Hcols.
    destruct (columns f); [simpl in E; lia|discriminate]. }
  { exact Hfc. }
  assert (Hps : params self' = Some ps) by reflexivity.
  destruct (runDetector_complete np_sqrt norm_cdf norm_ppf self' ps Hps HW
              sm (skipn lo pre) a) as (rec & Hrec & Hds).
  { now rewrite Hi. }
  { unfold nrows. rewrite Hi, Hfi, length_skipn. cbn [window_size ps].
    unfold nrows in Hlo, HT. lia. }
  { exact Hcsm. }
  { rewrite (Hncols sm); [exact Hcols|]. now rewrite Hnames. }
  { cbn [multivariate self' set_ts set_params]. rewrite Hflag.
    unfold is_univariate. rewrite (Hncols sm); [reflexivity|]. now rewrite Hnames. }
  assert (Hscan : run_scan np_sqrt norm_cdf norm_ppf SimpleExpSmoothing self' ps d
                  = Ok [rec]).
  { unfold run_scan. cbn [training_days window_size freq ps].
    rewrite Ha. cbn [bind].
    assert (E1 : (T <? W)%nat = false) by (apply Nat.ltb_ge; lia).
    assert (E2 : (nrows d <? T)%nat = false) by (apply Nat.ltb_ge; lia).
    rewrite E1, E2. fold f. cbn [_remove_seasonality bind].
    rewrite Hsm. cbn [bind]. rewrite Hrec. reflexivity. }
  subst r. unfold detector. fold ps. cbn [data set_params]. rewrite Hd.
  rewrite (dropna_axis1_complete d Hc). fold self'. rewrite Hscan.
  cbn [fst snd MK_statistics set_MK_statistics]. split.
  - exists rec. split; [reflexivity|exact Hds].
  - intros cps Hcps.
    destruct (get_MK_results (set_MK_statistics self' [rec]) [rec] direction)
      as [res|e] eqn:Eres; [|discriminate].
    cbn [bind] in Hcps. injection Hcps as <-.
    assert (Hres : incl res [rec] /\ (length res <= 1)%nat).
    { destruct (valid_direction direction) eqn:Hv.
      - rewrite (get_MK_results_by_label _ _ _ Hv) in Eres.
        match type of Eres with
        | bind ?c _ = _ => destruct c as [[]|e]; [|discriminate]
        end.
        cbn [bind] in Eres.
        match type of Eres with
        | Ok ?l = _ => set (sel := l) in Eres
        end.
        assert (Hsel : incl sel [rec] /\ (length sel <= 1)%nat)
          by (subst sel; split; [apply incl_filter|apply (filter_length_le _ [rec])]).
        clearbody sel. injection Eres as <-. exact Hsel.
      - unfold get_MK_results in Eres. unfold valid_direction in Hv.
        rewrite Hv in Eres. discriminate. }
    destruct Hres as [Hincl Hlen]. unfold _convert_detected_tps.
    rewrite length_map. split; [exact Hlen|].
    rewrite Forall_map. apply Forall_forall. intros row Hrow.
    cbn [fst start_time end_time].
    destruct (Hincl row Hrow) as [<-|[]]. now split.
Qed.

Lemma anchor_run_single_record_witness :
  exists rec,
    MK_statistics (fst (detector newton_sqrt linear_cdf quantile_975 ses_02
                          (default_detector (daily_series [1; 2; 3; 4; 5; 6]))
                          3 (Some 4%nat) "both" None))
    = Some [rec]
    /\ ds rec = 5.
Proof.
  apply (anchor_run_single_record newton_sqrt linear_cdf quantile_975 ses_02
           (default_detector (daily_series [1; 2; 3; 4; 5; 6]))
           (daily_series [1; 2; 3; 4; 5; 6]) 3 4 "both" 5).
  - exact ses_02_contract.
  - reflexivity.
  - repeat constructor.
  - repeat constructor.
  - cbn. lia.
  - reflexivity.
  - lia.
  - cbn. lia.
  - reflexivity.
  - repeat constructor; cbn; lia.
Defined.

(** ** The ranker: directions, failures and unknown time points *)

Lemma metrics_analysis_frames (self : MKDetector) (recs : list StatRecord)
    (keys : list string) :
  multivariate self = true ->
  MK_statistics self = Some recs ->
  recs <> [] ->
  NoDup keys -> In "overall" keys ->
  Forall (multivariate_record keys) recs ->
  _metrics_analysis self
  = Ok ((metric_names keys, combine (map ds recs) (map tau_dict_of recs)),
        (metric_names keys, combine (map ds recs) (map trend_dict_of recs))).
Proof.
  intros Hmulti Hst Hne Hkeys Hov Hrecs.
  destruct (dicts_of_records keys recs Hrecs) as (Etau & Etrend & Ktau & Ktrend).
  assert (Ctau : from_dict_columns (map tau_dict_of recs) = keys).
  { apply from_dict_columns_same; try assumption.
    destruct recs; [contradiction|discriminate]. }
  assert (Ctrend : from_dict_columns (map trend_dict_of recs) = keys).
  { apply from_dict_columns_same; try assumption.
    destruct recs; [contradiction|discriminate]. }
  assert (Hcols : metric_columns keys = Ok (metric_names keys)).
  { unfold metric_columns.
    assert (E : existsb (String.eqb "overall") keys = true)
      by (now apply existsb_eqb_In).
    now rewrite E. }
  unfold _metrics_analysis, get_MK_statistics.
  rewrite Hmulti, Hst. cbn [negb bind].
  rewrite Etau. cbn [bind]. rewrite Ctau, Hcols. cbn [bind].
  rewrite Etrend. cbn [bind]. rewrite Ctrend, Hcols. reflexivity.
Qed.

Lemma looked_up_ok (self : MKDetector) (ps : RunParams) (time_point tp : Z) :
  looked_up_time_point self ps time_point tp ->
  match training_days ps with
  | Some _ => match data self with
              | Some d => last_label (index d)
              | None => Raise (AttributeError "time")
              end
  | None => Ok time_point
  end = Ok tp.
Proof.
  unfold looked_up_time_point. destruct (training_days ps).
  - intros (d & Hd & Hl). now rewrite Hd.
  - now intros ->.
Qed.

(** the rows [get_top_k_metrics] sorts, for an evaluated time point:
    the per-metric entries of its record *)
Lemma get_top_k_metrics_rows
    (sort_values : bool -> list (nat * option Q) -> list (nat * option Q))
    (self : MKDetector) (ps : RunParams) (recs : list StatRecord)
    (r0 : StatRecord) (td : list (string * option Q))
    (trd : list (string * option string)) (time_point tp : Z) (top_k : option nat) :
  multivariate self = true ->
  params self = Some ps ->
  MK_statistics self = Some recs ->
  multivariate_statistics recs ->
  looked_up_time_point self ps time_point tp ->
  In r0 recs -> ds r0 = tp ->
  Tau r0 = TauDict td -> trend_direction r0 = TrendDict trd ->
  get_top_k_metrics sort_values self time_point top_k
  = (top_metrics <-
       (if String.eqb (direction ps) "down" then
          Ok (reindex (metric_entries tp td trd)
                (sort_values true (tau_series (fun v => v) (metric_entries tp td trd))))
        else if String.eqb (direction ps) "up" then
          Ok (reindex (metric_entries tp td trd)
                (sort_values false (tau_series (fun v => v) (metric_entries tp td trd))))
        else if String.eqb (direction ps) "both" then
          Ok (reindex (metric_entries tp td trd)
                (sort_values false
                   (tau_series (option_map Qabs) (metric_entries tp td trd))))
        else Raise (UnboundLocalError "top_metrics")) ;;
     match top_k with
     | None => Ok top_metrics
     | Some k => Ok (firstn k top_metrics)
     end).
Proof.
  intros Hmulti Hps Hst (Hnd & keys & Hkeys & Hov & Hrecs) Htp Hin Hds HTau Htrend.
  assert (Hne : recs <> []) by (intro E; rewrite E in Hin; contradiction).
  destruct (dicts_of_records keys recs Hrecs) as (_ & _ & Ktau & _).
  assert (Etd : tau_dict_of r0 = td) by (unfold tau_dict_of; now rewrite HTau).
  assert (Etrd : trend_dict_of r0 = trd) by (unfold trend_dict_of; now rewrite Htrend).
  assert (Ektd : dict_keys td = keys).
  { rewrite Forall_forall in Ktau. rewrite <- Etd. apply Ktau. now apply in_map. }
  unfold get_top_k_metrics.
  rewrite (metrics_analysis_frames self recs keys Hmulti Hst Hne Hkeys Hov Hrecs).
  unfold get_params. rewrite Hps. cbn [bind fst snd].
  rewrite (looked_up_ok self ps time_point tp Htp). cbn [bind].
  rewrite (melt_at (metric_names keys) recs tau_dict_of r0 tp Hnd Hin Hds).
  rewrite (melt_at (metric_names keys) recs trend_dict_of r0 tp Hnd Hin Hds).
  rewrite (merge_aligned tp (fun m => cell m (tau_dict_of r0))
             (fun m => cell m (trend_dict_of r0)) (metric_names keys)
             (metric_names_NoDup keys Hkeys)).
  rewrite Etd, Etrd. unfold metric_entries. rewrite Ektd. reflexivity.
Qed.

(** sorting a column of the rows and reindexing the frame by the
    result reorders the rows; the column of the result is the sorted
    column *)
Lemma rank_by_key
    (sort_values : bool -> list (nat * option Q) -> list (nat * option Q))
    (key : option Q -> option Q) (asc : bool) (rows : list MetricRow) :
  (forall ascending s, Permutation s (sort_values ascending s)) ->
  Permutation rows (reindex rows (sort_values asc (tau_series key rows)))
  /\ map (fun r => key (row_Tau r))
         (reindex rows (sort_values asc (tau_series key rows)))
     = map snd (sort_values asc (tau_series key rows)).
Proof.
  intro Hperm. split.
  - rewrite <- (reindex_tau_series key rows) at 1. apply reindex_perm, Hperm.
  - apply reindex_values.
    eapply Permutation_Forall; [apply (Hperm asc)|].
    apply (tau_series_from key [] rows).
Qed.

Lemma reversed_sort_ascending : ascending_contract reversed_sort_values.
Proof.
  intro s. unfold reversed_sort_values, ascending.
  apply StronglySorted_map.
  apply (StronglySorted_weaken (fun a b => cell_leb a b = true)).
  - intros a b Hab. unfold cell_leb in Hab. unfold cell_le.
    destruct (snd a), (snd b); try discriminate; try exact I.
    now apply Qle_bool_iff.
  - apply sort_sorted; [exact cell_leb_total|exact cell_leb_trans].
Qed.

(** X15: after a multivariate run with the direction "up",
    [get_top_k_metrics] returns the per-metric entries of the record of
    the time point by descending Tau (the most increasing first); with
    "down", by ascending Tau (the most decreasing first); metrics with
    no Tau come last in both, and [top_k] cuts the list. *)
Theorem top_k_metrics_up_down
    (sort_values : bool -> list (nat * option Q) -> list (nat * option Q))
    (self : MKDetector) (ps : RunParams) (recs : list StatRecord)
    (r0 : StatRecord) (td : list (string * option Q))
    (trd : list (string * option string)) (time_point tp : Z) (top_k : option nat) :
  sort_contract sort_values ->
  ascending_contract sort_values ->
  multivariate self = true ->
  params self = Some ps ->
  MK_statistics self = Some recs ->
  multivariate_statistics recs ->
  looked_up_time_point self ps time_point tp ->
  In r0 recs -> ds r0 = tp ->
  Tau r0 = TauDict td -> trend_direction r0 = TrendDict trd ->
  direction ps = "up" \/ direction ps = "down" ->
  exists ranked,
    get_top_k_metrics sort_values self time_point top_k
    = Ok (match top_k with None => ranked | Some k => firstn k ranked end)
    /\ Permutation (metric_entries tp td trd) ranked
    /\ (direction ps = "up" -> descending (map row_Tau ranked))
    /\ (direction ps = "down" -> ascending (map row_Tau ranked)).
Proof.
  intros [Hperm Hdesc] Hasc Hmulti Hps Hst Hstats Htp Hin Hds HTau Htrend Hdir.
  rewrite (get_top_k_metrics_rows sort_values self ps recs r0 td trd time_point tp
             top_k Hmulti Hps Hst Hstats Htp Hin Hds HTau Htrend).
  set (rows := metric_entries tp td trd).
  destruct Hdir as [E|E]; rewrite E; cbn [String.eqb Ascii.eqb Bool.eqb bind].
  - destruct (rank_by_key sort_values (fun v => v) false rows Hperm) as [HP HV].
    eexists. split; [destruct top_k; reflexivity|].
    split; [exact HP|]. split; [|discriminate].
    intros _. exact (eq_ind_r descending (Hdesc _) HV).
  - destruct (rank_by_key sort_values (fun v => v) true rows Hperm) as [HP HV].
    eexists. split; [destruct top_k; reflexivity|].
    split; [exact HP|]. split; [discriminate|].
    intros _. exact (eq_ind_r ascending (Hasc _) HV).
Qed.

(** the statistics of the sample run, whatever the direction *)
Lemma twin_run_statistics (direction : string) :
  exists r0,
    MK_statistics (twin_run_with direction) = Some [r0]
    /\ ds r0 = 5
    /\ Tau r0 = TauDict [("a", Some (20 # 20)); ("b", Some (20 # 20));
                         ("c", Some (-20 # 20)); ("overall", Some (80 # 240))]
    /\ trend_direction r0
       = TrendDict [("a", Some "increasing"); ("b", Some "increasing");
                    ("c", Some "decreasing"); ("overall", Some "no trend")]
    /\ multivariate_statistics [r0].
Proof.
  eexists. split; [vm_compute; reflexivity|].
  split; [reflexivity|]. split; [reflexivity|]. split; [reflexivity|].
  split; [repeat constructor; intros []|].
  exists ["a"; "b"; "c"; "overall"]. split.
  - repeat constructor; cbn; intuition discriminate.
  - split; [cbn; tauto|]. constructor; [|constructor].
    eexists. eexists. repeat split; reflexivity.
Qed.

Lemma top_k_metrics_up_down_witness :
  exists ranked,
    get_top_k_metrics reversed_sort_values (twin_run_with "up") 5 (Some 2%nat)
    = Ok (firstn 2 ranked)
    /\ descending (map row_Tau ranked).
Proof.
  destruct (twin_run_statistics "up") as (r0 & Hst & Hds & HTau & Htrend & Hstats).
  destruct (top_k_metrics_up_down reversed_sort_values (twin_run_with "up")
              (mkParams 5 None "up" None) [r0] r0 _ _ 5 5 (Some 2%nat)
              reversed_sort_contract reversed_sort_ascending eq_refl eq_refl
              Hst Hstats eq_refl (or_introl eq_refl) Hds HTau Htrend
              (or_introl eq_refl))
    as (ranked & Hr & _ & Hup & _).
  exists ranked. split; [exact Hr|]. apply Hup. reflexivity.
Defined.

(** X16: how [get_top_k_metrics] fails.  On a detector that is not
    multivariate it raises the ValueError of [_metrics_analysis]; on a
    multivariate detector that has not run, an AttributeError; and on
    one whose last run stored statistics under a direction other than
    up, down and both (that run raised after storing them), an
    UnboundLocalError, whatever the time point. *)
Theorem top_k_metrics_failures
    (sort_values : bool -> list (nat * option Q) -> list (nat * option Q))
    (self : MKDetector) (time_point : Z) (top_k : option nat) :
  (multivariate self = false ->
   get_top_k_metrics sort_values self time_point top_k
   = Raise (ValueError "Your data is not multivariate."))
  /\ (multivariate self = true -> MK_statistics self = None ->
      get_top_k_metrics sort_values self time_point top_k
      = Raise (AttributeError "MK_statistics"))
  /\ (forall ps recs,
        multivariate self = true ->
        params self = Some ps ->
        MK_statistics self = Some recs ->
        recs <> [] ->
        multivariate_statistics recs ->
        training_days ps = None ->
        valid_direction (direction ps) = false ->
        get_top_k_metrics sort_values self time_point top_k
        = Raise (UnboundLocalError "top_metrics")).
Proof.
  split; [|split].
  - intro Hm. unfold get_top_k_metrics, _metrics_analysis. now rewrite Hm.
  - intros Hm Hst. unfold get_top_k_metrics, _metrics_analysis, get_MK_statistics.
    now rewrite Hm, Hst.
  - intros ps recs Hm Hps Hst Hne (_ & keys & Hkeys & Hov & Hrecs) Htd Hdir.
    unfold get_top_k_metrics.
    rewrite (metrics_analysis_frames self recs keys Hm Hst Hne Hkeys Hov Hrecs).
    unfold get_params. rewrite Hps. cbn [bind]. rewrite Htd. cbn [bind].
    unfold valid_direction in Hdir. cbn [existsb] in Hdir.
    apply orb_false_iff in Hdir as [Hup Hdir].
    apply orb_false_iff in Hdir as [Hdown Hdir].
    apply orb_false_iff in Hdir as [Hboth _].
    now rewrite Hdown, Hup, Hboth.
Qed.

Lemma top_k_metrics_failures_witness :
  get_top_k_metrics reversed_sort_values (twin_run_with "sideways") 5 None
  = Raise (UnboundLocalError "top_metrics").
Proof.
  destruct (twin_run_statistics "sideways") as (r0 & Hst & _ & _ & _ & Hstats).
  apply (proj2 (proj2 (top_k_metrics_failures reversed_sort_values
                         (twin_run_with "sideways") 5 None))
           (mkParams 5 None "sideways" None) [r0]).
  - reflexivity.
  - reflexivity.
  - exact Hst.
  - discriminate.
  - exact Hstats.
  - reflexivity.
  - reflexivity.
Defined.

Lemma melt_absent {V} (cols : list string) (recs : list StatRecord)
    (dict_of : StatRecord -> list (string * option V)) (tp : Z) :
  ~ In tp (map ds recs) ->
  filter (fun r => fst (fst r) =? tp)
         (melt (cols, combine (map ds recs) (map dict_of recs)))
  = [].
Proof.
  intro Hnotin. unfold melt. cbn [fst snd].
  rewrite filter_flat_map, combine_map.
  induction cols as [|m cols IH]; [reflexivity|].
  cbn [flat_map]. rewrite IH, app_nil_r.
  rewrite !filter_map_swap. cbn [fst snd].
  rewrite (filter_none _ recs); [reflexivity|].
  apply Forall_forall. intros r Hr.
  destruct (Z.eqb_spec (ds r) tp) as [E|E]; [|reflexivity].
  exfalso. apply Hnotin. rewrite <- E. now apply in_map.
Qed.

(** X17: after a whole-series multivariate run, [get_top_k_metrics]
    at a time point that was not evaluated (one of the first
    [window_size] timestamps, or none of the series) returns an empty
    frame, not an error. *)
Theorem top_k_metrics_unknown_time_point
    (sort_values : bool -> list (nat * option Q) -> list (nat * option Q))
    (self : MKDetector) (ps : RunParams) (recs : list StatRecord)
    (time_point : Z) (top_k : option nat) :
  sort_contract sort_values ->
  multivariate self = true ->
  params self = Some ps ->
  MK_statistics self = Some recs ->
  recs <> [] ->
  multivariate_statistics recs ->
  training_days ps = None ->
  valid_direction (direction ps) = true ->
  ~ In time_point (map ds recs) ->
  get_top_k_metrics sort_values self time_point top_k = Ok [].
Proof.
  intros [Hperm _] Hm Hps Hst Hne (_ & keys & Hkeys & Hov & Hrecs) Htd Hdir Hnotin.
  unfold get_top_k_metrics.
  rewrite (metrics_analysis_frames self recs keys Hm Hst Hne Hkeys Hov Hrecs).
  unfold get_params. rewrite Hps. cbn [bind]. rewrite Htd. cbn [bind fst snd].
  rewrite !melt_absent by exact Hnotin.
  cbn [merge flat_map tau_series length seq map combine].
  assert (Hnil : forall b, sort_values b [] = []).
  { intro b. apply Permutation_nil, Hperm. }
  rewrite !Hnil. cbn [reindex flat_map].
  unfold valid_direction in Hdir. cbn [existsb] in Hdir.
  destruct (String.eqb (direction ps) "down");
    [|destruct (String.eqb (direction ps) "up");
      [|destruct (String.eqb (direction ps) "both"); [|discriminate]]];
    cbn [bind]; destruct top_k as [k|]; try reflexivity;
    now rewrite firstn_nil.
Qed.

Lemma top_k_metrics_unknown_time_point_witness :
  get_top_k_metrics reversed_sort_values (twin_run_with "both") 2 None = Ok [].
Proof.
  destruct (twin_run_statistics "both") as (r0 & Hst & Hds & _ & _ & Hstats).
  apply (top_k_metrics_unknown_time_point reversed_sort_values (twin_run_with "both")
           (mkParams 5 None "both" None) [r0] 2 None reversed_sort_contract).
  - reflexivity.
  - reflexivity.
  - exact Hst.
  - discriminate.
  - exact Hstats.
  - reflexivity.
  - reflexivity.
  - cbn [map]. rewrite Hds. intros [H|[]]. discriminate.
Defined.

(** ** The whole-series scan of a deseasonalised series *)








(** ** A series of exactly [window_size] rows *)



(** ** The root the z-score divides by *)

(** X20: the variance of at least two points is positive and at least
    [n(n-1)(2n+5)/18], and a score that is not zero needs two points:
    whenever [_z_score] divides, it divides by the root of a positive
    variance. *)
Theorem variance_is_positive (x : list Q) :
  ((2 <= length x)%nat ->
   (0 < _var_s x)%Q /\ (no_ties_var_s x <= _var_s x)%Q)
  /\ (_mk_score x <> 0 -> (2 <= length x)%nat /\ (0 < _var_s x)%Q).
Proof.
  assert (H2 : (2 <= length x)%nat ->
               (0 < _var_s x)%Q /\ (no_ties_var_s x <= _var_s x)%Q).
  { intro Hn. split; [now apply var_s_pos|].
    rewrite var_s_formula. unfold no_ties_var_s.
    assert (Ht : (0 <= tie_sum x)%Q).
    { unfold tie_sum. rewrite tie_terms_map. apply sum_terms_nonneg. }
    apply Qle_shift_div_l; [reflexivity|].
    setoid_replace
      (inject_Z (len x * (len x - 1) * (2 * len x + 5)) / 18 * 18)%Q
      with (inject_Z (len x * (len x - 1) * (2 * len x + 5))) by field.
    lra. }
  split; [exact H2|].
  intro Hs.
  assert (Hn : (2 <= length x)%nat).
  { pose proof (mk_score_abs x) as Hb. unfold len in Hb.
    destruct x as [|a [|b x]]; cbn [length] in *; try lia;
      exfalso; apply Hs; reflexivity. }
  split; [exact Hn|]. now apply H2.
Qed.

Lemma variance_is_positive_witness :
  (0 < _var_s [2; 2; 2]%Q)%Q /\ (no_ties_var_s [2; 2; 2]%Q <= _var_s [2; 2; 2]%Q)%Q.
Proof.
  apply (proj1 (variance_is_positive [2; 2; 2]%Q)). cbn. lia.
Defined.

(** ** A threshold that no Tau can pass *)

Lemma score_within_denominator (x : list Q) :
  (- tau_denominator (length x) <= inject_Z (_mk_score x)
   <= tau_denominator (length x))%Q.
Proof.
  pose proof (mk_score_abs x) as Hb. unfold len in Hb.
  assert (Hup : (inject_Z (2 * _mk_score x)
                 <= inject_Z (Z.of_nat (length x) * (Z.of_nat (length x) - 1)))%Q)
    by (rewrite <- Zle_Qle; lia).
  assert (Hlo : (inject_Z (- (Z.of_nat (length x) * (Z.of_nat (length x) - 1)))
                 <= inject_Z (2 * _mk_score x))%Q)
    by (rewrite <- Zle_Qle; lia).
  rewrite inject_Z_opp in Hlo. rewrite !inject_Z_mult in Hup, Hlo.
  change (inject_Z 2) with 2%Q in Hup, Hlo.
  unfold tau_denominator. split; lra.
Qed.

Lemma tau_within_one (S D T : Q) :
  (- D <= S <= D)%Q -> py_div S D = Ok T -> (-1 <= T <= 1)%Q.
Proof.
  intros [Hlo Hhi]. unfold py_div.
  destruct (Qeq_bool D 0) eqn:E; [discriminate|].
  intro H. injection H as <-. apply Qeq_bool_neq in E.
  assert (Hpos : (0 < D)%Q) by lra.
  split.
  - apply Qle_shift_div_l; [exact Hpos|lra].
  - apply Qle_shift_div_r; [exact Hpos|lra].
Qed.

Section NoTrend.
Variables np_sqrt norm_cdf norm_ppf : Q -> Q.
Variable SimpleExpSmoothing : Series -> ses_outcome.
Variable self : MKDetector.

Lemma mv_fold_raise (f : DataFrame) (x : ndarray (option Q)) (l : list nat) (e : exn) :
  fold_left (mv_step np_sqrt norm_cdf norm_ppf self f x) l (Raise e) = Raise e.
Proof.
  induction l as [|i l IH]; [reflexivity|]. cbn [fold_left]. exact IH.
Qed.

(** the pooled score stays within the pooled denominator *)
Lemma mv_fold_bound (f : DataFrame) (x : ndarray (option Q)) (l : list nat)
    (a a' : mv_acc) :
  (- acc_denominator a <= inject_Z (acc_s a) <= acc_denominator a)%Q ->
  fold_left (mv_step np_sqrt norm_cdf norm_ppf self f x) l (Ok a) = Ok a' ->
  (- acc_denominator a' <= inject_Z (acc_s a') <= acc_denominator a')%Q.
Proof.
  revert a. induction l as [|i l IH]; intros a Ha H.
  - cbn [fold_left] in H. now injection H as <-.
  - cbn [fold_left] in H.
    destruct (mv_step np_sqrt norm_cdf norm_ppf self f x (Ok a) i) as [a1|e] eqn:E.
    + apply (IH a1); [|exact H].
      unfold mv_step in E. cbn [bind] in E.
      destruct (column_i x i) as [col|e]; [|discriminate]. cbn [bind] in E.
      injection E as <-. cbn [acc_s acc_denominator].
      pose proof (score_within_denominator (drop_nan col)) as Hb.
      rewrite inject_Z_plus. lra.
    + rewrite mv_fold_raise in H. discriminate.
Qed.

Lemma runDetector_no_trend (f : DataFrame) (r : StatRecord) :
  (1 <= threshold self)%Q ->
  runDetector np_sqrt norm_cdf norm_ppf self f = Ok r ->
  record_label self r = Some "no trend".
Proof.
  intro Hthr. unfold runDetector, record_label. destruct (multivariate self).
  - unfold multivariate_MKtest.
    destruct (last_label (index f)); [|discriminate]. cbn [bind].
    destruct (_preprocessing self f) as [[x c]|e]; [|discriminate]. cbn [bind].
    destruct (fold_left _ _ _) as [a0|e] eqn:Ef; [|discriminate]. cbn [bind].
    destruct (py_div _ _) as [T|e] eqn:ET; [|discriminate]. cbn [bind].
    assert (H0 : (- acc_denominator (mkAcc 0 0%Q 0%Q [] [])
                  <= inject_Z (acc_s (mkAcc 0 0%Q 0%Q [] []))
                  <= acc_denominator (mkAcc 0 0%Q 0%Q [] []))%Q)
      by (split; discriminate).
    assert (HT : (-1 <= T <= 1)%Q)
      by (apply (tau_within_one _ _ _ (mv_fold_bound f x _ _ a0 H0 Ef) ET)).
    pose proof (trend_below_threshold norm_cdf norm_ppf self
                  (_z_score np_sqrt (inject_Z (acc_s a0)) (acc_var_s a0)) T
                  ltac:(lra)) as Hno.
    destruct (_p_value norm_cdf norm_ppf self _ T) as [pv tr]. cbn [snd] in Hno.
    cbn [bind]. intro H. injection H as <-.
    unfold overall_cell, cell. cbn [trend_direction].
    now rewrite dict_get_set_same, Hno.
  - unfold MKtest.
    destruct (_preprocessing self f) as [xc|e]; [|discriminate]. cbn [bind].
    destruct (_drop_missing_values (fst xc)) as [x n] eqn:Ex.
    destruct (last_label (index f)); [|discriminate]. cbn [bind].
    destruct x as [x|n' cols]; [|discriminate].
    assert (Hn : n = length x).
    { destruct (fst xc) as [y|m cs]; cbn [_drop_missing_values] in Ex.
      - now injection Ex as <- <-.
      - discriminate. }
    subst n.
    destruct (py_div _ _) as [T|e] eqn:ET; [|discriminate]. cbn [bind].
    assert (HT : (-1 <= T <= 1)%Q)
      by (apply (tau_within_one _ _ _ (score_within_denominator x) ET)).
    pose proof (trend_below_threshold norm_cdf norm_ppf self
                  (_z_score np_sqrt (inject_Z (_mk_score x)) (_var_s x)) T
                  ltac:(lra)) as Hno.
    destruct (_p_value norm_cdf norm_ppf self _ T) as [pv tr]. cbn [snd] in Hno.
    cbn [bind]. intro H. injection H as <-. cbn [trend_direction]. now rewrite Hno.
Qed.

(** a property of every record of [runDetector] holds of the records
    of a scan *)
Lemma scan_anchors_forall (P : StatRecord -> Prop) (sm : DataFrame)
    (anchors : list Z) (acc recs : list StatRecord) :
  (forall f r, runDetector np_sqrt norm_cdf norm_ppf self f = Ok r -> P r) ->
  Forall P acc ->
  scan_anchors np_sqrt norm_cdf norm_ppf self sm anchors acc = Ok recs ->
  Forall P recs.
Proof.
  intro HP. revert acc. induction anchors as [|t rest IH]; intros acc Hacc H.
  - cbn [scan_anchors] in H. injection H as <-. exact Hacc.
  - cbn [scan_anchors] in H.
    destruct (runDetector np_sqrt norm_cdf norm_ppf self (loc_upto t sm)) as [r|e] eqn:Er;
      [|discriminate].
    cbn [bind] in H. apply (IH (acc ++ [r])%list); [|exact H].
    apply Forall_app. split; [exact Hacc|].
    constructor; [|constructor]. exact (HP _ r Er).
Qed.

Lemma run_scan_forall (P : StatRecord -> Prop) (ps : RunParams) (f : DataFrame)
    (recs : list StatRecord) :
  (forall f r, runDetector np_sqrt norm_cdf norm_ppf self f = Ok r -> P r) ->
  run_scan np_sqrt norm_cdf norm_ppf SimpleExpSmoothing self ps f = Ok recs ->
  Forall P recs.
Proof.
  intro HP. unfold run_scan. destruct (training_days ps) as [td|].
  - destruct (last_label (index f)); cbn [bind]; [|discriminate].
    destruct (td <? window_size ps)%nat; [discriminate|].
    destruct (nrows f <? td)%nat; [discriminate|].
    destruct (_remove_seasonality _ (freq ps)); cbn [bind]; [|discriminate].
    destruct (_smoothing SimpleExpSmoothing _) as [sm|e]; cbn [bind]; [|discriminate].
    destruct (runDetector np_sqrt norm_cdf norm_ppf self sm) as [r|e] eqn:Er;
      [|discriminate].
    cbn [bind]. intro H. injection H as <-.
    constructor; [|constructor]. exact (HP sm r Er).
  - destruct (nrows f <? window_size ps)%nat; [discriminate|].
    destruct (_remove_seasonality f (freq ps)); cbn [bind]; [|discriminate].
    destruct (_smoothing SimpleExpSmoothing _) as [sm|e]; cbn [bind]; [|discriminate].
    apply scan_anchors_forall; [exact HP|constructor].
Qed.
End NoTrend.

(** X21: Kendall's Tau never exceeds 1 in size, so with a threshold
    of 1 or more no record is ever labelled a trend, in the univariate
    and in the overall multivariate test alike, and a run that returns
    returns no change point. *)
Theorem threshold_one_never_trends
    (np_sqrt norm_cdf norm_ppf : Q -> Q) (SimpleExpSmoothing : Series -> ses_outcome)
    (self : MKDetector) (W : nat) (td : option nat) (direction : string)
    (frequency : option string) :
  (1 <= threshold self)%Q ->
  let r := detector np_sqrt norm_cdf norm_ppf SimpleExpSmoothing
             self W td direction frequency in
  (forall f rec, runDetector np_sqrt norm_cdf norm_ppf self f = Ok rec ->
                 record_label self rec = Some "no trend")
  /\ forall cps, snd r = Ok cps -> cps = [].
Proof.
  intros Hthr r. split.
  - intros f rec. now apply runDetector_no_trend.
  - subst r. unfold detector. cbn [data set_params].
    destruct (data self) as [d|]; [|discriminate].
    set (ps := mkParams W td direction frequency).
    set (self' := set_ts (set_params self ps) (dropna_axis1 d)).
    destruct (run_scan np_sqrt norm_cdf norm_ppf SimpleExpSmoothing self' ps
                       (dropna_axis1 d)) as [st|e] eqn:Est; [|discriminate].
    cbn [snd]. intros cps Hcps.
    assert (Hlab : Forall (fun rec => record_label self' rec = Some "no trend") st).
    { apply (run_scan_forall np_sqrt norm_cdf norm_ppf SimpleExpSmoothing self'
               _ ps (dropna_axis1 d) st); [|exact Est].
      intros f rec. now apply runDetector_no_trend. }
    destruct (valid_direction direction) eqn:Hv.
    + rewrite (get_MK_results_by_label _ _ _ Hv) in Hcps.
      match type of Hcps with
      | bind (bind ?c _) _ = _ => destruct c as [[]|e]; [|discriminate]
      end.
      cbn [bind] in Hcps. rewrite filter_none in Hcps.
      * now injection Hcps as <-.
      * eapply Forall_impl; [|exact Hlab]. intros rec Hrec. cbv beta.
        change (record_label (set_MK_statistics self' st) rec)
          with (record_label self' rec).
        rewrite Hrec.
        destruct (String.eqb direction "down"); [reflexivity|].
        destruct (String.eqb direction "up"); reflexivity.
    + unfold get_MK_results in Hcps. unfold valid_direction in Hv.
      rewrite Hv in Hcps. discriminate.
Qed.

Lemma threshold_one_never_trends_witness :
  exists cps,
    snd (detector newton_sqrt linear_cdf quantile_975 ses_02
           (MKDetector_init (Some (daily_series [1; 2; 3; 4; 5; 6; 7; 8]))
                            1 (5 # 100) false)
           5 None "both" None)
    = Ok cps
    /\ cps = [].
Proof.
  exists []. split; [vm_compute; reflexivity|].
  apply (proj2 (threshold_one_never_trends newton_sqrt linear_cdf quantile_975 ses_02
                  (MKDetector_init (Some (daily_series [1; 2; 3; 4; 5; 6; 7; 8]))
                                   1 (5 # 100) false)
                  5 None "both" None (Qle_refl 1))).
  vm_compute. reflexivity.
Defined.

(** ** The order of the change points *)

Lemma sorted_filter_ds (P : StatRecord -> bool) (l : list StatRecord) :
  StronglySorted Z.lt (map ds l) -> StronglySorted Z.lt (map ds (filter P l)).
Proof.
  induction l as [|r l IH]; cbn [map filter]; intro H; [constructor|].
  apply StronglySorted_inv in H as [Hs Hr].
  destruct (P r); cbn [map]; [|now apply IH].
  constructor; [now apply IH|].
  rewrite Forall_forall in *. intros t Ht. apply Hr.
  apply in_map_iff in Ht as (r' & <- & Hr').
  apply in_map. now apply filter_In in Hr' as [Hr' _].
Qed.

(** X22: the change points of a whole-series run on a series with no
    missing value come in the order of time, no timestamp twice, and
    each lies after the first [window_size] timestamps of the series;
    a univariate run with a valid direction does return them. *)
Theorem change_points_chronological
    (np_sqrt norm_cdf norm_ppf : Q -> Q) (SimpleExpSmoothing : Series -> ses_outcome)
    (self : MKDetector) (d : DataFrame) (W : nat) (direction : string) :
  ses_contract SimpleExpSmoothing ->
  data self = Some d ->
  complete_frame d ->
  StronglySorted Z.lt (index d) ->
  (1 <= ncols d)%nat ->
  multivariate self = negb (is_univariate d) ->
  (2 <= W <= nrows d)%nat ->
  let r := detector np_sqrt norm_cdf norm_ppf SimpleExpSmoothing
             self W None direction None in
  (forall cps, snd r = Ok cps ->
     StronglySorted Z.lt (map (fun cp => start_time (fst cp)) cps)
     /\ incl (map (fun cp => start_time (fst cp)) cps) (skipn W (index d)))
  /\ (multivariate self = false -> valid_direction direction = true ->
      exists cps, snd r = Ok cps).
Proof.
  intros Hses Hd Hc Hs Hcols Hflag [HW HWL] r.
  set (ps := mkParams W None direction None).
  set (self' := set_ts (set_params self ps) d).
  destruct (run_scan_whole np_sqrt norm_cdf norm_ppf self' ps eq_refl HW
              SimpleExpSmoothing d Hses eq_refl eq_refl HWL Hs Hc Hcols Hflag)
    as (recs & Hscan & Hds).
  cbn [window_size ps] in Hds.
  subst r. unfold detector. fold ps. cbn [data set_params]. rewrite Hd.
  rewrite (dropna_axis1_complete d Hc). fold self'. rewrite Hscan. cbn [snd].
  assert (Hsel : forall sel,
             get_MK_results (set_MK_statistics self' recs) recs direction = Ok sel ->
             exists P, sel = filter P recs).
  { intros sel Hsel. destruct (valid_direction direction) eqn:Hv.
    - rewrite (get_MK_results_by_label _ _ _ Hv) in Hsel.
      match type of Hsel with
      | bind ?c _ = _ => destruct c as [[]|e]; [|discriminate]
      end.
      cbn [bind] in Hsel. eexists. injection Hsel as <-. reflexivity.
    - unfold get_MK_results in Hsel. unfold valid_direction in Hv.
      rewrite Hv in Hsel. discriminate. }
  split.
  - intros cps Hcps.
    destruct (get_MK_results (set_MK_statistics self' recs) recs direction)
      as [sel|e] eqn:Esel; [|discriminate].
    cbn [bind] in Hcps. injection Hcps as <-.
    destruct (Hsel sel eq_refl) as [P ->].
    unfold _convert_detected_tps. rewrite map_map. cbn [fst start_time].
    split.
    + apply sorted_filter_ds. rewrite Hds. now apply sorted_skipn.
    + rewrite <- Hds. intros t Ht.
      apply in_map_iff in Ht as (rec & <- & Hrec).
      apply in_map. now apply filter_In in Hrec as [Hrec _].
  - intros Hm Hv. rewrite (get_MK_results_by_label _ _ _ Hv).
    cbn [multivariate set_MK_statistics self' set_ts set_params].
    rewrite Hm. cbn [bind]. eexists. reflexivity.
Qed.

Lemma change_points_chronological_witness :
  exists cps,
    snd (detector newton_sqrt linear_cdf quantile_975 ses_02
           (default_detector (daily_series [1; 2; 3; 4; 5; 6; 7; 8]))
           5 None "both" None)
    = Ok cps.
Proof.
  apply (change_points_chronological newton_sqrt linear_cdf quantile_975 ses_02
           (default_detector (daily_series [1; 2; 3; 4; 5; 6; 7; 8]))
           (daily_series [1; 2; 3; 4; 5; 6; 7; 8]) 5 "both").
  - exact ses_02_contract.
  - reflexivity.
  - repeat constructor.
  - repeat constructor.
  - cbn. lia.
  - reflexivity.
  - cbn. lia.
  - reflexivity.
  - reflexivity.
Defined.

(** ** The variance does not depend on the order of the points *)

Lemma np_sum_app (l1 l2 : list Q) : (np_sum (l1 ++ l2) == np_sum l1 + np_sum l2)%Q.
Proof.
  induction l1 as [|a l1 IH]; cbn [app].
  - unfold np_sum at 2. cbn [fold_left]. ring.
  - rewrite !np_sum_cons, IH. ring.
Qed.

Lemma key_absent_proper (v v' : Q) (c : list (Q * nat)) :
  (v == v')%Q ->
  existsb (fun e => Qeq_bool (fst e) v) c = existsb (fun e => Qeq_bool (fst e) v') c.
Proof.
  intro E. induction c as [|[k m] c IH]; [reflexivity|].
  cbn [existsb fst]. now rewrite IH, (Qeq_bool_proper k k v v' (Qeq_refl k) E).
Qed.

Lemma counter_get_proper (v v' : Q) (c : list (Q * nat)) :
  (v == v')%Q -> counter_get v c = counter_get v' c.
Proof.
  intro E. induction c as [|[k m] c IH]; [reflexivity|].
  cbn [counter_get]. now rewrite IH, (Qeq_bool_proper k k v v' (Qeq_refl k) E).
Qed.

Lemma counter_get_absent (v : Q) (c : list (Q * nat)) :
  existsb (fun e => Qeq_bool (fst e) v) c = false -> counter_get v c = O.
Proof.
  induction c as [|[k m] c IH]; [reflexivity|].
  cbn [existsb counter_get fst]. intro H. apply orb_false_iff in H as [Hk Hc].
  rewrite Hk. now apply IH.
Qed.

Lemma counter_get_app (v : Q) (l1 l2 : list (Q * nat)) :
  counter_get v (l1 ++ l2)
  = if existsb (fun e => Qeq_bool (fst e) v) l1 then counter_get v l1
    else counter_get v l2.
Proof.
  induction l1 as [|[k m] l1 IH]; [reflexivity|].
  cbn [app counter_get existsb fst]. destruct (Qeq_bool k v); [reflexivity|exact IH].
Qed.

Lemma key_absent_app (v : Q) (l1 l2 : list (Q * nat)) :
  existsb (fun e => Qeq_bool (fst e) v) (l1 ++ l2)
  = existsb (fun e => Qeq_bool (fst e) v) l1
    || existsb (fun e => Qeq_bool (fst e) v) l2.
Proof. apply existsb_app. Qed.

(** taking an entry out of a counter with distinct keys *)
Lemma keys_distinct_remove (l1 : list (Q * nat)) (k : Q) (m : nat)
    (l2 : list (Q * nat)) :
  keys_distinct (l1 ++ (k, m) :: l2) ->
  keys_distinct (l1 ++ l2)
  /\ existsb (fun e => Qeq_bool (fst e) k) l1 = false
  /\ existsb (fun e => Qeq_bool (fst e) k) l2 = false.
Proof.
  induction l1 as [|[k1 m1] l1 IH]; cbn [app keys_distinct].
  - intros [Hk Hd]. repeat split; assumption.
  - intros [Hk1 Hd]. destruct (IH Hd) as (Hd' & H1 & H2).
    rewrite key_absent_app in Hk1. cbn [existsb fst] in Hk1.
    apply orb_false_iff in Hk1 as [Ha Hb].
    apply orb_false_iff in Hb as [Hb Hc].
    repeat split.
    + rewrite key_absent_app, Ha, Hc. reflexivity.
    + exact Hd'.
    + cbn [existsb fst]. rewrite H1, Qeq_bool_comm, Hb. reflexivity.
    + exact H2.
Qed.

Lemma counter_split (k : Q) (c : list (Q * nat)) :
  (1 <= counter_get k c)%nat ->
  exists l1 k' l2,
    c = (l1 ++ (k', counter_get k c) :: l2)%list
    /\ Qeq_bool k' k = true
    /\ existsb (fun e => Qeq_bool (fst e) k) l1 = false.
Proof.
  induction c as [|[k0 m0] c IH]; cbn [counter_get]; [lia|].
  destruct (Qeq_bool k0 k) eqn:E; intro H.
  - exists [], k0, c. repeat split. exact E.
  - destruct (IH H) as (l1 & k' & l2 & Hc & Hk & Hl).
    exists ((k0, m0) :: l1), k', l2. repeat split.
    + cbn [app]. now rewrite <- Hc.
    + exact Hk.
    + cbn [existsb fst]. now rewrite E, Hl.
Qed.

(** two counters with distinct keys and positive counts that count
    every value alike have the same tie term *)
Lemma tie_terms_of_equal_counts (c c' : list (Q * nat)) :
  keys_distinct c -> keys_distinct c' ->
  Forall (fun kv => (1 <= snd kv)%nat) c ->
  Forall (fun kv => (1 <= snd kv)%nat) c' ->
  (forall v, counter_get v c = counter_get v c') ->
  (np_sum (map (fun kv => tie_term (snd kv)) c)
   == np_sum (map (fun kv => tie_term (snd kv)) c'))%Q.
Proof.
  revert c'. induction c as [|[k m] c IH]; intros c' Hd Hd' Hp Hp' Hget.
  - destruct c' as [|[k' m'] c']; [reflexivity|].
    exfalso. specialize (Hget k'). cbn [counter_get] in Hget.
    rewrite Qeq_bool_refl in Hget.
    inversion Hp' as [|? ? Hm _]; subst. cbn [snd] in Hm. lia.
  - cbn [keys_distinct] in Hd. destruct Hd as [Hk Hd].
    inversion Hp as [|? ? Hm Hp0]; subst. cbn [snd] in Hm.
    assert (Hkc' : counter_get k c' = m).
    { rewrite <- Hget. cbn [counter_get]. now rewrite Qeq_bool_refl. }
    destruct (counter_split k c') as (l1 & k' & l2 & Hc' & Hk' & Hl1); [lia|].
    rewrite Hkc' in Hc'. subst c'.
    destruct (keys_distinct_remove l1 k' m l2 Hd') as (Hd'' & Hl1' & Hl2').
    apply Qeq_bool_iff in Hk'.
    assert (Hl2 : existsb (fun e => Qeq_bool (fst e) k) l2 = false)
      by (now rewrite <- (key_absent_proper k' k l2 Hk')).
    assert (Hp'' : Forall (fun kv => (1 <= snd kv)%nat) (l1 ++ l2)).
    { apply Forall_app in Hp' as [H1 H2]. apply Forall_app. split; [exact H1|].
      now inversion H2. }
    rewrite map_app, np_sum_app. cbn [map snd]. rewrite !np_sum_cons.
    rewrite (IH (l1 ++ l2)%list Hd Hd'' Hp0 Hp'').
    + rewrite map_app, np_sum_app. ring.
    + intro v. specialize (Hget v). cbn [counter_get] in Hget.
      rewrite counter_get_app in Hget. cbn [counter_get] in Hget.
      rewrite counter_get_app.
      destruct (Qeq_bool k v) eqn:Ev.
      * apply Qeq_bool_iff in Ev.
        rewrite (counter_get_absent v c)
          by (now rewrite <- (key_absent_proper k v c Ev)).
        rewrite <- (key_absent_proper k v l1 Ev), Hl1.
        symmetry. apply counter_get_absent.
        now rewrite <- (key_absent_proper k v l2 Ev).
      * assert (Ev' : Qeq_bool k' v = false).
        { apply not_true_is_false. intro H. apply Qeq_bool_iff in H.
          apply Qeq_bool_neq in Ev. apply Ev. now rewrite <- Hk'. }
        rewrite Ev' in Hget. exact Hget.
Qed.

Lemma counter_incr_positive (v : Q) (c : list (Q * nat)) :
  Forall (fun kv => (1 <= snd kv)%nat) c ->
  Forall (fun kv => (1 <= snd kv)%nat) (counter_incr v c).
Proof.
  induction 1 as [|[k m] c Hm Hc IH]; cbn [counter_incr].
  - constructor; [cbn; lia|constructor].
  - cbn [snd] in Hm.
    destruct (Qeq_bool k v); constructor; try assumption; cbn [snd]; lia.
Qed.

Lemma Counter_positive (x : list Q) :
  Forall (fun kv => (1 <= snd kv)%nat) (Counter x).
Proof.
  unfold Counter.
  assert (H : forall acc, Forall (fun kv => (1 <= snd kv)%nat) acc ->
              Forall (fun kv => (1 <= snd kv)%nat)
                     (fold_left (fun c u => counter_incr u c) x acc)).
  { induction x as [|a r IH]; intros acc Hacc; cbn [fold_left]; [exact Hacc|].
    apply IH, counter_incr_positive, Hacc. }
  apply H. constructor.
Qed.

(** X23: the variance depends on the values of the window, not on
    their order: two sequences that are permutations of each other
    have the same tie term and the same variance (the score is what
    carries the order). *)
Theorem variance_ignores_order (x y : list Q) :
  Permutation x y ->
  (tie_sum x == tie_sum y)%Q /\ (_var_s x == _var_s y)%Q.
Proof.
  intro HP.
  assert (Ht : (tie_sum x == tie_sum y)%Q).
  { unfold tie_sum. rewrite !tie_terms_map.
    apply tie_terms_of_equal_counts.
    - apply Counter_distinct.
    - apply Counter_distinct.
    - apply Counter_positive.
    - apply Counter_positive.
    - intro v. rewrite !counter_get_Counter. now apply countQ_perm. }
  split; [exact Ht|].
  rewrite !var_s_formula, Ht. unfold len.
  now rewrite (Permutation_length HP).
Qed.

Lemma variance_ignores_order_witness :
  (_var_s [3; 1; 3; 2]%Q == _var_s (rev [3; 1; 3; 2]%Q))%Q.
Proof.
  apply (variance_ignores_order [3; 1; 3; 2]%Q (rev [3; 1; 3; 2]%Q)).
  apply Permutation_rev.
Defined.

(** ** A run does not depend on the runs before it *)

Lemma detector_reads_settings
    (np_sqrt norm_cdf norm_ppf : Q -> Q) (SimpleExpSmoothing : Series -> ses_outcome)
    (a b : MKDetector) (W : nat) (td : option nat) (direction : string)
    (frequency : option string) :
  data a = data b -> threshold a = threshold b -> alpha a = alpha b ->
  multivariate a = multivariate b ->
  let run s := detector np_sqrt norm_cdf norm_ppf SimpleExpSmoothing
                 s W td direction frequency in
  snd (run a) = snd (run b)
  /\ (is_ok (snd (run b)) = true -> fst (run a) = fst (run b)).
Proof.
  destruct a as [da tha ala mua pa tsa sta], b as [db thb alb mub pb tsb stb].
  cbn [data threshold alpha multivariate]. intros -> -> -> ->.
  cbv zeta. unfold detector. cbn [data set_params].
  destruct db as [d|]; [|split; [reflexivity|discriminate]].
  set (ps := mkParams W td direction frequency).
  set (f := dropna_axis1 d).
  set (s1 := set_ts (set_params (mkDetector (Some d) thb alb mub pa tsa sta) ps) f).
  set (s2 := set_ts (set_params (mkDetector (Some d) thb alb mub pb tsb stb) ps) f).
  assert (Hsame : same_settings s1 s2) by (repeat split).
  rewrite (run_scan_settings np_sqrt norm_cdf norm_ppf SimpleExpSmoothing
             s1 s2 ps f Hsame).
  destruct (run_scan np_sqrt norm_cdf norm_ppf SimpleExpSmoothing s2 ps f) as [st|e].
  - cbn [fst snd]. split; [|reflexivity].
    reflexivity.
  - cbn [fst snd]. split; [reflexivity|discriminate].
Qed.

(** X24: [detector] reads the series and the settings of the
    detector, not what an earlier run left in it: after any run, a
    second run returns what it returns on the detector as it was
    before, and when it does not fail it leaves the detector in the
    same state. *)
Theorem runs_are_independent
    (np_sqrt norm_cdf norm_ppf : Q -> Q) (SimpleExpSmoothing : Series -> ses_outcome)
    (self : MKDetector)
    (W1 : nat) (td1 : option nat) (direction1 : string) (freq1 : option string)
    (W2 : nat) (td2 : option nat) (direction2 : string) (freq2 : option string) :
  let after := fst (detector np_sqrt norm_cdf norm_ppf SimpleExpSmoothing
                      self W1 td1 direction1 freq1) in
  let again := detector np_sqrt norm_cdf norm_ppf SimpleExpSmoothing
                 after W2 td2 direction2 freq2 in
  let fresh := detector np_sqrt norm_cdf norm_ppf SimpleExpSmoothing
                 self W2 td2 direction2 freq2 in
  snd again = snd fresh
  /\ (is_ok (snd fresh) = true -> fst again = fst fresh).
Proof.
  intros after again fresh.
  assert (Hst : data after = data self /\ threshold after = threshold self
                /\ alpha after = alpha self
                /\ multivariate after = multivariate self).
  { subst after. unfold detector. cbn [data set_params].
    destruct (data self) as [d|] eqn:Ed.
    - destruct (run_scan _ _ _ _ _ _ _); cbn; rewrite ?Ed; repeat split.
    - cbn. rewrite ?Ed. repeat split. }
  destruct Hst as (Hd & Hthr & Hal & Hmu).
  exact (detector_reads_settings np_sqrt norm_cdf norm_ppf SimpleExpSmoothing
           after self W2 td2 direction2 freq2 Hd Hthr Hal Hmu).
Qed.
